(** * rlassopy: a shallow embedding of [rlassopy/models.py]

    The estimators [Rlasso] and [SqrtRlasso] (rigorous lasso and its
    square-root variant) are embedded as Rocq functions over binary64
    floats.  Python exceptions are values of [exn]; methods that read or
    write attributes of [self], or that call an external library, run in a
    state-and-exception monad [py] whose state holds the estimator object,
    the number of random draws taken, and a log of the steps of the
    algorithm (the pilot regression, every convex solve, every post-lasso
    refit).  The log is what statements about when and how often a step
    runs are written over.

    External collaborators (the convex solver, [numpy.linalg.inv],
    [scipy.stats.pearsonr], [scipy.stats.norm.ppf], [numpy.log],
    [numpy.quantile], [numpy.random.normal]) are the fields of the class
    [Oracles]: the theorems hold for every implementation of them, and the
    module [Example] gives one to run the methods on small inputs. *)

From Stdlib Require Import ZArith String List Bool Lia FunctionalExtensionality.
From Stdlib Require Import Floats.
Import ListNotations.

Set Warnings "-inexact-float,-register-all".
Set Implicit Arguments.

Local Open Scope string_scope.
Local Open Scope list_scope.
Local Open Scope Z_scope.

(* ================================================================= *)
(** ** Python values, exceptions and results *)

(** The exception classes the modelled code can raise, directly or through
    a library call. *)
Inductive exn : Type :=
| TypeError            (* wrong keyword, [None] used as an array or a number *)
| ValueError           (* shape mismatch, failed input validation *)
| IndexError           (* column index out of range *)
| AttributeError       (* attribute read before it was ever assigned *)
| UnboundLocalError    (* local variable read before assignment *)
| NotImplementedError
| NotFittedError       (* sklearn.exceptions.NotFittedError *)
| LinAlgError          (* numpy.linalg.LinAlgError: singular matrix *)
| SolverError.         (* cvxpy.error.SolverError *)

Inductive result (A : Type) : Type :=
| Ok (a : A)
| Raise (e : exn).
Arguments Ok {A} a.
Arguments Raise {A} e.

Definition rbind {A B} (r : result A) (k : A -> result B) : result B :=
  match r with
  | Ok a => k a
  | Raise e => Raise e
  end.

Definition is_ok {A} (r : result A) : bool :=
  match r with Ok _ => true | Raise _ => false end.

Declare Scope result_scope.
Delimit Scope result_scope with result.
Notation "x <-- c ;; k" := (rbind c (fun x => k))
  (at level 61, c at next level, right associativity) : result_scope.

(** Dynamically typed values, as they are passed for keyword arguments and
    solver options. *)
Inductive pyval : Type :=
| PyNone
| PyBool (b : bool)
| PyInt (z : Z)
| PyFloat (f : float)
| PyStr (s : string)
| PyDict (d : list (string * pyval)).

(** Python's truth value of an object ([bool(v)]). *)
Definition truthy (v : pyval) : bool :=
  match v with
  | PyNone => false
  | PyBool b => b
  | PyInt z => negb (z =? 0)
  | PyFloat f => negb (f =? 0)%float
  | PyStr s => negb (s =? "")%string
  | PyDict d => match d with [] => false | _ => true end
  end.

(* ================================================================= *)
(** ** Floats and arrays (the numpy operations the source uses) *)

(** A Python int used in float arithmetic ([np.sqrt(n)], [x / n]); exact
    below [2^53] in absolute value, as every array dimension is. *)
Definition Z2f (z : Z) : float :=
  if z <? 0 then (- PrimFloat.of_uint63 (Uint63.of_Z (- z)))%float
  else PrimFloat.of_uint63 (Uint63.of_Z z).

Definition vec := list float.

(** A 2-d array is the list of its rows; all rows have the same length.
    A matrix with no row does not record its number of columns. *)
Definition matrix := list vec.

Module np.
Local Open Scope float_scope.

(** [X.shape] *)
Definition nrows (X : matrix) : Z := Z.of_nat (length X).
Definition ncols (X : matrix) : Z := Z.of_nat (length (hd [] X)).

(** [np.sum(v)], summed from the left (numpy sums long arrays pairwise,
    which can differ in the last bits). *)
Definition sum (v : vec) : float := fold_left PrimFloat.add v 0.

(** [np.mean(v)] of a 1-d array. *)
Definition mean (v : vec) : float := sum v / Z2f (Z.of_nat (length v)).

(** [v ** 2], [np.abs(v)], [np.sqrt(v)], [v / n], elementwise. *)
Definition sq (v : vec) : vec := map (fun x => x * x) v.
Definition vabs (v : vec) : vec := map PrimFloat.abs v.
Definition vsqrt (v : vec) : vec := map PrimFloat.sqrt v.
Definition vdiv (v : vec) (d : float) : vec := map (fun x => x / d) v.
Definition vscale (a : float) (v : vec) : vec := map (fun x => a * x) v.

(** [X[:, k]] and [X.T] *)
Definition col (k : nat) (X : matrix) : vec := map (fun row => nth k row 0) X.
Definition transpose (X : matrix) : matrix :=
  map (fun k => col k X) (seq 0 (length (hd [] X))).

(** [np.mean(X, axis=0)]: the mean of every column. *)
Definition mean_axis0 (X : matrix) : vec := map mean (transpose X).

(** [X ** 2] on a 2-d array. *)
Definition msq (X : matrix) : matrix := map sq X.

Definition dot (u v : vec) : float :=
  sum (map (fun ab => fst ab * snd ab) (combine u v)).

(** Elementwise binary operation on 1-d arrays with numpy's broadcasting:
    equal lengths, or one operand of length one. *)
Definition broadcast (f : float -> float -> float) (u v : vec) : result vec :=
  if Nat.eqb (length u) (length v)
  then Ok (map (fun ab => f (fst ab) (snd ab)) (combine u v))
  else match u, v with
       | [a], _ => Ok (map (f a) v)
       | _, [b] => Ok (map (fun x => f x b) u)
       | _, _ => Raise ValueError
       end.

Definition vsub (u v : vec) : result vec := broadcast PrimFloat.sub u v.

(** [X @ v] for a 2-d [X] and a 1-d [v]: every row of [X] must be as long
    as [v]. *)
Definition matvec (X : matrix) (v : vec) : result vec :=
  if forallb (fun row => Nat.eqb (length row) (length v)) X
  then Ok (map (fun row => dot row v) X)
  else Raise ValueError.

(** [A @ B] for 2-d arrays: the rows of [A] must be as long as [B] has
    rows. *)
Definition matmul (A B : matrix) : result matrix :=
  if forallb (fun row => Nat.eqb (length row) (length B)) A
  then Ok (map (fun row => map (fun c => dot row c) (transpose B)) A)
  else Raise ValueError.

(** [A * B] elementwise on 2-d arrays of the same shape. *)
Definition mmul_elem (A B : matrix) : result matrix :=
  if Nat.eqb (length A) (length B)
     && forallb (fun ab => Nat.eqb (length (fst ab)) (length (snd ab))) (combine A B)
  then Ok (map (fun ab => map (fun xy => fst xy * snd xy) (combine (fst ab) (snd ab)))
               (combine A B))
  else Raise ValueError.

(** [np.einsum("ij, i -> j", A, w)]: column [j] of [A] weighted by [w] and
    summed; [w] must have one entry per row of [A]. *)
Definition einsum_ij_i_j (A : matrix) (w : vec) : result vec :=
  if Nat.eqb (length A) (length w)
  then Ok (map (fun c => dot c w) (transpose A))
  else Raise ValueError.

(** [np.maximum(u, v)] on arrays of the same length; a NaN operand gives
    NaN. *)
Definition fmax (a b : float) : float :=
  if PrimFloat.is_nan a then a
  else if PrimFloat.is_nan b then b
  else if a <? b then b else a.
Definition maximum (u v : vec) : vec :=
  map (fun ab => fmax (fst ab) (snd ab)) (combine u v).

(** [np.max(v)]; an empty array is a [ValueError]. *)
Definition max (v : vec) : result float :=
  match v with
  | [] => Raise ValueError
  | x :: v' => Ok (fold_left fmax v' x)
  end.

(** [np.diag(v)] of a 1-d array and [np.ones(p)]. *)
Definition diag (v : vec) : matrix :=
  map (fun i => map (fun j => if Nat.eqb i j then nth i v 0 else 0)
                    (seq 0 (length v)))
      (seq 0 (length v)).
Definition ones (p : Z) : vec := repeat 1 (Z.to_nat p).

(** [np.isclose(a, b, atol=atol)] with the default [rtol = 1e-5]. *)
Definition isclose (a b atol : float) : bool :=
  ((PrimFloat.abs (a - b) <=? atol + 1e-5 * PrimFloat.abs b) && PrimFloat.is_finite b)
  || (a =? b).

(** [np.allclose(A, B, atol=atol)] on 2-d arrays of one shape. *)
Definition allclose (A B : matrix) (atol : float) : bool :=
  forallb (fun ab => forallb (fun xy => isclose (fst xy) (snd xy) atol)
                             (combine (fst ab) (snd ab)))
          (combine A B).

(** [np.argsort(r)]: the indices of [r] in ascending order of value, NaN
    last.  Ties keep their index order (numpy leaves it unspecified). *)
Definition before (a b : float) : bool :=
  (a <? b) || (PrimFloat.is_nan b && negb (PrimFloat.is_nan a)).
Fixpoint insert_index (r : vec) (i : nat) (l : list nat) : list nat :=
  match l with
  | [] => [i]
  | j :: l' =>
      if before (nth j r 0) (nth i r 0) then j :: insert_index r i l'
      else i :: l
  end.
Definition argsort (r : vec) : list nat :=
  fold_right (insert_index r) [] (seq 0 (length r)).

(** The slice [l[start:]] of Python, for any integer [start]. *)
Definition slice_from {A} (start : Z) (l : list A) : list A :=
  let len := Z.of_nat (length l) in
  let s := (if start <? 0 then Z.max (len + start) 0 else Z.min start len)%Z in
  skipn (Z.to_nat s) l.

(** [X[:, idx]]: the columns of [X] listed in [idx]. *)
Definition take_cols (X : matrix) (idx : list nat) : result matrix :=
  if forallb (fun row => forallb (fun k => Nat.ltb k (length row)) idx) X
  then Ok (map (fun row => map (fun k => nth k row 0) idx) X)
  else Raise IndexError.

(** [np.where(beta != 0)[0]] *)
Fixpoint nonzero_from (i : nat) (beta : vec) : list nat :=
  match beta with
  | [] => []
  | b :: beta' =>
      if b =? 0 then nonzero_from (S i) beta' else i :: nonzero_from (S i) beta'
  end.
Definition nonzero (beta : vec) : list nat := nonzero_from 0 beta.

(** [beta[np.where(np.abs(beta) < tol)] = 0.0] *)
Definition zero_below (tol : float) (beta : vec) : vec :=
  map (fun b => if PrimFloat.abs b <? tol then 0 else b) beta.

(** [beta[i] = x] for an index in range. *)
Fixpoint set_nth (i : nat) (x : float) (beta : vec) : vec :=
  match beta, i with
  | [], _ => []
  | _ :: beta', O => x :: beta'
  | b :: beta', S i' => b :: set_nth i' x beta'
  end.

(** [beta[idx] = values]: one value per index, or a single value for all
    of them. *)
Fixpoint assign (idx : list nat) (values : vec) (beta : vec) : vec :=
  match idx, values with
  | i :: idx', x :: values' => assign idx' values' (set_nth i x beta)
  | _, _ => beta
  end.
Definition set_at (idx : list nat) (values : vec) (beta : vec) : result vec :=
  if negb (forallb (fun i => Nat.ltb i (length beta)) idx) then Raise IndexError
  else if Nat.eqb (length values) (length idx) then Ok (assign idx values beta)
  else match values with
       | [x] => Ok (assign idx (repeat x (length idx)) beta)
       | _ => Raise ValueError
       end.
End np.

(* ================================================================= *)
(** ** The estimator object *)

(** [type(self)]: the two concrete subclasses of [RlassoBase]. *)
Inductive estimator_class : Type := Rlasso | SqrtRlasso.

(** The attributes of an estimator.  The first group is assigned by
    [RlassoBase.__init__]; an attribute of the second group does not exist
    ([None] here) until some method assigns it. *)
Record estimator : Type := {
  class_of : estimator_class;
  fit_intercept : bool;
  post : bool;
  cov_type : string;
  x_dependent : bool;
  n_corr : Z;
  max_iter : Z;
  n_sim : Z;
  c : float;
  gamma : option float;                 (* [None] is Python's [None] *)
  zero_tol : float;
  convergence_tol : float;
  solver_opts : list (string * pyval);
  coef_ : option vec;
  lambd_ : option float;
  psi_ : option matrix;
  intercept_ : option float;
  n_iter_ : option (option Z)           (* [Some None]: assigned Python's [None] *)
}.

(** [self.post = b] *)
Definition set_post (b : bool) (e : estimator) : estimator :=
  {| class_of := class_of e; fit_intercept := fit_intercept e; post := b;
     cov_type := cov_type e; x_dependent := x_dependent e; n_corr := n_corr e;
     max_iter := max_iter e; n_sim := n_sim e; c := c e; gamma := gamma e;
     zero_tol := zero_tol e; convergence_tol := convergence_tol e;
     solver_opts := solver_opts e; coef_ := coef_ e; lambd_ := lambd_ e;
     psi_ := psi_ e; intercept_ := intercept_ e; n_iter_ := n_iter_ e |}.

(** [self.gamma = g] *)
Definition set_gamma (g : option float) (e : estimator) : estimator :=
  {| class_of := class_of e; fit_intercept := fit_intercept e; post := post e;
     cov_type := cov_type e; x_dependent := x_dependent e; n_corr := n_corr e;
     max_iter := max_iter e; n_sim := n_sim e; c := c e; gamma := g;
     zero_tol := zero_tol e; convergence_tol := convergence_tol e;
     solver_opts := solver_opts e; coef_ := coef_ e; lambd_ := lambd_ e;
     psi_ := psi_ e; intercept_ := intercept_ e; n_iter_ := n_iter_ e |}.

(** [self.n_iter_ = k] *)
Definition set_n_iter_ (k : option Z) (e : estimator) : estimator :=
  {| class_of := class_of e; fit_intercept := fit_intercept e; post := post e;
     cov_type := cov_type e; x_dependent := x_dependent e; n_corr := n_corr e;
     max_iter := max_iter e; n_sim := n_sim e; c := c e; gamma := gamma e;
     zero_tol := zero_tol e; convergence_tol := convergence_tol e;
     solver_opts := solver_opts e; coef_ := coef_ e; lambd_ := lambd_ e;
     psi_ := psi_ e; intercept_ := intercept_ e; n_iter_ := Some k |}.

(** [self.coef_, self.lambd_, self.psi_ = beta, lambd, psi] *)
Definition set_fitted (beta : vec) (lambd : float) (psi : matrix) (e : estimator)
  : estimator :=
  {| class_of := class_of e; fit_intercept := fit_intercept e; post := post e;
     cov_type := cov_type e; x_dependent := x_dependent e; n_corr := n_corr e;
     max_iter := max_iter e; n_sim := n_sim e; c := c e; gamma := gamma e;
     zero_tol := zero_tol e; convergence_tol := convergence_tol e;
     solver_opts := solver_opts e; coef_ := Some beta; lambd_ := Some lambd;
     psi_ := Some psi; intercept_ := intercept_ e; n_iter_ := n_iter_ e |}.

(* ================================================================= *)
(** ** Construction: [RlassoBase.__init__] *)

(** The keyword-only parameters of [RlassoBase.__init__]. *)
Definition init_params : list string :=
  [ "fit_intercept"; "post"; "cov_type"; "x_dependent"; "n_corr"; "max_iter";
    "n_sim"; "c"; "gamma"; "zero_tol"; "convergence_tol"; "solver_opts" ].

Fixpoint kw_lookup (name : string) (kwargs : list (string * pyval)) : option pyval :=
  match kwargs with
  | [] => None
  | (k, v) :: kwargs' => if (k =? name)%string then Some v else kw_lookup name kwargs'
  end.

(** Reading a keyword value at the type the parameter is documented with; a
    value of another type is refused here with the [TypeError] that Python
    raises at its first use. *)
Definition arg {A} (name : string) (kwargs : list (string * pyval))
           (default : A) (read : pyval -> option A) : result A :=
  match kw_lookup name kwargs with
  | None => Ok default
  | Some v => match read v with Some a => Ok a | None => Raise TypeError end
  end.

Definition as_bool (v : pyval) : option bool := Some (truthy v).
Definition as_str (v : pyval) : option string :=
  match v with PyStr s => Some s | _ => None end.
Definition as_int (v : pyval) : option Z :=
  match v with PyInt z => Some z | _ => None end.
Definition as_float (v : pyval) : option float :=
  match v with PyFloat f => Some f | PyInt z => Some (Z2f z) | _ => None end.
Definition as_opt_float (v : pyval) : option (option float) :=
  match v with
  | PyNone => Some None
  | PyFloat f => Some (Some f)
  | PyInt z => Some (Some (Z2f z))
  | _ => None
  end.
(** [solver_opts or {}] *)
Definition as_opts (v : pyval) : option (list (string * pyval)) :=
  match v with
  | PyDict d => Some d
  | _ => if truthy v then None else Some []
  end.

(** Instantiating [cls] with keyword arguments, for [cls] one of the two
    subclasses, which both inherit [RlassoBase.__init__].  Binding a
    keyword that names no parameter is a [TypeError] ("got an unexpected
    keyword argument"); the flags are stored by their truth value. *)
Definition RlassoBase_init (cls : estimator_class) (kwargs : list (string * pyval))
  : result estimator :=
  if negb (forallb (fun kv => existsb (String.eqb (fst kv)) init_params) kwargs)
  then Raise TypeError
  else
    (fit_intercept <-- arg "fit_intercept" kwargs true as_bool ;;
     post <-- arg "post" kwargs true as_bool ;;
     cov_type <-- arg "cov_type" kwargs "nonrobust" as_str ;;
     x_dependent <-- arg "x_dependent" kwargs false as_bool ;;
     n_corr <-- arg "n_corr" kwargs 5 as_int ;;
     max_iter <-- arg "max_iter" kwargs 2 as_int ;;
     n_sim <-- arg "n_sim" kwargs 5000 as_int ;;
     c <-- arg "c" kwargs 1.1%float as_float ;;
     gamma <-- arg "gamma" kwargs None as_opt_float ;;
     zero_tol <-- arg "zero_tol" kwargs 1e-4%float as_float ;;
     convergence_tol <-- arg "convergence_tol" kwargs 1e-4%float as_float ;;
     solver_opts <-- arg "solver_opts" kwargs [] as_opts ;;
     Ok {| class_of := cls; fit_intercept := fit_intercept; post := post;
           cov_type := cov_type; x_dependent := x_dependent; n_corr := n_corr;
           max_iter := max_iter; n_sim := n_sim; c := c; gamma := gamma;
           zero_tol := zero_tol; convergence_tol := convergence_tol;
           solver_opts := solver_opts; coef_ := None; lambd_ := None;
           psi_ := None; intercept_ := None; n_iter_ := None |})%result.

(** The parameters of [RlassoPenalty.__init__], the one class of the module
    that has a [sqrt] option. *)
Definition penalty_init_params : list string :=
  [ "post"; "sqrt"; "fit_intercept"; "cov_type"; "x_dependent"; "n_corr";
    "max_iter"; "n_sim"; "c"; "gamma"; "zero_tol"; "convergence_tol";
    "solver_opts" ].

(* ================================================================= *)
(** ** Program state and the [py] monad *)

(** The steps of the algorithm that call an external solver or invert a
    matrix, logged in the order they run. *)
Inductive event : Type :=
| EvPilotOLS     (* the pilot OLS on the most correlated columns *)
| EvSolve        (* [prob.solve(...)] *)
| EvPostOLS.     (* the post-lasso OLS refit on the support *)

Record state : Type := {
  self : estimator;        (* the object the method runs on *)
  trace : list event;      (* steps so far, oldest first *)
  rng : nat                (* draws taken from numpy's global generator *)
}.

Definition py (A : Type) : Type := state -> state * result A.

Definition ret {A} (a : A) : py A := fun s => (s, Ok a).
Definition raise {A} (e : exn) : py A := fun s => (s, Raise e).
Definition bind {A B} (m : py A) (k : A -> py B) : py B :=
  fun s => match m s with
           | (s', Ok a) => k a s'
           | (s', Raise e) => (s', Raise e)
           end.
Definition lift {A} (r : result A) : py A := fun s => (s, r).

Definition get_self : py estimator := fun s => (s, Ok (self s)).
Definition update_self (f : estimator -> estimator) : py unit :=
  fun s => ({| self := f (self s); trace := trace s; rng := rng s |}, Ok tt).
Definition log (e : event) : py unit :=
  fun s => ({| self := self s; trace := trace s ++ [e]; rng := rng s |}, Ok tt).
Definition next_draw : py nat :=
  fun s => ({| self := self s; trace := trace s; rng := S (rng s) |}, Ok (rng s)).

Declare Scope py_scope.
Delimit Scope py_scope with py.
Notation "x <- m ;; k" := (bind m (fun x => k))
  (at level 61, m at next level, right associativity) : py_scope.
Notation "' pat <- m ;; k" := (bind m (fun x => match x with pat => k end))
  (at level 61, pat pattern, m at next level, right associativity) : py_scope.
Notation "m ;; k" := (bind m (fun _ => k))
  (at level 61, right associativity) : py_scope.

(** A fresh state around an estimator. *)
Definition start (e : estimator) : state := {| self := e; trace := []; rng := O |}.

(* ================================================================= *)
(** ** The convex objective *)

(** The loss term of the criterion, as a cvxpy expression in the variable
    [beta]. *)
Inductive loss : Type :=
| sum_squares_over_n (X : matrix) (y : vec) (n : Z)
    (* [cp.sum_squares(y - X @ beta) / n] *)
| norm2_over_sqrt_n (X : matrix) (y : vec) (n : Z).
    (* [cp.norm2(y - X @ beta) / cp.sqrt(n)] *)

(** [loss + (lambd / n) * cp.norm1(psi @ beta)] *)
Record objective : Type := {
  obj_loss : loss;
  obj_weight : float;       (* [lambd / n] *)
  obj_psi : matrix
}.

(** The value of an objective at a point [beta] whose length is the number
    of columns of the design matrix. *)
Definition loss_value (l : loss) (beta : vec) : float :=
  match l with
  | sum_squares_over_n X y n =>
      let r := map (fun yr => fst yr - np.dot (snd yr) beta)%float (combine y X) in
      (np.sum (np.sq r) / Z2f n)%float
  | norm2_over_sqrt_n X y n =>
      let r := map (fun yr => fst yr - np.dot (snd yr) beta)%float (combine y X) in
      (PrimFloat.sqrt (np.sum (np.sq r)) / PrimFloat.sqrt (Z2f n))%float
  end.

Definition objective_value (o : objective) (beta : vec) : float :=
  (loss_value (obj_loss o) beta
   + obj_weight o
     * np.sum (np.vabs (map (fun row => np.dot row beta) (obj_psi o))))%float.

(** The status a solve ends with. *)
Inductive status : Type := optimal | infeasible | unbounded | solver_error.

(* ================================================================= *)
(** ** External collaborators *)

Class Oracles : Type := {
  (** [np.log] *)
  np_log : float -> float;
  (** [scipy.stats.norm.ppf]: the standard normal quantile function *)
  norm_ppf : float -> float;
  (** [scipy.stats.pearsonr(x, y)[0]] *)
  pearsonr : vec -> vec -> result float;
  (** [np.linalg.inv] *)
  linalg_inv : matrix -> result matrix;
  (** Building the problem of minimising an objective over a variable of
      length [p] and calling [prob.solve] with the solver options: cvxpy
      raises, or the solve ends with a status and leaves [beta.value],
      which is [None] when the solver found no point. *)
  cvx_solve : objective -> Z -> list (string * pyval) -> result (status * option vec);
  (** [np.quantile(sims, q)] *)
  np_quantile : vec -> float -> result float;
  (** [np.random.normal(size=(n, p))]: the matrix the [k]-th draw returns *)
  random_normal : nat -> Z -> Z -> matrix
}.

(* ================================================================= *)
(** ** Input validation (scikit-learn) *)

(** [check_array(X)]: a 2-d array with at least one row and one column and
    only finite entries. *)
Definition check_array (X : matrix) : result matrix :=
  match X with
  | [] => Raise ValueError
  | row :: _ =>
      if negb (Nat.eqb (length row) 0)
         && forallb (fun r => Nat.eqb (length r) (length row)) X
         && forallb (forallb PrimFloat.is_finite) X
      then Ok X
      else Raise ValueError
  end.

(** [check_X_y(X, y)]: [check_array] on [X], a finite [y] with one entry
    per row of [X]. *)
Definition check_X_y (X : matrix) (y : vec) : result (matrix * vec) :=
  (X <-- check_array X ;;
   if forallb PrimFloat.is_finite y && Nat.eqb (length y) (length X)
   then Ok (X, y)
   else Raise ValueError)%result.

(* ================================================================= *)
(** ** The methods of [RlassoBase], [Rlasso] and [SqrtRlasso] *)

Section Methods.
Context {oracles : Oracles}.
Local Open Scope py_scope.

(** *** Criterion functions *)

(** [Rlasso._criterion_function] *)
Definition Rlasso_criterion_function
           (X : matrix) (y : vec) (lambd : float) (psi : matrix) (n : Z) : objective :=
  {| obj_loss := sum_squares_over_n X y n;
     obj_weight := (lambd / Z2f n)%float;
     obj_psi := psi |}.

(** [SqrtRlasso._criterion_function] *)
Definition SqrtRlasso_criterion_function
           (X : matrix) (y : vec) (lambd : float) (psi : matrix) (n : Z) : objective :=
  {| obj_loss := norm2_over_sqrt_n X y n;
     obj_weight := (lambd / Z2f n)%float;
     obj_psi := psi |}.

(** [self._criterion_function], dispatched on the class of [self]. *)
Definition criterion_function (cls : estimator_class) :=
  match cls with
  | Rlasso => Rlasso_criterion_function
  | SqrtRlasso => SqrtRlasso_criterion_function
  end.

(** *** Ordinary least squares by the normal equations *)

(** [np.linalg.inv(A.T @ A) @ A.T @ y] *)
Definition ols (A : matrix) (y : vec) : result vec :=
  (G <-- np.matmul (np.transpose A) A ;;
   Ginv <-- linalg_inv G ;;
   H <-- np.matmul Ginv (np.transpose A) ;;
   np.matvec H y)%result.

(** *** [RlassoBase._cvxpy_solve] *)

(** The first half: build the problem, solve it, read [beta.value] and
    round the entries below [zero_tol] to zero.  [np.abs(None)] is a
    [TypeError]. *)
Definition cvxpy_solve_rounded
           (X : matrix) (y : vec) (lambd : float) (psi : matrix) (n : Z) : py vec :=
  self <- get_self ;;
  let p := np.ncols X in
  let objective := criterion_function (class_of self) X y lambd psi n in
  log EvSolve ;;
  '(_, value) <- lift (cvx_solve objective p (solver_opts self)) ;;
  match value with
  | None => raise TypeError
  | Some beta => ret (np.zero_below (zero_tol self) beta)
  end.

(** The second half, under [if self.post:]: OLS on the columns of the
    nonzero coefficients, written back at their indices. *)
Definition post_ols_refit (X : matrix) (y : vec) (beta : vec) : py vec :=
  log EvPostOLS ;;
  let nonzero_idx := np.nonzero beta in
  X_sub <- lift (np.take_cols X nonzero_idx) ;;
  post_beta <- lift (ols X_sub y) ;;
  lift (np.set_at nonzero_idx post_beta beta).

(** [RlassoBase._cvxpy_solve(X, y, lambd, psi, n)] *)
Definition RlassoBase_cvxpy_solve
           (X : matrix) (y : vec) (lambd : float) (psi : matrix) (n : Z) : py vec :=
  beta <- cvxpy_solve_rounded X y lambd psi n ;;
  self <- get_self ;;
  if post self then post_ols_refit X y beta else ret beta.

(** *** Penalty loadings *)

(** [Rlasso._penalty_loadings(X, n, resid)] *)
Definition Rlasso_penalty_loadings
           (self : estimator) (X : matrix) (n : Z) (resid : option vec)
  : result matrix :=
  match (cov_type self =? "robust")%string, resid with
  | true, Some resid =>
      (Xe2 <-- np.einsum_ij_i_j (np.msq X) (np.sq resid) ;;
       Ok (np.diag (np.vsqrt (np.vdiv Xe2 (Z2f n)))))%result
  | _, _ =>
      if (cov_type self =? "cluster")%string then Raise NotImplementedError
      else (* homoscedastic/non-robust case *)
        Ok (np.diag (np.vsqrt (np.mean_axis0 (np.msq X))))
  end.

(** [SqrtRlasso._penalty_loadings(X, n, resid=resid)] *)
Definition SqrtRlasso_penalty_loadings
           (self : estimator) (X : matrix) (n : Z) (resid : option vec)
  : result matrix :=
  if (cov_type self =? "nonrobust")%string then
    Ok (np.diag (np.vsqrt (np.mean_axis0 (np.msq X))))
  else
    match (cov_type self =? "robust")%string, resid with
    | true, Some resid =>
        (Xe2 <-- np.einsum_ij_i_j (np.msq X) (np.sq resid) ;;
         let psi_1 := np.vsqrt (np.vdiv Xe2 (Z2f n)) in
         let psi_2 := np.vsqrt (np.vdiv Xe2 (np.sum (np.sq resid))) in
         Ok (np.diag (np.maximum psi_1 psi_2)))%result
    | _, _ => Raise NotImplementedError
    end.

(** *** Penalty level *)

(** [0.1 / np.log(n)] *)
Definition gamma_default (n : Z) : float := (0.1 / np_log (Z2f n))%float.

(** [if self.gamma is None: self.gamma = 0.1 / np.log(n)], then the value
    of [self.gamma]. *)
Definition default_gamma (n : Z) : py float :=
  self <- get_self ;;
  match gamma self with
  | None =>
      let g := gamma_default n in
      update_self (set_gamma (Some g)) ;;
      ret g
  | Some g => ret g
  end.

(** The simulation loop of the x-dependent penalty level:
    [sims[r] = n * np.max(2 * np.abs(np.mean(Xpsi * g, axis=0)))] for
    [n_sim] draws [g]. *)
Fixpoint simulate (n_sim : nat) (n p : Z) (Xpsi : matrix) : py vec :=
  match n_sim with
  | O => ret []
  | S n_sim' =>
      k <- next_draw ;;
      let g := random_normal k n p in
      prod <- lift (np.mmul_elem Xpsi g) ;;
      m <- lift (np.max (np.vscale 2 (np.vabs (np.mean_axis0 prod)))) ;;
      sims <- simulate n_sim' n p Xpsi ;;
      ret ((Z2f n * m)%float :: sims)
  end.

(** [X @ psi] where either operand may be [None]. *)
Definition matmul_opt (X psi : option matrix) : result matrix :=
  match X, psi with
  | Some X, Some psi => np.matmul X psi
  | None, None => Raise TypeError
  | _, _ => Raise ValueError
  end.

(** [Rlasso._penalty_level(n, p, sigma_hat=..., X=..., psi=...)].  The
    division by [2 * p] is numpy's, as it is for every [p] that [fit]
    passes ([p >= 1]) and for every [gamma] the method computed itself. *)
Definition Rlasso_penalty_level
           (n p : Z) (sigma_hat : option float) (X psi : option matrix) : py float :=
  g <- default_gamma n ;;
  self <- get_self ;;
  if x_dependent self then
    (* sims = np.empty(self.n_sim) *)
    (if n_sim self <? 0 then raise ValueError else ret tt) ;;
    Xpsi <- lift (matmul_opt X psi) ;;
    if (cov_type self =? "nonrobust")%string then
      sims <- simulate (Z.to_nat (n_sim self)) n p Xpsi ;;
      match sigma_hat with
      | None => raise TypeError          (* [self.c * None] *)
      | Some sigma_hat =>
          q <- lift (np_quantile sims (1 - g)%float) ;;
          ret (c self * sigma_hat * q)%float
      end
    else
      (* [pass], then [print(lambd)] with [lambd] never assigned *)
      raise UnboundLocalError
  else
    let prob := norm_ppf (1 - g / Z2f (2 * p))%float in
    match (cov_type self =? "nonrobust")%string, sigma_hat with
    | true, Some sigma_hat =>
        ret (2 * c self * sigma_hat * PrimFloat.sqrt (Z2f n) * prob)%float
    | _, _ =>
        ret (2 * c self * PrimFloat.sqrt (Z2f n) * prob)%float
    end.

(** [SqrtRlasso._penalty_level(n, p)], with the same division. *)
Definition SqrtRlasso_penalty_level (n p : Z) : py float :=
  g <- default_gamma n ;;
  self <- get_self ;;
  let prob := norm_ppf (1 - g / Z2f (2 * p))%float in
  if x_dependent self then raise NotImplementedError
  else ret (c self * PrimFloat.sqrt (Z2f n) * prob)%float.

(** [RlassoPenalty.fit], all of it: validation and the default of
    [gamma], on the attributes that class shares with the estimators. *)
Definition RlassoPenalty_fit (X : matrix) (y : vec) : py unit :=
  '(X, y) <- lift (check_X_y X y) ;;
  let n := np.nrows X in
  self <- get_self ;;
  match gamma self with
  | None => update_self (set_gamma (Some (0.1 / PrimFloat.sqrt (Z2f n))%float))
  | Some _ => ret tt
  end.

(** *** The pilot fit *)

(** [r[k] = np.abs(st.pearsonr(X[:, k], y)[0])] for the columns [ks]. *)
Fixpoint correlations (X : matrix) (y : vec) (ks : list nat) : result vec :=
  match ks with
  | [] => Ok []
  | k :: ks' =>
      (rho <-- pearsonr (np.col k X) y ;;
       r <-- correlations X y ks' ;;
       Ok (PrimFloat.abs rho :: r))%result
  end.

(** The columns of the pilot: [np.argsort(r)[-self.n_corr:]]. *)
Definition top_columns (n_corr : Z) (r : vec) : list nat :=
  np.slice_from (- n_corr) (np.argsort r).

(** The opening of [Rlasso._rlasso_algorithm], repeated in the robust
    branch of [SqrtRlasso._rlasso_algorithm]: OLS of [y] on the [n_corr]
    columns most correlated with it; returns [(beta0, resid0)]. *)
Definition pilot_fit (n_corr : Z) (X : matrix) (y : vec) : result (vec * vec) :=
  (let p := np.ncols X in
   r <-- correlations X y (seq 0 (Z.to_nat p)) ;;
   X_top <-- np.take_cols X (top_columns n_corr r) ;;
   beta0 <-- ols X_top y ;;
   fitted <-- np.matvec X_top beta0 ;;
   resid0 <-- np.vsub y fitted ;;
   Ok (beta0, resid0))%result.

Definition pilot (X : matrix) (y : vec) : py (vec * vec) :=
  self <- get_self ;;
  log EvPilotOLS ;;
  lift (pilot_fit (n_corr self) X y).

(** *** [Rlasso._rlasso_algorithm] *)

(** The loop of the nonrobust branch, [iters] iterations left; its state
    is [(beta0, resid0, lambd0, n_iter)]. *)
Fixpoint Rlasso_nonrobust_loop
         (iters : nat) (X : matrix) (y : vec) (n p : Z) (psi : matrix)
         (beta0 resid0 : vec) (lambd0 : float) (n_iter : Z)
  : py (vec * float * Z) :=
  match iters with
  | O => ret (beta0, lambd0, n_iter)
  | S iters' =>
      self <- get_self ;;
      let sigmahat := PrimFloat.sqrt (np.mean (np.sq resid0)) in
      lambd <- (if x_dependent self
                then Rlasso_penalty_level n p (Some sigmahat) (Some X) (Some psi)
                else Rlasso_penalty_level n p (Some sigmahat) None None) ;;
      self <- get_self ;;
      if np.isclose lambd lambd0 (convergence_tol self)
      then ret (beta0, lambd0, n_iter)                               (* break *)
      else
        beta0 <- RlassoBase_cvxpy_solve X y lambd psi n ;;
        fitted <- lift (np.matvec X beta0) ;;
        resid0 <- lift (np.vsub y fitted) ;;
        Rlasso_nonrobust_loop iters' X y n p psi beta0 resid0 lambd (n_iter + 1)
  end.

(** The loop of the robust branch; its state is
    [(beta0, resid0, psi0, n_iter)]. *)
Fixpoint Rlasso_robust_loop
         (iters : nat) (X : matrix) (y : vec) (n : Z) (lambd : float)
         (beta0 resid0 : vec) (psi0 : matrix) (n_iter : Z)
  : py (vec * matrix * Z) :=
  match iters with
  | O => ret (beta0, psi0, n_iter)
  | S iters' =>
      self <- get_self ;;
      psi <- lift (Rlasso_penalty_loadings self X n (Some resid0)) ;;
      if np.allclose psi psi0 (convergence_tol self)
      then ret (beta0, psi0, n_iter)                                 (* break *)
      else
        beta0 <- RlassoBase_cvxpy_solve X y lambd psi n ;;
        fitted <- lift (np.matvec X beta0) ;;
        resid0 <- lift (np.vsub y fitted) ;;
        Rlasso_robust_loop iters' X y n lambd beta0 resid0 psi (n_iter + 1)
  end.

Definition Rlasso_rlasso_algorithm (X : matrix) (y : vec)
  : py (vec * float * matrix) :=
  let n := np.nrows X in
  let p := np.ncols X in
  '(beta0, resid0) <- pilot X y ;;
  self <- get_self ;;
  if (cov_type self =? "nonrobust")%string then
    psi <- lift (Rlasso_penalty_loadings self X n None) ;;
    '(beta0, lambd0, _) <-
      Rlasso_nonrobust_loop (Z.to_nat (max_iter self)) X y n p psi
                            beta0 resid0 0%float 0 ;;
    ret (beta0, lambd0, psi)
  else
    lambd <- Rlasso_penalty_level n p None None None ;;
    let psi0 := np.diag (np.ones p) in
    self <- get_self ;;
    '(beta0, psi0, _) <-
      Rlasso_robust_loop (Z.to_nat (max_iter self)) X y n lambd
                         beta0 resid0 psi0 0 ;;
    ret (beta0, lambd, psi0).

(** *** [SqrtRlasso._rlasso_algorithm] *)

(** [self.n_iter_ += 1] *)
Definition incr_n_iter_ : py unit :=
  self <- get_self ;;
  match n_iter_ self with
  | Some (Some k) => update_self (set_n_iter_ (Some (k + 1)))
  | Some None => raise TypeError
  | None => raise AttributeError
  end.

Fixpoint SqrtRlasso_robust_loop
         (iters : nat) (X : matrix) (y : vec) (n : Z) (lambd : float)
         (beta0 resid0 : vec) (psi0 : matrix)
  : py (vec * matrix) :=
  match iters with
  | O => ret (beta0, psi0)
  | S iters' =>
      self <- get_self ;;
      psi <- lift (SqrtRlasso_penalty_loadings self X n (Some resid0)) ;;
      if np.allclose psi psi0 (convergence_tol self)
      then ret (beta0, psi0)                                         (* break *)
      else
        beta0 <- RlassoBase_cvxpy_solve X y lambd psi n ;;
        fitted <- lift (np.matvec X beta0) ;;
        resid0 <- lift (np.vsub y fitted) ;;
        incr_n_iter_ ;;
        SqrtRlasso_robust_loop iters' X y n lambd beta0 resid0 psi
  end.

Definition SqrtRlasso_rlasso_algorithm (X : matrix) (y : vec)
  : py (vec * float * matrix) :=
  let n := np.nrows X in
  let p := np.ncols X in
  self <- get_self ;;
  if (cov_type self =? "nonrobust")%string then
    update_self (set_n_iter_ None) ;;
    lambd <- SqrtRlasso_penalty_level n p ;;
    self <- get_self ;;
    psi <- lift (SqrtRlasso_penalty_loadings self X n None) ;;
    beta <- RlassoBase_cvxpy_solve X y lambd psi n ;;
    ret (beta, lambd, psi)
  else
    '(beta0, resid0) <- pilot X y ;;
    update_self (set_n_iter_ (Some 0)) ;;
    lambd <- SqrtRlasso_penalty_level n p ;;
    let psi0 := np.diag (np.ones p) in
    self <- get_self ;;
    '(beta0, psi0) <-
      SqrtRlasso_robust_loop (Z.to_nat (max_iter self)) X y n lambd
                             beta0 resid0 psi0 ;;
    ret (beta0, lambd, psi0).

(** *** [RlassoBase.fit] and [RlassoBase.predict] *)

(** [self._rlasso_algorithm], dispatched on the class of [self]. *)
Definition rlasso_algorithm (cls : estimator_class) :=
  match cls with
  | Rlasso => Rlasso_rlasso_algorithm
  | SqrtRlasso => SqrtRlasso_rlasso_algorithm
  end.

(** [X - X.mean(axis=0)] and [y - y.mean()] *)
Definition center_columns (X : matrix) : matrix :=
  let means := np.mean_axis0 X in
  map (fun row => map (fun xm => fst xm - snd xm)%float (combine row means)) X.
Definition center (y : vec) : vec :=
  let m := np.mean y in map (fun v => v - m)%float y.

Definition fit (X : matrix) (y : vec) : py unit :=
  '(X, y) <- lift (check_X_y X y) ;;
  self <- get_self ;;
  let X' := if fit_intercept self then center_columns X else X in
  let y' := if fit_intercept self then center y else y in
  '(beta, lambd, psi) <- rlasso_algorithm (class_of self) X' y' ;;
  update_self (set_fitted beta lambd psi).

Definition predict (X : matrix) : py vec :=
  self <- get_self ;;
  match coef_ self with
  | None => raise NotFittedError                  (* check_is_fitted *)
  | Some coef =>
      X <- lift (check_array X) ;;
      pred <- lift (np.matvec X coef) ;;
      if fit_intercept self then
        match intercept_ self with
        | None => raise AttributeError            (* self.intercept_ *)
        | Some b => ret (map (fun v => v + b)%float pred)
        end
      else ret pred
  end.
End Methods.

(* ================================================================= *)
(** ** The class [RlassoPenalty] *)

(** How a call of a method that contains an [assert] ends: as [result]
    has it, or with the [AssertionError] of the failed [assert]. *)
Inductive outcome (A : Type) : Type :=
| Finished (r : result A)
| AssertionError.
Arguments Finished {A} r.
Arguments AssertionError {A}.

Definition finished {A} (m : py A) : state -> state * outcome A :=
  fun s => (fst (m s), Finished (snd (m s))).

(** The class has the parameters of the estimators and a [sqrt] flag for
    the loss; it neither inherits from [RlassoBase] nor is used by it.  Its
    methods read the attributes of their own object, written [self] below;
    [_penalty] draws from numpy's global generator, and so runs in the
    program state. *)
Module RlassoPenalty.

(** The attributes [__init__] assigns. *)
Record object : Type := {
  post : bool;
  sqrt : bool;
  fit_intercept : bool;
  cov_type : string;
  x_dependent : bool;
  n_corr : Z;
  max_iter : Z;
  n_sim : Z;
  c : float;
  gamma : option float;
  zero_tol : float;
  convergence_tol : float;
  solver_opts : list (string * pyval)
}.

(** [self.gamma = g] *)
Definition set_gamma (g : option float) (self : object) : object :=
  {| post := post self; sqrt := sqrt self; fit_intercept := fit_intercept self;
     cov_type := cov_type self; x_dependent := x_dependent self;
     n_corr := n_corr self; max_iter := max_iter self; n_sim := n_sim self;
     c := c self; gamma := g; zero_tol := zero_tol self;
     convergence_tol := convergence_tol self; solver_opts := solver_opts self |}.

(** [RlassoPenalty(...)], keyword arguments only. *)
Definition init (kwargs : list (string * pyval)) : result object :=
  if negb (forallb (fun kv => existsb (String.eqb (fst kv)) penalty_init_params) kwargs)
  then Raise TypeError
  else
    (post <-- arg "post" kwargs true as_bool ;;
     sqrt <-- arg "sqrt" kwargs false as_bool ;;
     fit_intercept <-- arg "fit_intercept" kwargs true as_bool ;;
     cov_type <-- arg "cov_type" kwargs "nonrobust" as_str ;;
     x_dependent <-- arg "x_dependent" kwargs false as_bool ;;
     n_corr <-- arg "n_corr" kwargs 5 as_int ;;
     max_iter <-- arg "max_iter" kwargs 2 as_int ;;
     n_sim <-- arg "n_sim" kwargs 5000 as_int ;;
     c <-- arg "c" kwargs 1.1%float as_float ;;
     gamma <-- arg "gamma" kwargs None as_opt_float ;;
     zero_tol <-- arg "zero_tol" kwargs 1e-4%float as_float ;;
     convergence_tol <-- arg "convergence_tol" kwargs 1e-4%float as_float ;;
     solver_opts <-- arg "solver_opts" kwargs [] as_opts ;;
     Ok {| post := post; sqrt := sqrt; fit_intercept := fit_intercept;
           cov_type := cov_type; x_dependent := x_dependent; n_corr := n_corr;
           max_iter := max_iter; n_sim := n_sim; c := c; gamma := gamma;
           zero_tol := zero_tol; convergence_tol := convergence_tol;
           solver_opts := solver_opts |})%result.

(** [RlassoPenalty._loadings(X, resid, n)] *)
Definition _loadings (self : object) (X : matrix) (resid : option vec) (n : Z)
  : result matrix :=
  if sqrt self then
    if (cov_type self =? "nonrobust")%string then
      Ok (np.diag (np.vsqrt (np.mean_axis0 (np.msq X))))
    else
      match (cov_type self =? "robust")%string, resid with
      | true, Some resid =>
          (Xe2 <-- np.einsum_ij_i_j (np.msq X) (np.sq resid) ;;
           let psi_1 := np.vsqrt (np.vdiv Xe2 (Z2f n)) in
           let psi_2 := np.vsqrt (np.vdiv Xe2 (np.sum (np.sq resid))) in
           Ok (np.diag (np.maximum psi_1 psi_2)))%result
      | _, _ => Raise NotImplementedError
      end
  else
    if (cov_type self =? "nonrobust")%string then
      Ok (np.diag (np.vsqrt (np.mean_axis0 (np.msq X))))
    else
      match (cov_type self =? "robust")%string, resid with
      | true, Some resid =>
          (Xe2 <-- np.einsum_ij_i_j (np.msq X) (np.sq resid) ;;
           Ok (np.diag (np.vsqrt (np.vdiv Xe2 (Z2f n)))))%result
      | _, _ => Raise NotImplementedError
      end.

Section WithOracles.
Context {oracles : Oracles}.
Local Open Scope py_scope.

(** The simulation both x-dependent branches of [_penalty] open with:
    [sims = np.empty(self.n_sim)], [Xpsi = X @ psi], then the loop. *)
Definition simulated (self : object) (n p : Z) (X psi : option matrix) : py vec :=
  (if n_sim self <? 0 then raise ValueError else ret tt) ;;
  Xpsi <- lift (matmul_opt X psi) ;;
  simulate (Z.to_nat (n_sim self)) n p Xpsi.

(** [st.norm.ppf(1 - (self.gamma / (2 * p)))]; dividing [None] is a
    [TypeError].  The division is the float division, which is what
    Python and numpy both do for [p <> 0]; for [p = 0] a [gamma] that is a
    Python float raises [ZeroDivisionError] where one that [fit] computed
    (a numpy float) does not, and the object does not record which it
    holds: what is stated about the value of this quotient is stated for
    [0 < p]. *)
Definition proba (self : object) (p : Z) : py float :=
  match gamma self with
  | None => raise TypeError
  | Some g => ret (norm_ppf (1 - g / Z2f (2 * p))%float)
  end.

(** [RlassoPenalty._penalty(n, p, sigma_hat=..., X=..., psi=...)].  The
    local [lambd] is assigned in three of the branches only; where it is
    not, [return lambd] is an [UnboundLocalError]. *)
Definition _penalty (self : object) (n p : Z)
           (sigma_hat : option float) (X psi : option matrix)
  : state -> state * outcome float :=
  if sqrt self then
    finished (raise UnboundLocalError)                        (* [pass] *)
  else if (cov_type self =? "nonrobust")%string && negb (x_dependent self) then
    match sigma_hat with
    | None => fun s => (s, AssertionError)
    | Some sigma_hat =>
        finished (proba <- proba self p ;;
                  ret (2 * c self * sigma_hat * PrimFloat.sqrt (Z2f n) * proba)%float)
    end
  else if (cov_type self =? "nonrobust")%string && x_dependent self then
    finished (sims <- simulated self n p X psi ;;
              match sigma_hat, gamma self with
              | Some sigma_hat, Some g =>
                  q <- lift (np_quantile sims (1 - g)%float) ;;
                  ret (c self * sigma_hat * q)%float
              | _, _ => raise TypeError      (* [self.c * None], [1 - None] *)
              end)
  else if ((cov_type self =? "robust")%string || (cov_type self =? "cluster")%string)
          && negb (x_dependent self) then
    finished (proba <- proba self p ;;
              ret (2 * c self * PrimFloat.sqrt (Z2f n) * proba)%float)
  else if (cov_type self =? "robust")%string && x_dependent self then
    finished (simulated self n p X psi ;;
              raise UnboundLocalError)
  else
    finished (raise UnboundLocalError).

(** [RlassoPenalty._post_ols(beta, X, y)], a static method: the refit of
    [RlassoBase._cvxpy_solve] on its own. *)
Definition _post_ols (beta : vec) (X : matrix) (y : vec) : result vec :=
  (let nonzero_idx := np.nonzero beta in
   X_sub <-- np.take_cols X nonzero_idx ;;
   post_beta <-- ols X_sub y ;;
   np.set_at nonzero_idx post_beta beta)%result.
End WithOracles.

(** [RlassoPenalty.fit(X, y)]: the object after the call and how the call
    ended. *)
Definition fit (self : object) (X : matrix) (y : vec) : object * result unit :=
  match check_X_y X y with
  | Raise e => (self, Raise e)
  | Ok (X, y) =>
      let n := np.nrows X in
      match gamma self with
      | None => (set_gamma (Some (0.1 / PrimFloat.sqrt (Z2f n))%float) self, Ok tt)
      | Some _ => (self, Ok tt)
      end
  end.
End RlassoPenalty.

(* ================================================================= *)
(** ** A worked example: one regressor, four observations *)

Module Example.
Local Open Scope float_scope.

(** [np.log] and [norm.ppf] at the arguments the examples reach (values
    rounded to binary64); NaN elsewhere. *)
Definition log_table (x : float) : float :=
  if x =? 4 then 1.3862943611198906
  else if x =? 100 then 4.605170185988092
  else nan.
Definition ppf_table (q : float) : float :=
  if q =? 0.9639326239777759 then 1.7982667129626728
  else if q =? 0.981966311988888 then 2.0961670359997577
  else if q =? 0.9999782852759048 then 4.08843431385528
  else nan.

(** The sample correlation coefficient. *)
Definition pearson (x y : vec) : result float :=
  if negb (Nat.eqb (length x) (length y)) || Nat.ltb (length x) 2
  then Raise ValueError
  else
    let mx := np.mean x in
    let my := np.mean y in
    let xm := map (fun v => v - mx) x in
    let ym := map (fun v => v - my) y in
    Ok (np.dot xm ym / (PrimFloat.sqrt (np.dot xm xm) * PrimFloat.sqrt (np.dot ym ym))).

(** The inverse of a matrix with at most two rows. *)
Definition inv_small (A : matrix) : result matrix :=
  match A with
  | [] => Ok []
  | [[a]] => if a =? 0 then Raise LinAlgError else Ok [[1 / a]]
  | [[a; b]; [c; d]] =>
      let det := a * d - b * c in
      if det =? 0 then Raise LinAlgError
      else Ok [[d / det; - b / det]; [- c / det; a / det]]
  | _ => Raise LinAlgError
  end.

(** A lasso solver for the squared loss: cyclic coordinate descent from
    zero, each coordinate set to the soft-thresholded partial correlation.
    The penalty on coefficient [j] is [lambd / n * |psi[j, j]|]. *)
Definition soft (rho t : float) : float :=
  if t <? rho then rho - t else if rho <? - t then rho + t else 0.
Definition cd_update (X : matrix) (y : vec) (t : vec) (b : vec) (j : nat) : vec :=
  let xj := np.col j X in
  let bj := nth j b 0 in
  let partial :=
    map (fun yr => fst yr - np.dot (snd yr) b + nth j (snd yr) 0 * bj) (combine y X) in
  np.set_nth j (soft (np.dot xj partial) (nth j t 0) / np.dot xj xj) b.
Fixpoint cd_sweeps (k : nat) (X : matrix) (y : vec) (t : vec) (b : vec) : vec :=
  match k with
  | O => b
  | S k' => cd_sweeps k' X y t (fold_left (cd_update X y t) (seq 0 (length b)) b)
  end.
Definition lasso_cd (o : objective) (p : Z) (opts : list (string * pyval))
  : result (status * option vec) :=
  match obj_loss o with
  | sum_squares_over_n X y n =>
      let t := map (fun j => Z2f n * obj_weight o
                             * PrimFloat.abs (nth j (nth j (obj_psi o) []) 0) / 2)
                   (seq 0 (Z.to_nat p)) in
      Ok (optimal, Some (cd_sweeps 50 X y t (repeat 0 (Z.to_nat p))))
  | norm2_over_sqrt_n _ _ _ => Raise SolverError
  end.


(** A solver that ends [optimal] on a vector with entries near zero. *)
Definition near_zero_solver (o : objective) (p : Z) (opts : list (string * pyval))
  : result (status * option vec) :=
  Ok (optimal, Some [5e-5; -2e-5; 0.5; -1e-4]).

(** No example reaches the simulation of the x-dependent penalty: the
    quantile and the generator are stand-ins. *)
Definition oracles_with
           (solve : objective -> Z -> list (string * pyval) -> result (status * option vec))
  : Oracles :=
  {| np_log := log_table;
     norm_ppf := ppf_table;
     pearsonr := pearson;
     linalg_inv := inv_small;
     cvx_solve := solve;
     np_quantile := fun sims _ => np.max sims;
     random_normal := fun _ n p => repeat (repeat 0 (Z.to_nat p)) (Z.to_nat n) |}.

Definition oracles : Oracles := oracles_with lasso_cd.
Definition oracles_near_zero : Oracles := oracles_with near_zero_solver.

(** Four observations of one regressor, and of two. *)
Definition X : matrix := [[1]; [2]; [3]; [4]].
Definition y : vec := [2; 1; 4; 3].
Definition X2 : matrix := [[1; 1]; [2; -1]; [3; 1]; [4; -1]].
Definition y2 : vec := [1.8; 1.2; 2.8; 4.2].

(** The estimator a call of the class with keyword arguments constructs;
    the default one where the call raises. *)
Definition default_estimator (cls : estimator_class) : estimator :=
  {| class_of := cls; fit_intercept := true; post := true;
     cov_type := "nonrobust"; x_dependent := false; n_corr := 5;
     max_iter := 2; n_sim := 5000; c := 1.1; gamma := None;
     zero_tol := 1e-4; convergence_tol := 1e-4; solver_opts := [];
     coef_ := None; lambd_ := None; psi_ := None; intercept_ := None;
     n_iter_ := None |}.
Definition construct (cls : estimator_class) (kwargs : list (string * pyval))
  : estimator :=
  match RlassoBase_init cls kwargs with
  | Ok e => e
  | Raise _ => default_estimator cls
  end.
Definition rlasso : list (string * pyval) -> estimator := construct Rlasso.
Definition sqrt_rlasso : list (string * pyval) -> estimator := construct SqrtRlasso.
End Example.

(** An object of [RlassoPenalty], and a quantile table that also has the
    argument its default [gamma] leads to for four observations of one
    regressor. *)
Module PenaltyExample.
Local Open Scope float_scope.

Definition ppf_table (q : float) : float :=
  if q =? 0.975 then 1.959963984540054 else Example.ppf_table q.

Definition oracles : Oracles :=
  {| np_log := Example.log_table;
     norm_ppf := ppf_table;
     pearsonr := Example.pearson;
     linalg_inv := Example.inv_small;
     cvx_solve := Example.lasso_cd;
     np_quantile := @np_quantile Example.oracles;
     random_normal := @random_normal Example.oracles |}.

Definition default_object : RlassoPenalty.object :=
  {| RlassoPenalty.post := true; RlassoPenalty.sqrt := false;
     RlassoPenalty.fit_intercept := true; RlassoPenalty.cov_type := "nonrobust";
     RlassoPenalty.x_dependent := false; RlassoPenalty.n_corr := 5;
     RlassoPenalty.max_iter := 2; RlassoPenalty.n_sim := 5000;
     RlassoPenalty.c := 1.1; RlassoPenalty.gamma := None;
     RlassoPenalty.zero_tol := 1e-4; RlassoPenalty.convergence_tol := 1e-4;
     RlassoPenalty.solver_opts := [] |}.

(** The object a call of the class constructs; the default one where the
    call raises. *)
Definition penalty (kwargs : list (string * pyval)) : RlassoPenalty.object :=
  match RlassoPenalty.init kwargs with
  | Ok o => o
  | Raise _ => default_object
  end.

(** A design with a column of zeros: its cross product has no inverse. *)
Definition X0 : matrix := [[1; 0]; [2; 0]; [3; 0]; [4; 0]].
End PenaltyExample.

(** A solver that also takes the unsquared loss, to run the square-root
    estimator. *)
Module SqrtExample.
Local Open Scope float_scope.

(** Cyclic coordinate descent for the square-root lasso.  In coordinate
    [j], with the partial residual [r], [a = x_j . x_j] and
    [rho = x_j . r], the criterion is
    [sqrt(r . r - rho^2 / a + a (b - rho / a)^2) / sqrt(n) + t_j |b|]:
    its minimiser is zero when [|rho| <= t_j sqrt(n) |r|], and else
    [rho / a] moved towards zero by
    [t_j sqrt(n (r . r - rho^2 / a) / (a (a - t_j^2 n)))]. *)
Definition sqrt_cd_update
           (X : matrix) (y : vec) (n : float) (t : vec) (b : vec) (j : nat) : vec :=
  let xj := np.col j X in
  let bj := nth j b 0 in
  let partial :=
    map (fun yr => fst yr - np.dot (snd yr) b + nth j (snd yr) 0 * bj) (combine y X) in
  let a := np.dot xj xj in
  let rho := np.dot xj partial in
  let rr := np.dot partial partial in
  let tj := nth j t 0 in
  let new :=
    if PrimFloat.abs rho <=? tj * PrimFloat.sqrt n * PrimFloat.sqrt rr then 0
    else
      let d :=
        tj * PrimFloat.sqrt (n * (rr - rho * rho / a) / (a * (a - tj * tj * n))) in
      if 0 <? rho then rho / a - d else rho / a + d in
  np.set_nth j new b.
Fixpoint sqrt_cd_sweeps
         (k : nat) (X : matrix) (y : vec) (n : float) (t : vec) (b : vec) : vec :=
  match k with
  | O => b
  | S k' =>
      sqrt_cd_sweeps k' X y n t
                     (fold_left (sqrt_cd_update X y n t) (seq 0 (length b)) b)
  end.

(** The penalty on coefficient [j] is [lambd / n * |psi[j, j]|]. *)
Definition solver (o : objective) (p : Z) (opts : list (string * pyval))
  : result (status * option vec) :=
  match obj_loss o with
  | norm2_over_sqrt_n X y n =>
      let t := map (fun j => obj_weight o * PrimFloat.abs (nth j (nth j (obj_psi o) []) 0))
                   (seq 0 (Z.to_nat p)) in
      Ok (optimal, Some (sqrt_cd_sweeps 50 X y (Z2f n) t (repeat 0 (Z.to_nat p))))
  | sum_squares_over_n _ _ _ => Example.lasso_cd o p opts
  end.

Definition oracles : Oracles := Example.oracles_with solver.
End SqrtExample.

(* ================================================================= *)
(** ** Predicates used in the statements *)

(** [m] keeps the relation [R] between the state before and the state
    after. *)
Definition keeps (R : state -> state -> Prop) {A} (m : py A) : Prop :=
  forall s, R s (fst (m s)).

(** [m] keeps [R] unless it raises an exception of [E]. *)
Definition keeps_unless (E : exn -> Prop) (R : state -> state -> Prop)
           {A} (m : py A) : Prop :=
  forall s, R s (fst (m s)) \/ exists e, snd (m s) = Raise e /\ E e.

Definition never (e : exn) : Prop := False.

(** What a method may change on the estimator: nothing of what
    [__init__] assigned, except that a [gamma] left at [None] may become
    [g0]; [intercept_] stays as it is. *)
Definition evolves (g0 : float) (s s' : state) : Prop :=
  let e := self s in
  let e' := self s' in
  class_of e' = class_of e /\ fit_intercept e' = fit_intercept e /\
  post e' = post e /\ cov_type e' = cov_type e /\
  x_dependent e' = x_dependent e /\ n_corr e' = n_corr e /\
  max_iter e' = max_iter e /\ n_sim e' = n_sim e /\ c e' = c e /\
  zero_tol e' = zero_tol e /\ convergence_tol e' = convergence_tol e /\
  solver_opts e' = solver_opts e /\ intercept_ e' = intercept_ e /\
  match gamma e with
  | Some g => gamma e' = Some g
  | None => gamma e' = None \/ gamma e' = Some g0
  end.

(** The number of solves in a log, and the states between which no solve
    ran. *)
Fixpoint solves (t : list event) : nat :=
  match t with
  | [] => O
  | EvSolve :: t' => S (solves t')
  | _ :: t' => solves t'
  end.

(** What one call of [_cvxpy_solve] logs, and [k] calls in a row: with
    [post] set each solve is followed at once by its refit. *)
Definition round (post : bool) : list event :=
  if post then [EvSolve; EvPostOLS] else [EvSolve].
Definition rounds (post : bool) (k : nat) : list event :=
  concat (repeat (round post) k).
Definition solve_refit_rounds (k : nat) : list event := rounds true k.

(** The estimators that fit with one solve and no pilot: [SqrtRlasso] with
    the nonrobust covariance type. *)
Definition single_solve (e : estimator) : bool :=
  match class_of e with
  | Rlasso => false
  | SqrtRlasso => (cov_type e =? "nonrobust")%string
  end.


(** A matrix all of whose rows have [k] entries. *)
Definition rows_of_length (k : nat) (A : matrix) : Prop :=
  Forall (fun row => length row = k) A.

(** An inverse that has the shape of its argument, as [np.linalg.inv] has
    wherever it returns. *)
Definition inv_keeps_shape (O : Oracles) : Prop :=
  forall G Ginv,
    @linalg_inv O G = Ok Ginv ->
    length Ginv = length G /\ rows_of_length (length G) Ginv.

(** A solver that returns, where it returns a value, one entry per
    variable of the problem, as [beta.value] has for [cp.Variable(p)]. *)
Definition solver_keeps_shape (O : Oracles) : Prop :=
  forall o p opts st beta,
    @cvx_solve O o p opts = Ok (st, Some beta) -> length beta = Z.to_nat p.

(** Between two states: with [x_dependent] off it stays off, and nothing
    was drawn from the random generator. *)
Definition draws_nothing (s s' : state) : Prop :=
  x_dependent (self s) = false ->
  x_dependent (self s') = false /\ rng s' = rng s.

(** The fitted attributes are as they were. *)
Definition same_fit (s s' : state) : Prop :=
  coef_ (self s') = coef_ (self s) /\ lambd_ (self s') = lambd_ (self s)
  /\ psi_ (self s') = psi_ (self s).

(** The value of [self.gamma] once a penalty level was computed for [n]
    observations. *)
Definition gamma_used {oracles : Oracles} (e : estimator) (n : Z) : float :=
  match gamma e with
  | Some g => g
  | None => gamma_default n
  end.

(** An estimator and an object of [RlassoPenalty] with the same settings
    for the penalty level. *)
Definition same_settings (e : estimator) (o : RlassoPenalty.object) : Prop :=
  cov_type e = RlassoPenalty.cov_type o
  /\ x_dependent e = RlassoPenalty.x_dependent o
  /\ n_sim e = RlassoPenalty.n_sim o
  /\ c e = RlassoPenalty.c o
  /\ gamma e = RlassoPenalty.gamma o.

(* ================================================================= *)
(** * Reasoning about [py] computations *)

Lemma bind_ok {A B} (m : py A) (k : A -> py B) s s' a :
  m s = (s', Ok a) -> bind m k s = k a s'.
Proof. intros H. unfold bind. now rewrite H. Qed.

Lemma bind_raise {A B} (m : py A) (k : A -> py B) s s' e :
  m s = (s', Raise e) -> bind m k s = (s', Raise e).
Proof. intros H. unfold bind. now rewrite H. Qed.

(** A computation that returns went through both halves of a [bind]. *)
Lemma bind_inv_ok {A B} (m : py A) (k : A -> py B) s s'' b :
  bind m k s = (s'', Ok b) ->
  exists a s', m s = (s', Ok a) /\ k a s' = (s'', Ok b).
Proof.
  unfold bind. destruct (m s) as [s' [a | e]]; intros H.
  - now exists a, s'.
  - discriminate.
Qed.

Lemma lift_inv_ok {A} (r : result A) s s' a :
  lift r s = (s', Ok a) -> s' = s /\ r = Ok a.
Proof. unfold lift. intros H. now inversion H. Qed.

Lemma rbind_inv_ok {A B} (r : result A) (k : A -> result B) b :
  rbind r k = Ok b -> exists a, r = Ok a /\ k a = Ok b.
Proof. destruct r as [a | e]; simpl; intros H; [now exists a | discriminate]. Qed.

Lemma keeps_unless_never R {A} (m : py A) : keeps_unless never R m -> keeps R m.
Proof. intros H s. destruct (H s) as [HR | (e & _ & [])]. exact HR. Qed.

(** ** Relations every step of a computation keeps *)

Section Keeps.
Variable E : exn -> Prop.
Variable R : state -> state -> Prop.
Hypothesis R_refl : forall s, R s s.
Hypothesis R_trans : forall s1 s2 s3, R s1 s2 -> R s2 s3 -> R s1 s3.

Lemma ku_ret {A} (a : A) : keeps_unless E R (ret a).
Proof. intros s. left. apply R_refl. Qed.

Lemma ku_raise {A} (e : exn) : keeps_unless E R (@raise A e).
Proof. intros s. left. apply R_refl. Qed.

Lemma ku_lift {A} (r : result A) : keeps_unless E R (lift r).
Proof. intros s. left. apply R_refl. Qed.

Lemma ku_get_self : keeps_unless E R get_self.
Proof. intros s. left. apply R_refl. Qed.

Lemma ku_bind {A B} (m : py A) (k : A -> py B) :
  keeps_unless E R m -> (forall a, keeps_unless E R (k a)) ->
  keeps_unless E R (bind m k).
Proof.
  intros Hm Hk s. unfold bind. specialize (Hm s).
  destruct (m s) as [s' [a | e]]; simpl in *.
  - destruct Hm as [Hm | (e & He & _)]; [| discriminate].
    destruct (Hk a s') as [Hk' | Hk']; [left | right; exact Hk'].
    eapply R_trans; [exact Hm | exact Hk'].
  - destruct Hm as [Hm | (e' & He & HE)]; [now left |].
    right. exists e'. split; [| exact HE]. now inversion He.
Qed.

(** After a pure step the continuation runs on its value only. *)
Lemma ku_bind_lift {A B} (r : result A) (k : A -> py B) :
  (forall a, r = Ok a -> keeps_unless E R (k a)) ->
  keeps_unless E R (bind (lift r) k).
Proof.
  intros Hk s. unfold bind, lift. destruct r as [a | e]; simpl.
  - now apply Hk.
  - left. apply R_refl.
Qed.
End Keeps.

(** One step of the proof that a computation keeps a relation: split a
    [bind], close a leaf, or branch on what the code branches on. *)
Ltac keeps_step :=
  first
    [ assumption
    | apply ku_ret; assumption
    | apply ku_raise; assumption
    | apply ku_lift; assumption
    | apply ku_get_self; assumption
    | apply ku_bind; [ assumption | | intros ]
    | match goal with
      | |- keeps_unless _ _ (match ?x with _ => _ end) => destruct x
      end ].

(** ** Validation and centering *)

Lemma check_array_ok X Xv : check_array X = Ok Xv -> Xv = X.
Proof.
  unfold check_array. destruct X as [| row X']; [discriminate |].
  destruct (_ && _); intros H; now inversion H.
Qed.

Lemma check_X_y_ok X y Xv yv : check_X_y X y = Ok (Xv, yv) -> Xv = X /\ yv = y.
Proof.
  unfold check_X_y. intros H.
  apply rbind_inv_ok in H as (X1 & HX & H).
  apply check_array_ok in HX as ->.
  destruct (_ && _); [now inversion H | discriminate].
Qed.

Lemma nrows_center_columns X : np.nrows (center_columns X) = np.nrows X.
Proof. unfold np.nrows, center_columns. now rewrite length_map. Qed.

Create HintDb keeps discriminated.

Ltac keeps_leaf := solve [ eauto 3 with keeps ].
Ltac keeps_go := repeat first [ keeps_leaf | keeps_step ].

(** ** Every method keeps what its primitive steps keep *)

Section KeepsMethods.
Context {oracles : Oracles}.
Variable E : exn -> Prop.
Variable R : state -> state -> Prop.
Hypothesis R_refl : forall s, R s s.
Hypothesis R_trans : forall s1 s2 s3, R s1 s2 -> R s2 s3 -> R s1 s3.
Hypothesis R_pilot : keeps_unless E R (log EvPilotOLS).
Hypothesis R_post : keeps_unless E R (log EvPostOLS).
Hypothesis R_draw : keeps_unless E R next_draw.
Hypothesis R_n_iter : forall k, keeps_unless E R (update_self (set_n_iter_ k)).
Hypothesis R_fitted :
  forall b l p, keeps_unless E R (update_self (set_fitted b l p)).
Hypothesis R_solve :
  forall X y lambd psi n, keeps_unless E R (cvxpy_solve_rounded X y lambd psi n).
(** [n0] is the number of rows of the design matrix. *)
Variable n0 : Z.
Hypothesis R_gamma : keeps_unless E R (default_gamma n0).

Lemma ku_simulate k n p Xpsi : keeps_unless E R (simulate k n p Xpsi).
Proof. induction k as [| k IH]; simpl; keeps_go. Qed.
Hint Resolve ku_simulate : keeps.

Lemma ku_Rlasso_penalty_level p sigma_hat X psi :
  keeps_unless E R (Rlasso_penalty_level n0 p sigma_hat X psi).
Proof. unfold Rlasso_penalty_level. keeps_go. Qed.

Lemma ku_SqrtRlasso_penalty_level p :
  keeps_unless E R (SqrtRlasso_penalty_level n0 p).
Proof. unfold SqrtRlasso_penalty_level. keeps_go. Qed.

Lemma ku_cvxpy_solve X y lambd psi n :
  keeps_unless E R (RlassoBase_cvxpy_solve X y lambd psi n).
Proof. unfold RlassoBase_cvxpy_solve, post_ols_refit. keeps_go. Qed.

Lemma ku_pilot X y : keeps_unless E R (pilot X y).
Proof. unfold pilot. keeps_go. Qed.

Lemma ku_incr_n_iter_ : keeps_unless E R incr_n_iter_.
Proof. unfold incr_n_iter_. keeps_go. Qed.

Hint Resolve ku_Rlasso_penalty_level ku_SqrtRlasso_penalty_level
     ku_cvxpy_solve ku_pilot ku_incr_n_iter_ : keeps.

Lemma ku_Rlasso_nonrobust_loop iters X y p psi :
  forall beta0 resid0 lambd0 n_iter,
    keeps_unless E R
      (Rlasso_nonrobust_loop iters X y n0 p psi beta0 resid0 lambd0 n_iter).
Proof. induction iters as [| iters IH]; intros; simpl; keeps_go. Qed.

Lemma ku_Rlasso_robust_loop iters X y lambd :
  forall beta0 resid0 psi0 n_iter,
    keeps_unless E R
      (Rlasso_robust_loop iters X y n0 lambd beta0 resid0 psi0 n_iter).
Proof. induction iters as [| iters IH]; intros; simpl; keeps_go. Qed.

Lemma ku_SqrtRlasso_robust_loop iters X y lambd :
  forall beta0 resid0 psi0,
    keeps_unless E R
      (SqrtRlasso_robust_loop iters X y n0 lambd beta0 resid0 psi0).
Proof. induction iters as [| iters IH]; intros; simpl; keeps_go. Qed.

Hint Resolve ku_Rlasso_nonrobust_loop ku_Rlasso_robust_loop
     ku_SqrtRlasso_robust_loop : keeps.

Lemma ku_rlasso_algorithm cls X y :
  np.nrows X = n0 -> keeps_unless E R (rlasso_algorithm cls X y).
Proof.
  intros Hn. destruct cls; simpl;
    unfold Rlasso_rlasso_algorithm, SqrtRlasso_rlasso_algorithm;
    rewrite Hn; keeps_go.
Qed.

Lemma ku_fit X y : np.nrows X = n0 -> keeps_unless E R (fit X y).
Proof.
  intros Hn. unfold fit.
  apply ku_bind_lift; [assumption |].
  intros [Xv yv] Hcheck. apply check_X_y_ok in Hcheck as [-> ->].
  apply ku_bind; [assumption | keeps_go | intros e].
  apply ku_bind; [assumption | | intros [[beta lambd] psi]; keeps_go].
  apply ku_rlasso_algorithm.
  destruct (fit_intercept e); [rewrite nrows_center_columns |]; exact Hn.
Qed.
End KeepsMethods.

(** ** What fitting leaves untouched *)

Section Evolves.
Context {oracles : Oracles}.

Lemma evolves_refl g0 s : evolves g0 s s.
Proof. unfold evolves. destruct (gamma (self s)); intuition congruence. Qed.

Lemma evolves_trans g0 s1 s2 s3 :
  evolves g0 s1 s2 -> evolves g0 s2 s3 -> evolves g0 s1 s3.
Proof.
  unfold evolves. intros H1 H2.
  destruct (gamma (self s1)), (gamma (self s2)) eqn:G2;
    intuition (try congruence).
Qed.

Lemma evolves_log g0 e : keeps_unless never (evolves g0) (log e).
Proof.
  intros s. left. unfold evolves. simpl.
  destruct (gamma (self s)); intuition congruence.
Qed.

Lemma evolves_draw g0 : keeps_unless never (evolves g0) next_draw.
Proof.
  intros s. left. unfold evolves. simpl.
  destruct (gamma (self s)); intuition congruence.
Qed.

Lemma evolves_n_iter g0 k :
  keeps_unless never (evolves g0) (update_self (set_n_iter_ k)).
Proof.
  intros s. left. unfold evolves. simpl.
  destruct (gamma (self s)); intuition congruence.
Qed.

Lemma evolves_fitted g0 b l p :
  keeps_unless never (evolves g0) (update_self (set_fitted b l p)).
Proof.
  intros s. left. unfold evolves. simpl.
  destruct (gamma (self s)); intuition congruence.
Qed.

Lemma evolves_default_gamma n :
  keeps_unless never (evolves (gamma_default n)) (default_gamma n).
Proof.
  intros s. left. unfold default_gamma, bind, get_self, evolves.
  destruct (gamma (self s)) eqn:G; simpl; try rewrite G; intuition congruence.
Qed.

Lemma evolves_solve g0 X y lambd psi n :
  keeps_unless never (evolves g0) (cvxpy_solve_rounded X y lambd psi n).
Proof.
  unfold cvxpy_solve_rounded.
  apply ku_bind; [apply evolves_trans | apply ku_get_self, evolves_refl | intros e].
  apply ku_bind; [apply evolves_trans | apply evolves_log | intros _].
  apply ku_bind; [apply evolves_trans | apply ku_lift, evolves_refl |].
  intros [st [beta |]]; [apply ku_ret | apply ku_raise]; apply evolves_refl.
Qed.

Ltac evolves_side :=
  intros;
  first [ apply evolves_refl
        | eapply evolves_trans; eassumption
        | apply evolves_log
        | apply evolves_draw
        | apply evolves_n_iter
        | apply evolves_fitted
        | apply evolves_solve
        | apply evolves_default_gamma
        | reflexivity ].

Lemma Rlasso_penalty_level_evolves n p sigma_hat X psi :
  keeps (evolves (gamma_default n)) (Rlasso_penalty_level n p sigma_hat X psi).
Proof.
  apply keeps_unless_never, ku_Rlasso_penalty_level; evolves_side.
Qed.

Lemma SqrtRlasso_penalty_level_evolves n p :
  keeps (evolves (gamma_default n)) (SqrtRlasso_penalty_level n p).
Proof.
  apply keeps_unless_never, ku_SqrtRlasso_penalty_level; evolves_side.
Qed.

Lemma fit_evolves X y : keeps (evolves (gamma_default (np.nrows X))) (fit X y).
Proof.
  apply keeps_unless_never, ku_fit with (n0 := np.nrows X); evolves_side.
Qed.
End Evolves.

(* ================================================================= *)
(** * The claims *)

(** ** [fit] and [predict] *)

(** A successful [fit] ended with the assignment of [coef_], [lambd_] and
    [psi_], on the input it validated. *)
Lemma fit_ok_inv {oracles : Oracles} X y s s' :
  fit X y s = (s', Ok tt) ->
  exists beta lambd psi s1,
    check_X_y X y = Ok (X, y) /\
    rlasso_algorithm (class_of (self s))
      (if fit_intercept (self s) then center_columns X else X)
      (if fit_intercept (self s) then center y else y) s
    = (s1, Ok (beta, lambd, psi)) /\
    s' = {| self := set_fitted beta lambd psi (self s1);
            trace := trace s1; rng := rng s1 |}.
Proof.
  unfold fit. intros H.
  apply bind_inv_ok in H as ([Xv yv] & s0 & Hcheck & H).
  apply lift_inv_ok in Hcheck as [-> Hcheck].
  pose proof (check_X_y_ok _ _ Hcheck) as [-> ->].
  apply bind_inv_ok in H as (e & s0 & Hself & H).
  unfold get_self in Hself. inversion Hself; subst e s0; clear Hself.
  apply bind_inv_ok in H as ([[beta lambd] psi] & s1 & Halg & H).
  unfold update_self in H. inversion H; subst s'; clear H.
  now exists beta, lambd, psi, s1.
Qed.

(** C1 (code as it is): [fit] never assigns [intercept_].  After a
    successful [fit] with [fit_intercept] set, on an estimator that had no
    [intercept_], the attribute is still missing, [coef_] is set, and
    [predict] returns for no input: where the input is valid and matches
    the coefficients it raises [AttributeError]. *)
Theorem C1_predict_after_fit_raises {oracles : Oracles} X y s s' :
  fit X y s = (s', Ok tt) ->
  fit_intercept (self s) = true ->
  intercept_ (self s) = None ->
  intercept_ (self s') = None /\
  (exists coef, coef_ (self s') = Some coef) /\
  (forall X', exists e, predict X' s' = (s', Raise e)) /\
  (forall X' coef pred,
      coef_ (self s') = Some coef ->
      check_array X' = Ok X' ->
      np.matvec X' coef = Ok pred ->
      predict X' s' = (s', Raise AttributeError)).
Proof.
  intros Hfit Hfi Hnone.
  pose proof (fit_evolves X y s) as Hev. rewrite Hfit in Hev. simpl in Hev.
  unfold evolves in Hev.
  destruct Hev as (_ & Hfi' & _ & _ & _ & _ & _ & _ & _ & _ & _ & _ & Hint & _).
  rewrite Hfi in Hfi'. rewrite Hnone in Hint.
  apply fit_ok_inv in Hfit as (beta & lambd & psi & s1 & _ & _ & Hs').
  assert (Hcoef : coef_ (self s') = Some beta) by (subst s'; reflexivity).
  split; [exact Hint |]. split; [now exists beta |]. split.
  - intros X'. unfold predict, bind, get_self, lift, raise.
    rewrite Hcoef. destruct (check_array X') as [Xv | e]; [| now exists e].
    destruct (np.matvec Xv beta) as [pred | e]; [| now exists e].
    rewrite Hfi', Hint. now exists AttributeError.
  - intros X' coef pred Hc HX Hp.
    unfold predict, bind, get_self, lift, raise.
    rewrite Hc, HX, Hp, Hfi', Hint. reflexivity.
Qed.

Lemma C1_predict_after_fit_raises_witness :
  let s' := fst (@fit Example.oracles Example.X Example.y
                      (start (Example.rlasso []))) in
  intercept_ (self s') = None /\
  (exists coef, coef_ (self s') = Some coef) /\
  (forall X', exists e, predict X' s' = (s', Raise e)) /\
  (forall X' coef pred,
      coef_ (self s') = Some coef ->
      check_array X' = Ok X' ->
      np.matvec X' coef = Ok pred ->
      predict X' s' = (s', Raise AttributeError)).
Proof.
  apply (@C1_predict_after_fit_raises Example.oracles Example.X Example.y
           (start (Example.rlasso []))).
  - vm_compute. reflexivity.
  - reflexivity.
  - reflexivity.
Defined.

(** The training call of the example: the default estimator is fitted,
    then [predict] on the training matrix raises [AttributeError]. *)
Example fit_then_predict_example :
  let s' := fst (@fit Example.oracles Example.X Example.y
                      (start (Example.rlasso []))) in
  snd (@fit Example.oracles Example.X Example.y (start (Example.rlasso []))) = Ok tt
  /\ snd (predict Example.X s') = Raise AttributeError.
Proof. vm_compute. split; reflexivity. Qed.

(** ** Construction *)

Lemma init_params_no_sqrt (pre post : list (string * pyval)) v :
  forallb (fun kv => existsb (String.eqb (fst kv)) init_params)
          (pre ++ ("sqrt", v) :: post) = false.
Proof.
  rewrite forallb_app. simpl.
  destruct (forallb _ pre); reflexivity.
Qed.

(** C3 (code as it is): the estimators have no [sqrt] option.
    Instantiating either class with a [sqrt] keyword, whatever its value
    and the other keywords, is a [TypeError]; the loss is fixed by the
    class, squared for [Rlasso] and unsquared for [SqrtRlasso]. *)
Theorem C3_sqrt_keyword_rejected
        (cls : estimator_class) (v : pyval) (pre post : list (string * pyval))
        (X : matrix) (y : vec) (lambd : float) (psi : matrix) (n : Z) :
  RlassoBase_init cls (pre ++ ("sqrt", v) :: post) = Raise TypeError
  /\ obj_loss (criterion_function Rlasso X y lambd psi n) = sum_squares_over_n X y n
  /\ obj_loss (criterion_function SqrtRlasso X y lambd psi n) = norm2_over_sqrt_n X y n.
Proof.
  split; [| split; reflexivity].
  unfold RlassoBase_init. now rewrite init_params_no_sqrt.
Qed.

(** The calls of the regression tests, [Rlasso(sqrt=False, post=post)] and
    [Rlasso(sqrt=True, post=post)]. *)
Example test_rlasso_oracle_call :
  RlassoBase_init Rlasso [("sqrt", PyBool false); ("post", PyBool false)] = Raise TypeError
  /\ RlassoBase_init Rlasso [("sqrt", PyBool false); ("post", PyBool true)] = Raise TypeError
  /\ RlassoBase_init Rlasso [("sqrt", PyBool true); ("post", PyBool false)] = Raise TypeError
  /\ existsb (String.eqb "sqrt") penalty_init_params = true
  /\ existsb (String.eqb "sqrt") init_params = false
  /\ RlassoBase_init Rlasso [("post", PyBool false)]
     = Ok (set_post false (Example.default_estimator Rlasso))
  /\ RlassoBase_init SqrtRlasso [] = Ok (Example.default_estimator SqrtRlasso).
Proof. repeat split; reflexivity. Qed.

(** ** Penalty loadings *)

(** C8: with [cov_type = "cluster"] both [Rlasso._penalty_loadings] and
    [SqrtRlasso._penalty_loadings] raise [NotImplementedError], for every
    design matrix, every [n] and every residual argument, given or not;
    neither returns a loadings matrix. *)
Theorem C8_cluster_loadings_not_implemented
        (self : estimator) (X : matrix) (n : Z) (resid : option vec) :
  cov_type self = "cluster" ->
  Rlasso_penalty_loadings self X n resid = Raise NotImplementedError
  /\ SqrtRlasso_penalty_loadings self X n resid = Raise NotImplementedError.
Proof.
  intros Hc. unfold Rlasso_penalty_loadings, SqrtRlasso_penalty_loadings.
  rewrite Hc. simpl. split; reflexivity.
Qed.

Lemma C8_cluster_loadings_not_implemented_witness :
  Rlasso_penalty_loadings
    (Example.rlasso [("cov_type", PyStr "cluster")]) Example.X 4 (Some Example.y)
  = Raise NotImplementedError
  /\ SqrtRlasso_penalty_loadings
       (Example.rlasso [("cov_type", PyStr "cluster")]) Example.X 4 (Some Example.y)
     = Raise NotImplementedError.
Proof.
  apply (@C8_cluster_loadings_not_implemented
           (Example.rlasso [("cov_type", PyStr "cluster")])).
  reflexivity.
Defined.

(** C7 (code as it is): with [cov_type = "robust"] and no residuals,
    [Rlasso._penalty_loadings] raises nothing and returns the nonrobust
    loadings [sqrt(mean(X[:, j] ** 2))]; the same call on [SqrtRlasso]
    raises [NotImplementedError].  With residuals it computes
    [sqrt(sum_i(X[i, j] ** 2 * resid[i] ** 2) / n)]. *)
Theorem C7_robust_loadings_without_residuals
        (self : estimator) (X : matrix) (n : Z) :
  cov_type self = "robust" ->
  Rlasso_penalty_loadings self X n None
  = Ok (np.diag (np.vsqrt (np.mean_axis0 (np.msq X))))
  /\ SqrtRlasso_penalty_loadings self X n None = Raise NotImplementedError
  /\ forall resid,
      Rlasso_penalty_loadings self X n (Some resid)
      = rbind (np.einsum_ij_i_j (np.msq X) (np.sq resid))
              (fun Xe2 => Ok (np.diag (np.vsqrt (np.vdiv Xe2 (Z2f n))))).
Proof.
  intros Hc. unfold Rlasso_penalty_loadings, SqrtRlasso_penalty_loadings.
  rewrite Hc. simpl. repeat split; reflexivity.
Qed.

Lemma C7_robust_loadings_without_residuals_witness :
  let self := Example.rlasso [("cov_type", PyStr "robust")] in
  Rlasso_penalty_loadings self Example.X 4 None
  = Ok (np.diag (np.vsqrt (np.mean_axis0 (np.msq Example.X))))
  /\ SqrtRlasso_penalty_loadings self Example.X 4 None = Raise NotImplementedError
  /\ forall resid,
      Rlasso_penalty_loadings self Example.X 4 (Some resid)
      = rbind (np.einsum_ij_i_j (np.msq Example.X) (np.sq resid))
              (fun Xe2 => Ok (np.diag (np.vsqrt (np.vdiv Xe2 (Z2f 4))))).
Proof.
  apply (@C7_robust_loadings_without_residuals
           (Example.rlasso [("cov_type", PyStr "robust")])).
  reflexivity.
Defined.

(** The loadings the robust estimator gets for the example when the
    residuals are left out: those of the nonrobust estimator. *)
Example robust_loadings_fall_back :
  Rlasso_penalty_loadings (Example.rlasso [("cov_type", PyStr "robust")])
                          Example.X 4 None
  = Rlasso_penalty_loadings (Example.rlasso []) Example.X 4 None
  /\ Rlasso_penalty_loadings (Example.rlasso []) Example.X 4 None
     = Ok [[PrimFloat.sqrt 7.5]].
Proof. vm_compute. split; reflexivity. Qed.

(** ** Penalty level *)

(** C6 (code as it is): [Rlasso._penalty_level] with [x_dependent] set and
    [cov_type = "robust"] never returns, but what it raises is not
    [NotImplementedError]: [UnboundLocalError] once [X @ psi] is computed
    (the branch reads [lambd] before any assignment), [ValueError] when
    [n_sim] is negative or the shapes of [X] and [psi] do not match, and
    [TypeError] when [X] and [psi] are left out, as [fit] calls it. *)
Theorem C6_robust_x_dependent_level
        {oracles : Oracles} (n p : Z) (sigma_hat : option float)
        (X psi : matrix) (s : state) :
  x_dependent (self s) = true ->
  cov_type (self s) = "robust" ->
  (exists e, snd (Rlasso_penalty_level n p sigma_hat (Some X) (Some psi) s) = Raise e
             /\ (e = UnboundLocalError \/ e = ValueError))
  /\ (0 <= n_sim (self s) ->
      is_ok (np.matmul X psi) = true ->
      snd (Rlasso_penalty_level n p sigma_hat (Some X) (Some psi) s)
      = Raise UnboundLocalError)
  /\ (0 <= n_sim (self s) ->
      snd (Rlasso_penalty_level n p sigma_hat None None s) = Raise TypeError).
Proof.
  intros Hx Hc.
  assert (Hrun : forall X' psi',
             snd (Rlasso_penalty_level n p sigma_hat X' psi' s)
             = if n_sim (self s) <? 0 then Raise ValueError
               else match matmul_opt X' psi' with
                    | Ok _ => Raise UnboundLocalError
                    | Raise e => Raise e
                    end).
  { intros X' psi'.
    unfold Rlasso_penalty_level, default_gamma, bind, get_self, update_self,
      ret, raise, lift.
    destruct (gamma (self s)); simpl; rewrite Hx, Hc; simpl;
      destruct (n_sim (self s) <? 0); simpl; try reflexivity;
      destruct (matmul_opt X' psi'); reflexivity. }
  repeat split.
  - rewrite Hrun. destruct (n_sim (self s) <? 0); [eauto |].
    simpl. destruct (np.matmul X psi) as [Xpsi | e] eqn:Hm; [eauto |].
    exists e. split; [reflexivity |]. right.
    unfold np.matmul in Hm.
    match type of Hm with context [if ?b then _ else _] => destruct b end;
      now inversion Hm.
  - intros Hn Hok. rewrite Hrun.
    destruct (Z.ltb_spec (n_sim (self s)) 0); [lia |].
    simpl. destruct (np.matmul X psi); [reflexivity | discriminate].
  - intros Hn. rewrite Hrun.
    destruct (Z.ltb_spec (n_sim (self s)) 0); [lia | reflexivity].
Qed.

Lemma C6_robust_x_dependent_level_witness :
  let s := start (Example.rlasso [("cov_type", PyStr "robust");
                                  ("x_dependent", PyBool true)]) in
  (exists e, snd (@Rlasso_penalty_level Example.oracles 4 1 None
                    (Some Example.X) (Some [[1%float]]) s) = Raise e
             /\ (e = UnboundLocalError \/ e = ValueError))
  /\ (0 <= n_sim (self s) ->
      is_ok (np.matmul Example.X [[1%float]]) = true ->
      snd (@Rlasso_penalty_level Example.oracles 4 1 None
             (Some Example.X) (Some [[1%float]]) s)
      = Raise UnboundLocalError)
  /\ (0 <= n_sim (self s) ->
      snd (@Rlasso_penalty_level Example.oracles 4 1 None None None s)
      = Raise TypeError).
Proof.
  apply (@C6_robust_x_dependent_level Example.oracles 4 1 None Example.X
           [[1%float]]
           (start (Example.rlasso [("cov_type", PyStr "robust");
                                   ("x_dependent", PyBool true)]))).
  - reflexivity.
  - reflexivity.
Defined.

(** The robust, x-dependent estimator on the example: the penalty level
    called on its own, and the whole [fit]. *)
Example robust_x_dependent_example :
  let e := Example.rlasso [("cov_type", PyStr "robust"); ("x_dependent", PyBool true)] in
  snd (@Rlasso_penalty_level Example.oracles 4 1 None
         (Some Example.X) (Some [[1%float]]) (start e)) = Raise UnboundLocalError
  /\ snd (@fit Example.oracles Example.X Example.y (start e)) = Raise TypeError
  /\ snd (@SqrtRlasso_penalty_level Example.oracles 4 1 (start e))
     = Raise NotImplementedError.
Proof. vm_compute. repeat split; reflexivity. Qed.

(** ** The solve step *)

Lemma zero_below_exact tol beta b :
  In b (np.zero_below tol beta) -> (PrimFloat.abs b <? tol)%float = true -> b = 0%float.
Proof.
  unfold np.zero_below. rewrite in_map_iff. intros (b0 & Hb & _) Hlt.
  destruct (PrimFloat.abs b0 <? tol)%float eqn:H0.
  - now subst b.
  - subst b. rewrite H0 in Hlt. discriminate.
Qed.

Lemma zero_below_nth tol beta j :
  nth j (np.zero_below tol beta) 0%float
  = if (PrimFloat.abs (nth j beta 0) <? tol)%float then 0%float else nth j beta 0%float.
Proof.
  unfold np.zero_below. revert j.
  induction beta as [| b beta IH]; intros [| j]; simpl.
  - now destruct (_ <? _)%float.
  - now destruct (_ <? _)%float.
  - reflexivity.
  - apply IH.
Qed.

(** What the first half of [_cvxpy_solve] does, by what the solver did. *)
Lemma cvxpy_solve_rounded_run {oracles : Oracles} X y lambd psi n s :
  cvxpy_solve_rounded X y lambd psi n s
  = ({| self := self s; trace := trace s ++ [EvSolve]; rng := rng s |},
     match cvx_solve (criterion_function (class_of (self s)) X y lambd psi n)
                     (np.ncols X) (solver_opts (self s)) with
     | Raise e => Raise e
     | Ok (_, None) => Raise TypeError
     | Ok (_, Some raw) => Ok (np.zero_below (zero_tol (self s)) raw)
     end).
Proof.
  unfold cvxpy_solve_rounded, bind, get_self, log, lift, ret, raise. simpl.
  destruct (cvx_solve _ _ _) as [[st [raw |]] | e]; reflexivity.
Qed.

(** C9: when the solve step returns, before any post-lasso refit, the
    coefficient vector is the solver's vector with every entry of absolute
    value below [zero_tol] replaced by [0.0] and the others kept: no entry
    of it is nonzero and below [zero_tol] in absolute value.  With [post]
    off this is the vector [_cvxpy_solve] returns. *)
Theorem C9_rounded_coefficients_are_exact_zeros
        {oracles : Oracles} X y lambd psi n s s' beta :
  cvxpy_solve_rounded X y lambd psi n s = (s', Ok beta) ->
  (forall b, In b beta ->
             (PrimFloat.abs b <? zero_tol (self s))%float = true -> b = 0%float)
  /\ (exists st raw,
         cvx_solve (criterion_function (class_of (self s)) X y lambd psi n)
                   (np.ncols X) (solver_opts (self s)) = Ok (st, Some raw)
         /\ length beta = length raw
         /\ forall j,
             nth j beta 0%float
             = if (PrimFloat.abs (nth j raw 0) <? zero_tol (self s))%float
               then 0%float else nth j raw 0%float)
  /\ (post (self s) = false ->
      RlassoBase_cvxpy_solve X y lambd psi n s = (s', Ok beta)).
Proof.
  intros Hrun. rewrite cvxpy_solve_rounded_run in Hrun.
  destruct (cvx_solve _ _ _) as [[st [raw |]] | e] eqn:Hsolve;
    inversion Hrun; subst; clear Hrun.
  split; [| split].
  - intros b. apply zero_below_exact.
  - exists st, raw. split; [reflexivity |]. split.
    + unfold np.zero_below. apply length_map.
    + intros j. apply zero_below_nth.
  - intros Hpost. unfold RlassoBase_cvxpy_solve, bind.
    rewrite cvxpy_solve_rounded_run, Hsolve. unfold get_self. simpl.
    now rewrite Hpost.
Qed.

Lemma C9_rounded_coefficients_are_exact_zeros_witness :
  let X := [[1; 2; 3; 4]; [2; 1; 4; 3]]%float in
  let y := [1; 2]%float in
  let psi := np.diag [1; 1; 1; 1]%float in
  let s := start (Example.rlasso [("post", PyBool false)]) in
  let s' := {| self := self s; trace := [EvSolve]; rng := rng s |} in
  let beta := [0; 0; 0.5; -1e-4]%float in
  (forall b, In b beta ->
             (PrimFloat.abs b <? zero_tol (self s))%float = true -> b = 0%float)
  /\ (exists st raw,
         @cvx_solve Example.oracles_near_zero
                    (criterion_function (class_of (self s)) X y 1 psi 2)
                    (np.ncols X) (solver_opts (self s)) = Ok (st, Some raw)
         /\ length beta = length raw
         /\ forall j,
             nth j beta 0%float
             = if (PrimFloat.abs (nth j raw 0) <? zero_tol (self s))%float
               then 0%float else nth j raw 0%float)
  /\ (post (self s) = false ->
      @RlassoBase_cvxpy_solve Example.oracles_near_zero X y 1 psi 2 s = (s', Ok beta)).
Proof.
  apply (@C9_rounded_coefficients_are_exact_zeros Example.oracles_near_zero).
  vm_compute. reflexivity.
Defined.

(** ** The solver status *)

Lemma solves_app t1 t2 : solves (t1 ++ t2) = (solves t1 + solves t2)%nat.
Proof.
  induction t1 as [| e t1 IH]; simpl; [reflexivity |].
  destruct e; simpl; now rewrite IH.
Qed.

(** When the solver leaves no value, every step but the solve itself runs
    no solve, and the solve raises [TypeError]. *)
Section NoValue.
Context {oracles : Oracles}.
Hypothesis no_value : forall o p opts, exists st, cvx_solve o p opts = Ok (st, None).








End NoValue.

(** The methods do not look at the status of a solve. *)
Section ForgetStatus.
Variable O : Oracles.







End ForgetStatus.




(** ** The default of [gamma] *)


Lemma default_gamma_from_some {oracles : Oracles} n s g :
  gamma (self s) = Some g -> default_gamma n s = (s, Ok g).
Proof.
  intros Hg. unfold default_gamma, bind, get_self, ret. now rewrite Hg.
Qed.




(** ** The pilot fit and its shape *)

(** Branch on the condition of the first [if] of the goal. *)
Ltac case_if :=
  match goal with
  | |- context [if ?b then _ else _] => destruct b
  end.

Lemma correlations_length {oracles : Oracles} X y ks r :
  correlations X y ks = Ok r -> length r = length ks.
Proof.
  revert r. induction ks as [| k ks IH]; simpl; intros r H.
  - now inversion H.
  - apply rbind_inv_ok in H as (rho & _ & H).
    apply rbind_inv_ok in H as (r' & Hr' & H).
    inversion H; subst. simpl. f_equal. now apply IH.
Qed.

Lemma insert_index_length r i l :
  length (np.insert_index r i l) = S (length l).
Proof.
  induction l as [| j l IH]; simpl; [reflexivity |].
  destruct (np.before _ _); simpl; [now rewrite IH | reflexivity].
Qed.

Lemma argsort_length r : length (np.argsort r) = length r.
Proof.
  unfold np.argsort. generalize 0%nat.
  induction (length r) as [| k IH]; intros start; simpl; [reflexivity |].
  now rewrite insert_index_length, IH.
Qed.

(** The slice [l[-k:]] keeps the last [k] entries, or all of [l] when it
    has fewer. *)
Lemma slice_from_last {A} (k : Z) (l : list A) :
  1 <= k -> Z.of_nat (length (np.slice_from (- k) l)) = Z.min k (Z.of_nat (length l)).
Proof.
  intros Hk. unfold np.slice_from.
  destruct (Z.ltb_spec (- k) 0) as [_ | H]; [| lia].
  rewrite length_skipn. lia.
Qed.

Lemma take_cols_shape X idx X_top :
  np.take_cols X idx = Ok X_top ->
  length X_top = length X /\ length (hd [] X_top) = match X with
                                                     | [] => O
                                                     | _ => length idx
                                                     end.
Proof.
  unfold np.take_cols. case_if; intros H; inversion H; subst.
  rewrite length_map. split; [reflexivity |].
  destruct X as [| row X']; simpl; [reflexivity | apply length_map].
Qed.

Lemma transpose_length X : length (np.transpose X) = length (hd [] X).
Proof. unfold np.transpose. now rewrite length_map, length_seq. Qed.

Lemma matmul_length A B C : np.matmul A B = Ok C -> length C = length A.
Proof.
  unfold np.matmul. case_if; intros H; inversion H.
  apply length_map.
Qed.

Lemma matvec_length A v w : np.matvec A v = Ok w -> length w = length A.
Proof.
  unfold np.matvec. case_if; intros H; inversion H.
  apply length_map.
Qed.

(** The coefficients of [ols] are as many as the columns of the design,
    for an inverse that has the shape of its argument. *)
Lemma ols_length {oracles : Oracles} A y beta :
  (forall G Ginv, linalg_inv G = Ok Ginv -> length Ginv = length G) ->
  ols A y = Ok beta -> length beta = length (hd [] A).
Proof.
  intros Hinv H. unfold ols in H.
  apply rbind_inv_ok in H as (G & HG & H).
  apply rbind_inv_ok in H as (Ginv & HGinv & H).
  apply rbind_inv_ok in H as (Hm & HHm & H).
  apply matvec_length in H. apply matmul_length in HHm, HG.
  apply Hinv in HGinv. rewrite transpose_length in HG. congruence.
Qed.

Lemma ncols_center_columns X :
  np.ncols (center_columns X) = np.ncols X.
Proof.
  unfold np.ncols, center_columns. destruct X as [| row X']; [reflexivity |].
  cbn [map hd]. rewrite length_map, length_combine.
  unfold np.mean_axis0. rewrite length_map, transpose_length. cbn [hd].
  now rewrite Nat.min_id.
Qed.

Lemma pilot_fit_inv {oracles : Oracles} n_corr X y beta0 resid0 :
  pilot_fit n_corr X y = Ok (beta0, resid0) ->
  exists r X_top,
    correlations X y (seq 0 (Z.to_nat (np.ncols X))) = Ok r
    /\ np.take_cols X (top_columns n_corr r) = Ok X_top
    /\ ols X_top y = Ok beta0.
Proof.
  unfold pilot_fit. intros H.
  apply rbind_inv_ok in H as (r & Hr & H).
  apply rbind_inv_ok in H as (X_top & HX & H).
  apply rbind_inv_ok in H as (b & Hb & H).
  apply rbind_inv_ok in H as (fitted & _ & H).
  apply rbind_inv_ok in H as (resid & _ & H).
  inversion H; subst. now exists r, X_top.
Qed.

Lemma pilot_fit_length {oracles : Oracles} n_corr X y beta0 resid0 :
  (forall G Ginv, linalg_inv G = Ok Ginv -> length Ginv = length G) ->
  X <> [] -> 1 <= n_corr ->
  pilot_fit n_corr X y = Ok (beta0, resid0) ->
  Z.of_nat (length beta0) = Z.min n_corr (np.ncols X).
Proof.
  intros Hinv HX Hk H.
  apply pilot_fit_inv in H as (r & X_top & Hr & Htop & Hols).
  apply (ols_length _ _ Hinv) in Hols. rewrite Hols.
  apply take_cols_shape in Htop as [_ Hcols]. rewrite Hcols.
  destruct X as [| row X']; [contradiction |].
  unfold top_columns. rewrite slice_from_last by exact Hk.
  apply correlations_length in Hr.
  rewrite argsort_length, Hr, length_seq. unfold np.ncols. lia.
Qed.

(** ** Fitting without iterations *)

Lemma Rlasso_penalty_level_same_trace {oracles : Oracles} n p sigma_hat X psi :
  keeps (fun s s' => trace s' = trace s /\ rng s <= rng s')%nat
        (Rlasso_penalty_level n p sigma_hat X psi).
Proof.
  apply keeps_unless_never, ku_Rlasso_penalty_level.
  - intros s. split; [reflexivity | lia].
  - intros s1 s2 s3 [H1 H1'] [H2 H2']. split; [congruence | lia].
  - intros s. left. simpl. split; [reflexivity | lia].
  - intros s. left. unfold default_gamma, bind, get_self.
    destruct (gamma (self s)); simpl; split; (reflexivity || lia).
Qed.

(** The run of [Rlasso._rlasso_algorithm] when the loop has no iteration
    to make. *)
Lemma Rlasso_algorithm_without_iterations
      {oracles : Oracles} X y s beta0 resid0 :
  max_iter (self s) <= 0 ->
  pilot_fit (n_corr (self s)) X y = Ok (beta0, resid0) ->
  (cov_type (self s) = "nonrobust" ->
   Rlasso_rlasso_algorithm X y s
   = ({| self := self s; trace := trace s ++ [EvPilotOLS]; rng := rng s |},
      Ok (beta0, 0%float, np.diag (np.vsqrt (np.mean_axis0 (np.msq X))))))
  /\ (forall s' beta lambd psi,
         Rlasso_rlasso_algorithm X y s = (s', Ok (beta, lambd, psi)) ->
         beta = beta0 /\ trace s' = trace s ++ [EvPilotOLS]).
Proof.
  intros Hmax Hpilot.
  assert (Hiters : Z.to_nat (max_iter (self s)) = O) by lia.
  set (s1 := {| self := self s; trace := trace s ++ [EvPilotOLS]; rng := rng s |}).
  assert (Hp : pilot X y s = (s1, Ok (beta0, resid0))).
  { unfold pilot, bind, get_self, log, lift. simpl. now rewrite Hpilot. }
  split.
  - intros Hcov. unfold Rlasso_rlasso_algorithm.
    rewrite (bind_ok _ _ _ Hp). unfold bind at 1. unfold get_self at 1.
    cbn [self s1]. rewrite Hcov. cbn [String.eqb Ascii.eqb Bool.eqb].
    unfold Rlasso_penalty_loadings. rewrite Hcov.
    cbn [String.eqb Ascii.eqb Bool.eqb]. unfold bind, lift.
    rewrite Hiters. reflexivity.
  - intros s' beta lambd psi Hrun. unfold Rlasso_rlasso_algorithm in Hrun.
    rewrite (bind_ok _ _ _ Hp) in Hrun.
    apply bind_inv_ok in Hrun as (e & s2 & Hself & Hrun).
    unfold get_self in Hself. inversion Hself; subst e s2; clear Hself.
    cbn [self s1] in Hrun. rewrite Hiters in Hrun.
    destruct (cov_type (self s) =? "nonrobust")%string.
    + apply bind_inv_ok in Hrun as (psi1 & s2 & Hload & Hrun).
      apply lift_inv_ok in Hload as [-> _].
      unfold Rlasso_nonrobust_loop, bind, ret in Hrun.
      inversion Hrun; subst. split; reflexivity.
    + apply bind_inv_ok in Hrun as (lam & s2 & Hlevel & Hrun).
      pose proof (Rlasso_penalty_level_same_trace
                    (np.nrows X) (np.ncols X) None None None s1) as Htr.
      rewrite Hlevel in Htr. simpl in Htr. destruct Htr as [Htr _].
      pose proof (Rlasso_penalty_level_evolves
                    (np.nrows X) (np.ncols X) None None None s1) as Hev.
      rewrite Hlevel in Hev. destruct Hev as (_ & _ & _ & _ & _ & _ & Hmi & _).
      cbn [fst self s1] in Hmi.
      apply bind_inv_ok in Hrun as (e & s3 & Hself & Hrun).
      unfold get_self in Hself. inversion Hself; subst e s3; clear Hself.
      rewrite Hmi, Hiters in Hrun.
      unfold Rlasso_robust_loop, bind, ret in Hrun.
      inversion Hrun; subst. split; [reflexivity | exact Htr].
Qed.

(** Assigning to [gamma] the value it has changes nothing. *)
Lemma set_gamma_same e g : gamma e = Some g -> set_gamma (Some g) e = e.
Proof. intros H. destruct e. simpl in *. now subst. Qed.

(** The penalty level as the robust branch calls it, without [sigma_hat]
    and without arrays: with [x_dependent] off it returns the
    x-independent level and leaves [gamma] set; with [x_dependent] on it
    raises, in [np.empty] or in [None @ None]. *)
Lemma Rlasso_penalty_level_x_independent {oracles : Oracles} n p s :
  x_dependent (self s) = false ->
  Rlasso_penalty_level n p None None None s
  = ({| self := set_gamma (Some (gamma_used (self s) n)) (self s);
        trace := trace s; rng := rng s |},
     Ok (2 * c (self s) * PrimFloat.sqrt (Z2f n)
         * norm_ppf (1 - gamma_used (self s) n / Z2f (2 * p)))%float).
Proof.
  intros Hx.
  unfold Rlasso_penalty_level, default_gamma, gamma_used, bind, get_self,
    update_self, ret.
  destruct (gamma (self s)) as [g |] eqn:Hg; simpl; rewrite Hx.
  - rewrite (set_gamma_same _ Hg). destruct s; simpl.
    now destruct (cov_type _ =? "nonrobust")%string.
  - now destruct (cov_type _ =? "nonrobust")%string.
Qed.

Lemma Rlasso_penalty_level_x_dependent {oracles : Oracles} n p s :
  x_dependent (self s) = true ->
  snd (Rlasso_penalty_level n p None None None s)
  = Raise (if n_sim (self s) <? 0 then ValueError else TypeError).
Proof.
  intros Hx.
  unfold Rlasso_penalty_level, default_gamma, bind, get_self, update_self,
    ret, raise, lift.
  destruct (gamma (self s)); simpl; rewrite Hx;
    now destruct (n_sim (self s) <? 0).
Qed.

(** The run of the robust branch of [Rlasso._rlasso_algorithm] when the
    loop has no iteration to make. *)
Lemma Rlasso_algorithm_without_iterations_robust
      {oracles : Oracles} X y s beta0 resid0 :
  max_iter (self s) <= 0 ->
  pilot_fit (n_corr (self s)) X y = Ok (beta0, resid0) ->
  cov_type (self s) <> "nonrobust" ->
  (x_dependent (self s) = false ->
   Rlasso_rlasso_algorithm X y s
   = ({| self := set_gamma (Some (gamma_used (self s) (np.nrows X))) (self s);
         trace := trace s ++ [EvPilotOLS]; rng := rng s |},
      Ok (beta0,
          (2 * c (self s) * PrimFloat.sqrt (Z2f (np.nrows X))
           * norm_ppf (1 - gamma_used (self s) (np.nrows X)
                           / Z2f (2 * np.ncols X)))%float,
          np.diag (np.ones (np.ncols X)))))
  /\ (x_dependent (self s) = true ->
      snd (Rlasso_rlasso_algorithm X y s)
      = Raise (if n_sim (self s) <? 0 then ValueError else TypeError)).
Proof.
  intros Hmax Hpilot Hcov.
  apply String.eqb_neq in Hcov.
  assert (Hiters : Z.to_nat (max_iter (self s)) = O) by lia.
  set (s1 := {| self := self s; trace := trace s ++ [EvPilotOLS]; rng := rng s |}).
  assert (Hp : pilot X y s = (s1, Ok (beta0, resid0))).
  { unfold pilot, bind, get_self, log, lift. simpl. now rewrite Hpilot. }
  split; intros Hx; unfold Rlasso_rlasso_algorithm;
    rewrite (bind_ok _ _ _ Hp); unfold bind at 1; unfold get_self at 1;
    cbn [self s1]; rewrite Hcov.
  - rewrite (bind_ok _ _ _ (Rlasso_penalty_level_x_independent
                              (np.nrows X) (np.ncols X) s1 Hx)).
    unfold bind at 1. unfold get_self at 1. cbn [self s1 set_gamma max_iter].
    rewrite Hiters. reflexivity.
  - pose proof (Rlasso_penalty_level_x_dependent (np.nrows X) (np.ncols X) s1 Hx)
      as Hlev.
    destruct (Rlasso_penalty_level (np.nrows X) (np.ncols X) None None None s1)
      as [s2 r] eqn:Hrun.
    cbn [snd self s1] in Hlev. subst r.
    now rewrite (bind_raise _ _ _ Hrun).
Qed.

Lemma check_X_y_nonempty X y r : check_X_y X y = Ok r -> X <> [].
Proof. intros H ->. discriminate. Qed.

(** C10 (as the code has it): with [max_iter <= 0], on an input that
    passes validation and on which the pilot regression succeeds,
    [Rlasso.fit] runs no convex solve and stores as [coef_] the pilot OLS
    coefficients, those of the columns [argsort(r)[-n_corr:]] in that
    order; in the nonrobust case it always completes, with [lambd_ = 0.0].
    In the robust case it completes when the penalty level is computed,
    which is when [x_dependent] is off: it then stores the x-independent
    level and the identity loadings; with [x_dependent] on the level
    raises and so does [fit].  The coefficients are [min(n_corr, p)] many
    for [n_corr >= 1], when the inverse has the shape of its argument. *)
Theorem C10_fit_without_iterations
        {oracles : Oracles} (X : matrix) (y : vec) (s : state) (beta0 resid0 : vec) :
  class_of (self s) = Rlasso ->
  max_iter (self s) <= 0 ->
  check_X_y X y = Ok (X, y) ->
  let Xc := if fit_intercept (self s) then center_columns X else X in
  let yc := if fit_intercept (self s) then center y else y in
  pilot_fit (n_corr (self s)) Xc yc = Ok (beta0, resid0) ->
  (cov_type (self s) = "nonrobust" ->
   fit X y s
   = ({| self := set_fitted beta0 0%float
                            (np.diag (np.vsqrt (np.mean_axis0 (np.msq Xc))))
                            (self s);
         trace := trace s ++ [EvPilotOLS];
         rng := rng s |}, Ok tt))
  /\ (forall s', fit X y s = (s', Ok tt) ->
                 coef_ (self s') = Some beta0 /\ trace s' = trace s ++ [EvPilotOLS])
  /\ (exists r X_top,
         correlations Xc yc (seq 0 (Z.to_nat (np.ncols Xc))) = Ok r
         /\ np.take_cols Xc (top_columns (n_corr (self s)) r) = Ok X_top
         /\ ols X_top yc = Ok beta0)
  /\ ((forall G Ginv, linalg_inv G = Ok Ginv -> length Ginv = length G) ->
      1 <= n_corr (self s) ->
      Z.of_nat (length beta0) = Z.min (n_corr (self s)) (np.ncols X))
  /\ (cov_type (self s) <> "nonrobust" ->
      x_dependent (self s) = false ->
      fit X y s
      = ({| self :=
              set_fitted beta0
                (2 * c (self s) * PrimFloat.sqrt (Z2f (np.nrows X))
                 * norm_ppf (1 - gamma_used (self s) (np.nrows X)
                                 / Z2f (2 * np.ncols X)))%float
                (np.diag (np.ones (np.ncols X)))
                (set_gamma (Some (gamma_used (self s) (np.nrows X))) (self s));
            trace := trace s ++ [EvPilotOLS];
            rng := rng s |}, Ok tt))
  /\ (cov_type (self s) <> "nonrobust" ->
      x_dependent (self s) = true ->
      snd (fit X y s)
      = Raise (if n_sim (self s) <? 0 then ValueError else TypeError)).
Proof.
  intros Hcls Hmax Hcheck Xc yc Hpilot.
  destruct (Rlasso_algorithm_without_iterations Xc yc s Hmax Hpilot)
    as [Hnon Hany].
  assert (Hn : np.nrows Xc = np.nrows X).
  { subst Xc. destruct (fit_intercept (self s));
      [apply nrows_center_columns | reflexivity]. }
  assert (Hp : np.ncols Xc = np.ncols X).
  { subst Xc. destruct (fit_intercept (self s));
      [apply ncols_center_columns | reflexivity]. }
  split; [| split; [| split; [| split; [| split]]]].
  - intros Hcov. unfold fit.
    rewrite (bind_ok (lift (check_X_y X y)) _ s (s' := s) (a := (X, y)))
      by (unfold lift; now rewrite Hcheck).
    unfold bind at 1. unfold get_self at 1. rewrite Hcls.
    cbn [rlasso_algorithm]. fold Xc yc.
    rewrite (bind_ok _ _ _ (Hnon Hcov)). reflexivity.
  - intros s' Hfit.
    apply fit_ok_inv in Hfit as (beta & lambd & psi & s1 & _ & Halg & ->).
    rewrite Hcls in Halg. cbn [rlasso_algorithm] in Halg. fold Xc yc in Halg.
    apply Hany in Halg as [-> Htr]. split; [reflexivity | exact Htr].
  - now apply pilot_fit_inv in Hpilot.
  - intros Hinv Hk.
    assert (HXc : Xc <> []).
    { apply check_X_y_nonempty in Hcheck. subst Xc.
      destruct (fit_intercept (self s)); [| exact Hcheck].
      unfold center_columns. destruct X; [contradiction | discriminate]. }
    rewrite (@pilot_fit_length _ _ _ _ _ _ Hinv HXc Hk Hpilot).
    subst Xc. destruct (fit_intercept (self s)); [| reflexivity].
    now rewrite ncols_center_columns.
  - intros Hcov Hx.
    destruct (Rlasso_algorithm_without_iterations_robust Xc yc s Hmax Hpilot Hcov)
      as [Hrun _].
    specialize (Hrun Hx). rewrite Hn, Hp in Hrun.
    unfold fit.
    rewrite (bind_ok (lift (check_X_y X y)) _ s (s' := s) (a := (X, y)))
      by (unfold lift; now rewrite Hcheck).
    unfold bind at 1. unfold get_self at 1. rewrite Hcls.
    cbn [rlasso_algorithm]. fold Xc yc.
    rewrite (bind_ok _ _ _ Hrun). reflexivity.
  - intros Hcov Hx.
    destruct (Rlasso_algorithm_without_iterations_robust Xc yc s Hmax Hpilot Hcov)
      as [_ Hrun].
    specialize (Hrun Hx).
    unfold fit.
    rewrite (bind_ok (lift (check_X_y X y)) _ s (s' := s) (a := (X, y)))
      by (unfold lift; now rewrite Hcheck).
    unfold bind at 1. unfold get_self at 1. rewrite Hcls.
    cbn [rlasso_algorithm]. fold Xc yc.
    destruct (Rlasso_rlasso_algorithm Xc yc s) as [s2 r] eqn:Halg.
    cbn [snd] in Hrun. subst r.
    now rewrite (bind_raise _ _ _ Halg).
Qed.

Lemma C10_fit_without_iterations_witness :
  let orc := Example.oracles in
  let X := Example.X2 in
  let y := Example.y2 in
  let s := start (Example.rlasso [("max_iter", PyInt 0)]) in
  let Xc := if fit_intercept (self s) then center_columns X else X in
  let yc := if fit_intercept (self s) then center y else y in
  let beta0 := [0.29999999999999993; 1]%float in
  (cov_type (self s) = "nonrobust" ->
   @fit orc X y s
   = ({| self := set_fitted beta0 0%float
                            (np.diag (np.vsqrt (np.mean_axis0 (np.msq Xc))))
                            (self s);
         trace := trace s ++ [EvPilotOLS];
         rng := rng s |}, Ok tt))
  /\ (forall s', @fit orc X y s = (s', Ok tt) ->
                 coef_ (self s') = Some beta0 /\ trace s' = trace s ++ [EvPilotOLS])
  /\ (exists r X_top,
         @correlations orc Xc yc (seq 0 (Z.to_nat (np.ncols Xc))) = Ok r
         /\ np.take_cols Xc (top_columns (n_corr (self s)) r) = Ok X_top
         /\ @ols orc X_top yc = Ok beta0)
  /\ ((forall G Ginv, @linalg_inv orc G = Ok Ginv -> length Ginv = length G) ->
      1 <= n_corr (self s) ->
      Z.of_nat (length beta0) = Z.min (n_corr (self s)) (np.ncols X))
  /\ (cov_type (self s) <> "nonrobust" ->
      x_dependent (self s) = false ->
      @fit orc X y s
      = ({| self :=
              set_fitted beta0
                (2 * c (self s) * PrimFloat.sqrt (Z2f (np.nrows X))
                 * @norm_ppf orc (1 - @gamma_used orc (self s) (np.nrows X)
                                      / Z2f (2 * np.ncols X)))%float
                (np.diag (np.ones (np.ncols X)))
                (set_gamma (Some (@gamma_used orc (self s) (np.nrows X))) (self s));
            trace := trace s ++ [EvPilotOLS];
            rng := rng s |}, Ok tt))
  /\ (cov_type (self s) <> "nonrobust" ->
      x_dependent (self s) = true ->
      snd (@fit orc X y s)
      = Raise (if n_sim (self s) <? 0 then ValueError else TypeError)).
Proof.
  apply (@C10_fit_without_iterations Example.oracles Example.X2 Example.y2
           (start (Example.rlasso [("max_iter", PyInt 0)]))
           [0.29999999999999993; 1]%float
           (snd (match @pilot_fit Example.oracles 5
                         (center_columns Example.X2) (center Example.y2) with
                 | Ok br => br
                 | Raise _ => ([], [])
                 end))).
  - reflexivity.
  - vm_compute. discriminate.
  - vm_compute. reflexivity.
  - vm_compute. reflexivity.
Defined.

(** The example with two regressors, [max_iter = 0] and the default
    [n_corr = 5]: [fit] stores two coefficients, the pilot's, headed by
    the coefficient of the second column; an input without rows does not
    complete. *)
Lemma C10_pilot_coefficients_are_p_many :
  let s := start (Example.rlasso [("max_iter", PyInt 0)]) in
  let r := @fit Example.oracles Example.X2 Example.y2 s in
  n_corr (self s) = 5
  /\ np.ncols Example.X2 = 2
  /\ snd r = Ok tt
  /\ coef_ (self (fst r)) = Some [0.29999999999999993; 1]%float
  /\ lambd_ (self (fst r)) = Some 0%float
  /\ trace (fst r) = [EvPilotOLS]
  /\ snd (@fit Example.oracles [] [] s) = Raise ValueError.
Proof. vm_compute. repeat split; reflexivity. Qed.

(** The same example with the robust covariance type: [fit] completes
    with the pilot's coefficients, the x-independent level and the
    identity loadings; with [x_dependent] on it raises. *)
Example robust_fit_without_iterations :
  let s := start (Example.rlasso [("max_iter", PyInt 0);
                                  ("cov_type", PyStr "robust")]) in
  let r := @fit Example.oracles Example.X2 Example.y2 s in
  snd r = Ok tt
  /\ coef_ (self (fst r)) = Some [0.29999999999999993; 1]%float
  /\ lambd_ (self (fst r)) = Some (2 * 1.1 * 2 * 2.0961670359997577)%float
  /\ psi_ (self (fst r)) = Some [[1; 0]; [0; 1]]%float
  /\ trace (fst r) = [EvPilotOLS]
  /\ snd (@fit Example.oracles Example.X2 Example.y2
              (start (Example.rlasso [("max_iter", PyInt 0);
                                      ("cov_type", PyStr "robust");
                                      ("x_dependent", PyBool true)])))
     = Raise TypeError.
Proof. vm_compute. repeat split; reflexivity. Qed.

(** ** The post-lasso refit *)

Lemma set_nth_length i x beta : length (np.set_nth i x beta) = length beta.
Proof.
  revert i. induction beta as [| b beta IH]; intros [| i]; simpl; auto.
Qed.

Lemma set_nth_other i j x beta d :
  j <> i -> nth j (np.set_nth i x beta) d = nth j beta d.
Proof.
  revert i j. induction beta as [| b beta IH]; intros [| i] [| j] H; simpl;
    try reflexivity; try contradiction.
  apply IH. congruence.
Qed.

Lemma set_nth_same i x beta d :
  (i < length beta)%nat -> nth i (np.set_nth i x beta) d = x.
Proof.
  revert i. induction beta as [| b beta IH]; intros [| i] H; simpl in *;
    try lia; [reflexivity |].
  apply IH. lia.
Qed.

Lemma assign_length idx values beta :
  length (np.assign idx values beta) = length beta.
Proof.
  revert values beta. induction idx as [| i idx IH]; intros [| x values] beta;
    simpl; try reflexivity.
  now rewrite IH, set_nth_length.
Qed.

Lemma assign_other idx values beta j d :
  ~ In j idx -> nth j (np.assign idx values beta) d = nth j beta d.
Proof.
  revert values beta. induction idx as [| i idx IH]; intros [| x values] beta H;
    simpl; try reflexivity.
  rewrite IH by (intros Hin; apply H; now right).
  apply set_nth_other. intros ->. apply H. now left.
Qed.

Lemma assign_at idx values beta k d :
  NoDup idx ->
  length values = length idx ->
  (forall i, In i idx -> (i < length beta)%nat) ->
  (k < length idx)%nat ->
  nth (nth k idx O) (np.assign idx values beta) d = nth k values d.
Proof.
  revert values beta k.
  induction idx as [| i idx IH]; intros [| x values] beta k Hnd Hlen Hin Hk;
    simpl in *; try lia.
  inversion Hnd as [| ? ? Hni Hnd']; subst.
  destruct k as [| k].
  - rewrite assign_other by exact Hni.
    apply set_nth_same. apply Hin. now left.
  - apply IH; [exact Hnd' | lia | | lia].
    intros j Hj. rewrite set_nth_length. apply Hin. now right.
Qed.

(** The support: the indices of the entries that are not zero, in
    increasing order. *)
Lemma nonzero_from_spec i beta j :
  In j (np.nonzero_from i beta) <->
  (i <= j < i + length beta)%nat /\ (nth (j - i) beta 0 =? 0)%float = false.
Proof.
  revert i. induction beta as [| b beta IH]; intros i; simpl.
  - split; [contradiction | lia].
  - destruct (b =? 0)%float eqn:Hb; simpl; rewrite ?IH.
    + split.
      * intros [Hr Hz]. split; [lia |].
        destruct (j - i)%nat as [| m] eqn:Hji; [lia |].
        replace (j - S i)%nat with m in Hz by lia. exact Hz.
      * intros [Hr Hz].
        destruct (j - i)%nat as [| m] eqn:Hji; [congruence |].
        split; [lia |]. replace (j - S i)%nat with m by lia. exact Hz.
    + split.
      * intros [<- | [Hr Hz]].
        -- split; [lia |]. now rewrite Nat.sub_diag.
        -- split; [lia |].
           destruct (j - i)%nat as [| m] eqn:Hji; [lia |].
           replace (j - S i)%nat with m in Hz by lia. exact Hz.
      * intros [Hr Hz].
        destruct (j - i)%nat as [| m] eqn:Hji; [left; lia | right].
        split; [lia |]. replace (j - S i)%nat with m by lia. exact Hz.
Qed.

Lemma nonzero_from_NoDup i beta : NoDup (np.nonzero_from i beta).
Proof.
  revert i. induction beta as [| b beta IH]; intros i; simpl; [constructor |].
  destruct (b =? 0)%float; [apply IH |].
  constructor; [| apply IH].
  rewrite nonzero_from_spec. lia.
Qed.

Lemma nonzero_spec beta j :
  In j (np.nonzero beta) <->
  (j < length beta)%nat /\ (nth j beta 0 =? 0)%float = false.
Proof.
  unfold np.nonzero. rewrite nonzero_from_spec, Nat.sub_0_r. simpl.
  split; intros [H1 H2]; (split; [lia | exact H2]).
Qed.

(** What [beta[nonzero_idx] = post_beta] leaves: the entries off the
    support as they were, the entries of the support replaced. *)
Lemma set_at_nonzero rounded post_beta beta :
  np.set_at (np.nonzero rounded) post_beta rounded = Ok beta ->
  length beta = length rounded
  /\ (forall j, ~ In j (np.nonzero rounded) ->
                nth j beta 0%float = nth j rounded 0%float)
  /\ (length post_beta = length (np.nonzero rounded) ->
      forall k, (k < length post_beta)%nat ->
                nth (nth k (np.nonzero rounded) O) beta 0%float
                = nth k post_beta 0%float).
Proof.
  unfold np.set_at. intros H.
  assert (Hrange : forall i, In i (np.nonzero rounded) -> (i < length rounded)%nat).
  { intros i Hi. now apply nonzero_spec in Hi. }
  destruct (negb _); [discriminate |].
  destruct (Nat.eqb_spec (length post_beta) (length (np.nonzero rounded))) as [Hl | Hl].
  - inversion H; subst. split; [apply assign_length |]. split.
    + intros j Hj. now apply assign_other.
    + intros _ k Hk. apply assign_at;
        [apply nonzero_from_NoDup | exact Hl | exact Hrange | lia].
  - destruct post_beta as [| x [| x' post_beta]]; try discriminate.
    inversion H; subst. split; [apply assign_length |]. split.
    + intros j Hj. now apply assign_other.
    + intros Hl'. contradiction.
Qed.

(** A returned [_cvxpy_solve] with [post] set went through the solve, the
    rounding and the refit, and logged the two steps. *)
Lemma cvxpy_solve_post_inv {oracles : Oracles} X y lambd psi n s s' beta :
  post (self s) = true ->
  RlassoBase_cvxpy_solve X y lambd psi n s = (s', Ok beta) ->
  s' = {| self := self s; trace := trace s ++ [EvSolve; EvPostOLS]; rng := rng s |}
  /\ exists rounded X_sub post_beta,
      snd (cvxpy_solve_rounded X y lambd psi n s) = Ok rounded
      /\ np.take_cols X (np.nonzero rounded) = Ok X_sub
      /\ ols X_sub y = Ok post_beta
      /\ np.set_at (np.nonzero rounded) post_beta rounded = Ok beta.
Proof.
  intros Hpost H. unfold RlassoBase_cvxpy_solve in H.
  apply bind_inv_ok in H as (rounded & s1 & Hr & H).
  pose proof (cvxpy_solve_rounded_run X y lambd psi n s) as Hrun.
  rewrite Hr in Hrun. inversion Hrun as [[Hs1 Hres]]. clear Hrun.
  apply bind_inv_ok in H as (e & s2 & Hself & H).
  unfold get_self in Hself. inversion Hself; subst e s2; clear Hself.
  rewrite Hs1 in H. cbn [self] in H. rewrite Hpost in H.
  unfold post_ols_refit in H.
  apply bind_inv_ok in H as ([] & s2 & Hlog & H).
  unfold log in Hlog. inversion Hlog; subst s2; clear Hlog. cbn [self trace rng] in H.
  apply bind_inv_ok in H as (X_sub & s2 & HX & H).
  apply lift_inv_ok in HX as [-> HX].
  apply bind_inv_ok in H as (post_beta & s2 & Hols & H).
  apply lift_inv_ok in Hols as [-> Hols].
  apply lift_inv_ok in H as [-> Hset].
  split.
  - now rewrite <- app_assoc.
  - exists rounded, X_sub, post_beta. rewrite Hr. now repeat split.
Qed.

Lemma SqrtRlasso_penalty_level_same_trace {oracles : Oracles} n p :
  keeps (fun s s' => trace s' = trace s) (SqrtRlasso_penalty_level n p).
Proof.
  apply keeps_unless_never, ku_SqrtRlasso_penalty_level.
  - reflexivity.
  - intros s1 s2 s3 H1 H2. congruence.
  - intros s. left. unfold default_gamma, bind, get_self.
    now destruct (gamma (self s)).
Qed.

(** The penalty level logs nothing and leaves [post] as it is. *)
Lemma Rlasso_penalty_level_quiet {oracles : Oracles} n p sigma_hat X psi s s1 r :
  Rlasso_penalty_level n p sigma_hat X psi s = (s1, r) ->
  trace s1 = trace s /\ post (self s1) = post (self s)
  /\ max_iter (self s1) = max_iter (self s).
Proof.
  intros H.
  pose proof (Rlasso_penalty_level_same_trace n p sigma_hat X psi s) as [Ht _].
  pose proof (Rlasso_penalty_level_evolves n p sigma_hat X psi s) as Hev.
  rewrite H in Ht, Hev. simpl in Ht, Hev. unfold evolves in Hev. tauto.
Qed.

Lemma SqrtRlasso_penalty_level_quiet {oracles : Oracles} n p s s1 r :
  SqrtRlasso_penalty_level n p s = (s1, r) ->
  trace s1 = trace s /\ post (self s1) = post (self s)
  /\ max_iter (self s1) = max_iter (self s).
Proof.
  intros H.
  pose proof (SqrtRlasso_penalty_level_same_trace n p s) as Ht.
  pose proof (SqrtRlasso_penalty_level_evolves n p s) as Hev.
  rewrite H in Ht, Hev. simpl in Ht, Hev. unfold evolves in Hev. tauto.
Qed.

(** A returned [_cvxpy_solve] logged one round and changed nothing else. *)
Lemma cvxpy_solve_ok_state {oracles : Oracles} X y lambd psi n s s' beta :
  RlassoBase_cvxpy_solve X y lambd psi n s = (s', Ok beta) ->
  s' = {| self := self s; trace := trace s ++ round (post (self s)); rng := rng s |}.
Proof.
  intros H. destruct (post (self s)) eqn:Hpost.
  - now apply cvxpy_solve_post_inv in H as [-> _].
  - unfold RlassoBase_cvxpy_solve, bind in H.
    rewrite cvxpy_solve_rounded_run in H.
    destruct (cvx_solve _ _ _) as [[st [raw |]] | e]; try discriminate.
    unfold get_self in H. cbn [self] in H. rewrite Hpost in H.
    unfold ret in H. now inversion H.
Qed.

Lemma rounds_S b k : rounds b (S k) = round b ++ rounds b k.
Proof. reflexivity. Qed.

Lemma solves_rounds b k : solves (rounds b k) = k.
Proof.
  induction k as [| k IH]; [reflexivity |].
  rewrite rounds_S, solves_app, IH. now destruct b.
Qed.

(** Inverting the steps of a computation that returned. *)
Ltac inv_bind H :=
  let a := fresh "a" in
  let s := fresh "s" in
  let Hstep := fresh "Hstep" in
  apply bind_inv_ok in H as (a & s & Hstep & H).
Ltac inv_self H :=
  let a := fresh "a" in
  let s := fresh "s" in
  let Hstep := fresh "Hstep" in
  apply bind_inv_ok in H as (a & s & Hstep & H);
  unfold get_self in Hstep; inversion Hstep; subst a s; clear Hstep.
Ltac inv_lift H :=
  let a := fresh "a" in
  let s := fresh "s" in
  let Hstep := fresh "Hstep" in
  apply bind_inv_ok in H as (a & s & Hstep & H);
  apply lift_inv_ok in Hstep as [-> Hstep].

(** The loops log [k] rounds, [k] at most the number of iterations. *)
Lemma Rlasso_nonrobust_loop_rounds {oracles : Oracles} iters X y n p psi b :
  forall beta0 resid0 lambd0 n_iter s s' r,
    post (self s) = b ->
    Rlasso_nonrobust_loop iters X y n p psi beta0 resid0 lambd0 n_iter s = (s', Ok r) ->
    exists k, (k <= iters)%nat /\ trace s' = trace s ++ rounds b k.
Proof.
  induction iters as [| iters IH]; intros beta0 resid0 lambd0 n_iter s s' r Hpost H.
  - simpl in H. inversion H; subst. exists O. split; [lia |].
    simpl. now rewrite app_nil_r.
  - simpl in H. inv_self H. inv_bind H.
    assert (Hq : trace s0 = trace s /\ post (self s0) = post (self s)
                 /\ max_iter (self s0) = max_iter (self s)).
    { destruct (x_dependent (self s));
        eapply Rlasso_penalty_level_quiet; exact Hstep. }
    destruct Hq as (Ht & Hp & _). clear Hstep.
    inv_self H.
    destruct (np.isclose a lambd0 (convergence_tol (self s0))).
    + inversion H; subst. exists O. split; [lia |].
      simpl. now rewrite app_nil_r.
    + inv_bind H. apply cvxpy_solve_ok_state in Hstep. subst s1.
      inv_lift H. inv_lift H.
      apply IH in H as (k & Hk & Htr); [| simpl; congruence].
      exists (S k). split; [lia |]. rewrite Htr. simpl trace.
      rewrite Ht, Hp, Hpost, rounds_S, app_assoc. reflexivity.
Qed.

Lemma Rlasso_robust_loop_rounds {oracles : Oracles} iters X y n lambd b :
  forall beta0 resid0 psi0 n_iter s s' r,
    post (self s) = b ->
    Rlasso_robust_loop iters X y n lambd beta0 resid0 psi0 n_iter s = (s', Ok r) ->
    exists k, (k <= iters)%nat /\ trace s' = trace s ++ rounds b k.
Proof.
  induction iters as [| iters IH]; intros beta0 resid0 psi0 n_iter s s' r Hpost H.
  - simpl in H. inversion H; subst. exists O. split; [lia |].
    simpl. now rewrite app_nil_r.
  - simpl in H. inv_self H. inv_lift H.
    destruct (np.allclose a psi0 (convergence_tol (self s))).
    + inversion H; subst. exists O. split; [lia |].
      simpl. now rewrite app_nil_r.
    + inv_bind H. apply cvxpy_solve_ok_state in Hstep0. subst s0.
      inv_lift H. inv_lift H.
      apply IH in H as (k & Hk & Htr); [| exact Hpost].
      exists (S k). split; [lia |]. rewrite Htr. simpl trace.
      rewrite Hpost, rounds_S, app_assoc. reflexivity.
Qed.

(** The loop of [SqrtRlasso] also counts its rounds in [n_iter_]. *)
Lemma SqrtRlasso_robust_loop_rounds {oracles : Oracles} iters X y n lambd b :
  forall beta0 resid0 psi0 s s' r,
    post (self s) = b ->
    SqrtRlasso_robust_loop iters X y n lambd beta0 resid0 psi0 s = (s', Ok r) ->
    exists k, (k <= iters)%nat /\ trace s' = trace s ++ rounds b k
              /\ forall j, n_iter_ (self s) = Some (Some j) ->
                           n_iter_ (self s') = Some (Some (j + Z.of_nat k)).
Proof.
  induction iters as [| iters IH]; intros beta0 resid0 psi0 s s' r Hpost H.
  - simpl in H. inversion H; subst. exists O. split; [lia |].
    simpl. rewrite app_nil_r. split; [reflexivity |].
    intros j Hj. now rewrite Z.add_0_r.
  - simpl in H. inv_self H. inv_lift H.
    destruct (np.allclose a psi0 (convergence_tol (self s))).
    + inversion H; subst. exists O. split; [lia |].
      simpl. rewrite app_nil_r. split; [reflexivity |].
      intros j Hj. now rewrite Z.add_0_r.
    + inv_bind H. apply cvxpy_solve_ok_state in Hstep0. subst s0.
      inv_lift H. inv_lift H. inv_bind H.
      assert (Hs : trace s0 = trace s ++ round b
                   /\ post (self s0) = b
                   /\ forall j, n_iter_ (self s) = Some (Some j) ->
                                n_iter_ (self s0) = Some (Some (j + 1))).
      { unfold incr_n_iter_, bind, get_self, update_self, raise in Hstep2.
        simpl in Hstep2. rewrite Hpost in Hstep2.
        destruct (n_iter_ (self s)) as [[j |] |];
          inversion Hstep2; subst; simpl.
        repeat split; try assumption. intros j' Hj'. now inversion Hj'. }
      destruct Hs as (Ht & Hp & Hn).
      apply IH in H as (k & Hk & Htr & Hcount); [| exact Hp].
      exists (S k). split; [lia |]. split.
      * rewrite Htr, Ht, rounds_S, app_assoc. reflexivity.
      * intros j Hj. rewrite (Hcount _ (Hn _ Hj)). f_equal. f_equal. lia.
Qed.

Lemma pilot_ok_inv {oracles : Oracles} X y s s1 r :
  pilot X y s = (s1, Ok r) ->
  s1 = {| self := self s; trace := trace s ++ [EvPilotOLS]; rng := rng s |}.
Proof.
  unfold pilot. intros H. inv_self H. inv_bind H.
  unfold log in Hstep. inversion Hstep; subst. clear Hstep.
  now apply lift_inv_ok in H as [-> _].
Qed.

(** The steps of a returned [_rlasso_algorithm]: the pilot, unless the
    estimator fits with a single solve, then [k] rounds. *)
Lemma rlasso_algorithm_rounds {oracles : Oracles} X y s s' r :
  rlasso_algorithm (class_of (self s)) X y s = (s', Ok r) ->
  exists k,
    trace s' = trace s ++ (if single_solve (self s) then [] else [EvPilotOLS])
                       ++ rounds (post (self s)) k
    /\ if single_solve (self s) then k = 1%nat
       else (k <= Z.to_nat (max_iter (self s)))%nat.
Proof.
  intros H. unfold single_solve.
  destruct (class_of (self s)); cbn [rlasso_algorithm] in H.
  - unfold Rlasso_rlasso_algorithm in H.
    inv_bind H. destruct a as [beta0 resid0].
    apply pilot_ok_inv in Hstep. subst s0.
    inv_self H. cbn [self] in H.
    destruct (cov_type (self s) =? "nonrobust")%string.
    + inv_lift H. inv_bind H. destruct a0 as [[b l] it].
      apply Rlasso_nonrobust_loop_rounds with (b := post (self s)) in Hstep0
        as (k & Hk & Htr); [| reflexivity].
      inversion H; subst. exists k. split; [| exact Hk].
      rewrite Htr. simpl. now rewrite <- app_assoc.
    + inv_bind H.
      apply Rlasso_penalty_level_quiet in Hstep as (Ht & Hp & Hm).
      inv_self H. inv_bind H. destruct a0 as [[b ps] it].
      apply Rlasso_robust_loop_rounds with (b := post (self s)) in Hstep
        as (k & Hk & Htr); [| exact Hp].
      inversion H; subst. exists k. simpl in Hm, Ht. split; [| now rewrite <- Hm].
      rewrite Htr, Ht. simpl. now rewrite <- app_assoc.
  - unfold SqrtRlasso_rlasso_algorithm in H.
    inv_self H.
    destruct (cov_type (self s) =? "nonrobust")%string.
    + inv_bind H. unfold update_self in Hstep. inversion Hstep; subst. clear Hstep.
      inv_bind H.
      apply SqrtRlasso_penalty_level_quiet in Hstep as (Ht & Hp & _).
      inv_self H. inv_lift H. inv_bind H.
      apply cvxpy_solve_ok_state in Hstep0. subst s1.
      inversion H; subst. exists 1%nat. split; [| reflexivity].
      simpl in *. rewrite Ht, Hp. unfold rounds. simpl. now rewrite app_nil_r.
    + inv_bind H. destruct a as [beta0 resid0].
      apply pilot_ok_inv in Hstep. subst s0.
      inv_bind H. unfold update_self in Hstep. inversion Hstep; subst. clear Hstep.
      inv_bind H.
      apply SqrtRlasso_penalty_level_quiet in Hstep as (Ht & Hp & Hm).
      inv_self H. inv_bind H. destruct a0 as [b ps].
      apply SqrtRlasso_robust_loop_rounds with (b := post (self s)) in Hstep
        as (k & Hk & Htr & _); [| exact Hp].
      inversion H; subst. exists k. simpl in Hm, Ht. split; [| now rewrite <- Hm].
      rewrite Htr, Ht. simpl. now rewrite <- app_assoc.
Qed.

(** C2 (as the code has it): with [post] set, the post-lasso OLS refit is
    part of every [_cvxpy_solve]: each solve of a returned [fit] is
    followed at once by its refit, so the refit runs as often as the
    solver (at most [max_iter] times in the loops, not at all when no
    solve runs) and nothing is refitted after the loop.  In each refit the
    coefficients off the support of the rounded solution stay as they
    are, zero, and those on the support are replaced by the OLS fit on
    the columns of the support. *)
Theorem C2_refit_inside_every_solve {oracles : Oracles} :
  (forall X y lambd psi n s s' beta,
      post (self s) = true ->
      RlassoBase_cvxpy_solve X y lambd psi n s = (s', Ok beta) ->
      trace s' = trace s ++ [EvSolve; EvPostOLS]
      /\ exists rounded X_sub post_beta,
          snd (cvxpy_solve_rounded X y lambd psi n s) = Ok rounded
          /\ np.take_cols X (np.nonzero rounded) = Ok X_sub
          /\ ols X_sub y = Ok post_beta
          /\ length beta = length rounded
          /\ (forall j, (j < length rounded)%nat ->
                        ~ In j (np.nonzero rounded) ->
                        (nth j rounded 0 =? 0)%float = true
                        /\ nth j beta 0%float = nth j rounded 0%float)
          /\ (length post_beta = length (np.nonzero rounded) ->
              forall k, (k < length post_beta)%nat ->
                        nth (nth k (np.nonzero rounded) O) beta 0%float
                        = nth k post_beta 0%float))
  /\ (forall X y s s',
         post (self s) = true ->
         fit X y s = (s', Ok tt) ->
         exists k,
           trace s' = trace s ++ (if single_solve (self s) then [] else [EvPilotOLS])
                              ++ solve_refit_rounds k
           /\ if single_solve (self s) then k = 1%nat
              else (k <= Z.to_nat (max_iter (self s)))%nat).
Proof.
  split.
  - intros X y lambd psi n s s' beta Hpost H.
    apply cvxpy_solve_post_inv in H as [-> (rounded & X_sub & post_beta & Hr & HX & Hols & Hset)];
      [| exact Hpost].
    split; [reflexivity |].
    exists rounded, X_sub, post_beta.
    apply set_at_nonzero in Hset as (Hlen & Hoff & Hon).
    split; [exact Hr |]. split; [exact HX |]. split; [exact Hols |].
    split; [exact Hlen |]. split; [| exact Hon].
    intros j Hj Hout. split; [| now apply Hoff].
    destruct (nth j rounded 0 =? 0)%float eqn:Hz; [reflexivity |].
    exfalso. apply Hout. apply nonzero_spec. now split.
  - intros X y s s' Hpost Hfit.
    apply fit_ok_inv in Hfit as (beta & lambd & psi & s1 & _ & Halg & ->).
    apply rlasso_algorithm_rounds in Halg. rewrite Hpost in Halg.
    exact Halg.
Qed.

Lemma C2_refit_inside_every_solve_witness :
  let Xc := center_columns Example.X2 in
  let yc := center Example.y2 in
  let psi := np.diag [PrimFloat.sqrt 1.25; 1]%float in
  let s := start (Example.rlasso []) in
  let s' := fst (@RlassoBase_cvxpy_solve Example.oracles Xc yc 5 psi 4 s) in
  let beta := [0.88000000000000012; 0]%float in
  let fitted := fst (@fit Example.oracles Example.X2 Example.y2 s) in
  (trace s' = trace s ++ [EvSolve; EvPostOLS]
   /\ exists rounded X_sub post_beta,
       snd (@cvxpy_solve_rounded Example.oracles Xc yc 5 psi 4 s) = Ok rounded
       /\ np.take_cols Xc (np.nonzero rounded) = Ok X_sub
       /\ @ols Example.oracles X_sub yc = Ok post_beta
       /\ length beta = length rounded
       /\ (forall j, (j < length rounded)%nat ->
                     ~ In j (np.nonzero rounded) ->
                     (nth j rounded 0 =? 0)%float = true
                     /\ nth j beta 0%float = nth j rounded 0%float)
       /\ (length post_beta = length (np.nonzero rounded) ->
           forall k, (k < length post_beta)%nat ->
                     nth (nth k (np.nonzero rounded) O) beta 0%float
                     = nth k post_beta 0%float))
  /\ exists k,
      trace fitted = trace s ++ (if single_solve (self s) then [] else [EvPilotOLS])
                             ++ solve_refit_rounds k
      /\ if single_solve (self s) then k = 1%nat
         else (k <= Z.to_nat (max_iter (self s)))%nat.
Proof.
  split.
  - apply (@C2_refit_inside_every_solve Example.oracles).
    + reflexivity.
    + vm_compute. reflexivity.
  - refine (proj2 (@C2_refit_inside_every_solve Example.oracles)
                  Example.X2 Example.y2 _ _ _ _).
    + reflexivity.
    + vm_compute. reflexivity.
Defined.

(** The default estimator, [post] set and [max_iter = 2], on the example
    with two regressors: [fit] refits twice, each time right after a
    solve, on the support of that solve (the first column); and with
    [max_iter = 0] it refits not at all. *)
Lemma C2_refit_runs_with_every_solve :
  let s := start (Example.rlasso []) in
  let r := @fit Example.oracles Example.X2 Example.y2 s in
  let s0 := start (Example.rlasso [("max_iter", PyInt 0)]) in
  post (self s) = true
  /\ max_iter (self s) = 2
  /\ snd r = Ok tt
  /\ trace (fst r) = [EvPilotOLS; EvSolve; EvPostOLS; EvSolve; EvPostOLS]
  /\ coef_ (self (fst r)) = Some [0.88000000000000012; 0]%float
  /\ post (self s0) = true
  /\ @fit Example.oracles Example.X2 Example.y2 s0
     = ({| self := self (fst (@fit Example.oracles Example.X2 Example.y2 s0));
           trace := [EvPilotOLS]; rng := O |}, Ok tt).
Proof. vm_compute. repeat split; reflexivity. Qed.

(** One call of [_cvxpy_solve] on the centered example, with [post] set
    and without: the refit replaces the shrunken coefficient of the first
    column by its OLS value and leaves the second at zero. *)
Example cvxpy_solve_refits_the_support :
  let Xc := center_columns Example.X2 in
  let yc := center Example.y2 in
  let psi := np.diag [PrimFloat.sqrt 1.25; 1]%float in
  snd (@RlassoBase_cvxpy_solve Example.oracles Xc yc 5 psi 4
         (start (Example.rlasso [("post", PyBool false)])))
  = Ok [0.32098300562505261; 0]%float
  /\ @RlassoBase_cvxpy_solve Example.oracles Xc yc 5 psi 4 (start (Example.rlasso []))
     = ({| self := Example.rlasso []; trace := [EvSolve; EvPostOLS]; rng := O |},
        Ok [0.88000000000000012; 0]%float).
Proof. vm_compute. split; reflexivity. Qed.

(* ================================================================= *)
(** * Further properties of the estimators *)

(** [predict] reads the estimator and changes nothing: called again on the
    same input it gives the same outcome. *)
Theorem predict_leaves_the_estimator (X : matrix) (s : state) :
  fst (predict X s) = s
  /\ predict X (fst (predict X s)) = predict X s.
Proof.
  assert (H : fst (predict X s) = s).
  { unfold predict, bind, get_self, lift, raise, ret.
    destruct (coef_ (self s)); [| reflexivity].
    destruct (check_array X); [| reflexivity].
    destruct (np.matvec _ _); [| reflexivity].
    destruct (fit_intercept (self s)); [| reflexivity].
    now destruct (intercept_ (self s)). }
  split; [exact H | now rewrite H].
Qed.

(** [predict] on an estimator that was never fitted raises
    [NotFittedError]. *)
Theorem predict_before_fit (X : matrix) (s : state) :
  coef_ (self s) = None -> predict X s = (s, Raise NotFittedError).
Proof. intros H. unfold predict, bind, get_self, raise. now rewrite H. Qed.

Lemma predict_before_fit_witness :
  predict Example.X (start (Example.rlasso []))
  = (start (Example.rlasso []), Raise NotFittedError).
Proof. apply predict_before_fit. reflexivity. Defined.

(** [fit] on a response that has not one entry per row of the design
    raises [ValueError] and leaves the estimator as it was. *)
Theorem fit_rejects_inconsistent_lengths
        {oracles : Oracles} (X : matrix) (y : vec) (s : state) :
  length y <> length X -> fit X y s = (s, Raise ValueError).
Proof.
  intros Hlen. unfold fit, bind, lift.
  assert (Hc : check_X_y X y = Raise ValueError).
  { unfold check_X_y. destruct (check_array X) as [Xv | e] eqn:HX; simpl.
    - apply check_array_ok in HX as ->.
      destruct (Nat.eqb_spec (length y) (length X)) as [Heq | _];
        [contradiction |].
      now rewrite andb_false_r.
    - unfold check_array in HX. destruct X as [| row X']; [now inversion HX |].
      destruct (_ && _); now inversion HX. }
  now rewrite Hc.
Qed.

Lemma fit_rejects_inconsistent_lengths_witness :
  @fit Example.oracles Example.X [1; 2]%float (start (Example.rlasso []))
  = (start (Example.rlasso []), Raise ValueError).
Proof. apply fit_rejects_inconsistent_lengths. simpl. lia. Defined.

(** [np.diag] puts nothing off the diagonal. *)
Lemma diag_off_diagonal v i j :
  i <> j -> nth j (nth i (np.diag v) []) 0%float = 0%float.
Proof.
  intros Hij. unfold np.diag.
  destruct (Nat.lt_ge_cases i (length v)) as [Hi | Hi].
  - set (row := fun i => map (fun j => if Nat.eqb i j then nth i v 0%float else 0%float)
                             (seq 0 (length v))).
    rewrite (@nth_indep vec _ _ [] (row O)) by (now rewrite length_map, length_seq).
    change (map _ (seq 0 (length v))) with (map row (seq 0 (length v))).
    rewrite map_nth, seq_nth by exact Hi. simpl. unfold row.
    destruct (Nat.lt_ge_cases j (length v)) as [Hj | Hj].
    + set (g := fun j => if Nat.eqb i j then nth i v 0%float else 0%float).
      rewrite (nth_indep _ 0%float (g O)) by (now rewrite length_map, length_seq).
      rewrite map_nth, seq_nth by exact Hj. simpl. unfold g.
      destruct (Nat.eqb_spec i j); [contradiction | reflexivity].
    + apply nth_overflow. now rewrite length_map, length_seq.
  - rewrite (@nth_overflow vec _ _ []) by (now rewrite length_map, length_seq).
    now destruct j.
Qed.

(** The loadings either variant returns are a diagonal matrix: every
    entry off the diagonal is [0.0]. *)
Theorem loadings_are_diagonal
        (self : estimator) (X : matrix) (n : Z) (resid : option vec)
        (psi : matrix) (i j : nat) :
  Rlasso_penalty_loadings self X n resid = Ok psi
  \/ SqrtRlasso_penalty_loadings self X n resid = Ok psi ->
  i <> j ->
  nth j (nth i psi []) 0%float = 0%float.
Proof.
  intros H Hij.
  assert (Hd : exists v, psi = np.diag v).
  { destruct H as [H | H].
    - unfold Rlasso_penalty_loadings in H.
      destruct (cov_type self =? "robust")%string, resid as [r |];
        try (destruct (cov_type self =? "cluster")%string; [discriminate |];
             inversion H; eauto).
      apply rbind_inv_ok in H as (Xe2 & _ & H). inversion H. eauto.
    - unfold SqrtRlasso_penalty_loadings in H.
      destruct (cov_type self =? "nonrobust")%string; [inversion H; eauto |].
      destruct (cov_type self =? "robust")%string, resid as [r |];
        try discriminate.
      apply rbind_inv_ok in H as (Xe2 & _ & H). inversion H. eauto. }
  destruct Hd as [v ->]. now apply diag_off_diagonal.
Qed.

Lemma loadings_are_diagonal_witness :
  nth 1 (nth 0 (np.diag (np.vsqrt (np.mean_axis0 (np.msq Example.X2)))) []) 0%float
  = 0%float.
Proof.
  apply (@loadings_are_diagonal (Example.rlasso []) Example.X2 4 None
           (np.diag (np.vsqrt (np.mean_axis0 (np.msq Example.X2)))) 0 1).
  - left. reflexivity.
  - discriminate.
Defined.

(** [SqrtRlasso._penalty_level] with [x_dependent] set raises
    [NotImplementedError], for at least one regressor. *)
Theorem SqrtRlasso_x_dependent_not_implemented
        {oracles : Oracles} (n p : Z) (s : state) :
  x_dependent (self s) = true ->
  0 < p ->
  snd (SqrtRlasso_penalty_level n p s) = Raise NotImplementedError.
Proof.
  intros Hx _. unfold SqrtRlasso_penalty_level, default_gamma, bind, get_self,
    update_self, ret, raise.
  destruct (gamma (self s)); simpl; now rewrite Hx.
Qed.

Lemma SqrtRlasso_x_dependent_not_implemented_witness :
  snd (@SqrtRlasso_penalty_level Example.oracles 4 2
         (start (Example.sqrt_rlasso [("x_dependent", PyBool true)])))
  = Raise NotImplementedError.
Proof.
  apply SqrtRlasso_x_dependent_not_implemented; [reflexivity | lia].
Defined.

(** A returned [fit] ran at most [max_iter] solves, one exactly for the
    estimators that fit with a single solve. *)
Theorem fit_solves_at_most_max_iter
        {oracles : Oracles} (X : matrix) (y : vec) (s s' : state) :
  fit X y s = (s', Ok tt) ->
  exists k,
    solves (trace s') = (solves (trace s) + k)%nat
    /\ if single_solve (self s) then k = 1%nat
       else (k <= Z.to_nat (max_iter (self s)))%nat.
Proof.
  intros Hfit.
  apply fit_ok_inv in Hfit as (beta & lambd & psi & s1 & _ & Halg & ->).
  apply rlasso_algorithm_rounds in Halg as (k & Htr & Hk).
  exists k. split; [| exact Hk]. simpl. rewrite Htr.
  rewrite !solves_app, solves_rounds.
  destruct (single_solve (self s)); simpl; lia.
Qed.

Lemma fit_solves_at_most_max_iter_witness :
  let s := start (Example.rlasso [("post", PyBool false)]) in
  let s' := fst (@fit Example.oracles Example.X2 Example.y2 s) in
  exists k,
    solves (trace s') = (solves (trace s) + k)%nat
    /\ if single_solve (self s) then k = 1%nat
       else (k <= Z.to_nat (max_iter (self s)))%nat.
Proof.
  apply (@fit_solves_at_most_max_iter Example.oracles Example.X2 Example.y2).
  vm_compute. reflexivity.
Defined.

Lemma SqrtRlasso_penalty_level_n_iter_ {oracles : Oracles} n p :
  keeps (fun s s' => n_iter_ (self s') = n_iter_ (self s))
        (SqrtRlasso_penalty_level n p).
Proof.
  apply keeps_unless_never, ku_SqrtRlasso_penalty_level.
  - reflexivity.
  - intros s1 s2 s3 H1 H2. congruence.
  - intros s. left. unfold default_gamma, bind, get_self.
    now destruct (gamma (self s)).
Qed.

(** After a returned [fit] of [SqrtRlasso] with a covariance type other
    than nonrobust, [n_iter_] is the number of solves that ran, at most
    [max_iter]. *)
Theorem SqrtRlasso_n_iter_counts_the_solves
        {oracles : Oracles} (X : matrix) (y : vec) (s s' : state) :
  class_of (self s) = SqrtRlasso ->
  (cov_type (self s) =? "nonrobust")%string = false ->
  fit X y s = (s', Ok tt) ->
  exists k,
    n_iter_ (self s') = Some (Some (Z.of_nat k))
    /\ (k <= Z.to_nat (max_iter (self s)))%nat
    /\ solves (trace s') = (solves (trace s) + k)%nat.
Proof.
  intros Hcls Hcov Hfit.
  apply fit_ok_inv in Hfit as (beta & lambd & psi & s1 & _ & H & ->).
  rewrite Hcls in H. cbn [rlasso_algorithm] in H.
  unfold SqrtRlasso_rlasso_algorithm in H.
  inv_self H. rewrite Hcov in H.
  inv_bind H. destruct a as [beta0 resid0].
  apply pilot_ok_inv in Hstep. subst s0.
  inv_bind H. unfold update_self in Hstep. inversion Hstep; subst. clear Hstep.
  inv_bind H.
  pose proof (SqrtRlasso_penalty_level_n_iter_ (np.nrows
     (if fit_intercept (self s) then center_columns X else X))
     (np.ncols (if fit_intercept (self s) then center_columns X else X))
     {| self := set_n_iter_ (Some 0) (self s);
        trace := trace s ++ [EvPilotOLS]; rng := rng s |}) as Hn.
  rewrite Hstep in Hn. cbn [fst self] in Hn.
  apply SqrtRlasso_penalty_level_quiet in Hstep as (Ht & Hp & Hm).
  inv_self H. inv_bind H. destruct a0 as [b ps].
  apply SqrtRlasso_robust_loop_rounds with (b := post (self s0)) in Hstep
    as (k & Hk & Htr & Hcount); [| reflexivity].
  inversion H; subst. exists k. cbn [self trace] in *.
  change (max_iter (set_n_iter_ (Some 0) (self s))) with (max_iter (self s)) in Hm.
  rewrite Hm in Hk.
  repeat split.
  - change (n_iter_ (self s1) = Some (Some (0 + Z.of_nat k))).
    apply Hcount. exact Hn.
  - exact Hk.
  - rewrite Htr, Ht, !solves_app, solves_rounds. simpl. lia.
Qed.

(** The robust square-root estimator on the example with two regressors,
    five iterations allowed: the loop solves twice, counts both solves and
    leaves at the third iteration, where the loadings have not moved. *)
Lemma SqrtRlasso_n_iter_counts_the_solves_witness :
  let s := start (Example.sqrt_rlasso [("cov_type", PyStr "robust");
                                       ("max_iter", PyInt 5)]) in
  let s' := fst (@fit SqrtExample.oracles Example.X2 Example.y2 s) in
  (exists k,
      n_iter_ (self s') = Some (Some (Z.of_nat k))
      /\ (k <= Z.to_nat (max_iter (self s)))%nat
      /\ solves (trace s') = (solves (trace s) + k)%nat)
  /\ n_iter_ (self s') = Some (Some 2)
  /\ trace s' = [EvPilotOLS; EvSolve; EvPostOLS; EvSolve; EvPostOLS]
  /\ n_iter_ (self s) = None.
Proof.
  split.
  - apply (@SqrtRlasso_n_iter_counts_the_solves SqrtExample.oracles
             Example.X2 Example.y2).
    + reflexivity.
    + reflexivity.
    + vm_compute. reflexivity.
  - vm_compute. repeat split; reflexivity.
Defined.

(** ** The examples, run *)

(** The criterion at the solution the example solver returns is below its
    value at zero and at the pilot's least-squares coefficients. *)
Example solver_lowers_the_criterion :
  let Xc := center_columns Example.X2 in
  let yc := center Example.y2 in
  let psi := np.diag [PrimFloat.sqrt 1.25; 1]%float in
  let criterion := Rlasso_criterion_function Xc yc 5 psi 4 in
  @cvx_solve Example.oracles criterion 2 []
  = Ok (optimal, Some [0.32098300562505261; 0]%float)
  /\ (objective_value criterion [0.32098300562505261; 0]
      <? objective_value criterion [0; 0])%float = true
  /\ (objective_value criterion [0.32098300562505261; 0]
      <? objective_value criterion [1; 0.29999999999999993])%float = true.
Proof. vm_compute. repeat split; reflexivity. Qed.

(** The same for the solver of the unsquared loss: the criterion of
    [SqrtRlasso] at its solution is below its value at zero, at the
    least-squares coefficients and at the neighbouring points in either
    coordinate. *)
Example sqrt_solver_lowers_the_criterion :
  let Xc := center_columns Example.X2 in
  let yc := center Example.y2 in
  let criterion := SqrtRlasso_criterion_function Xc yc 1 (np.diag [1; 1]%float) 4 in
  let b0 := 0.78995798739579848%float in
  let b1 := 0.054950985295098176%float in
  @cvx_solve SqrtExample.oracles criterion 2 [] = Ok (optimal, Some [b0; b1])
  /\ (objective_value criterion [b0; b1] <? objective_value criterion [0; 0])%float
     = true
  /\ (objective_value criterion [b0; b1]
      <? objective_value criterion [1; 0.29999999999999993])%float = true
  /\ (objective_value criterion [b0; b1]
      <? objective_value criterion [b0 + 0.001; b1])%float = true
  /\ (objective_value criterion [b0; b1]
      <? objective_value criterion [b0 - 0.001; b1])%float = true
  /\ (objective_value criterion [b0; b1]
      <? objective_value criterion [b0; b1 + 0.001])%float = true
  /\ (objective_value criterion [b0; b1]
      <? objective_value criterion [b0; b1 - 0.001])%float = true.
Proof. vm_compute. repeat split; reflexivity. Qed.

(** [RlassoPenalty.fit] on the four rows of the example: the one place
    where the default of [gamma] is [0.1 / sqrt(n)]. *)
Example RlassoPenalty_default_gamma :
  gamma (self (fst (RlassoPenalty_fit Example.X Example.y
                                      (start (Example.rlasso [])))))
  = Some 0.05%float.
Proof. vm_compute. reflexivity. Qed.

(** The robust estimator on the example with two regressors: the penalty
    level is computed once, the loadings in every round. *)
Example robust_fit_example :
  let r := @fit Example.oracles Example.X2 Example.y2
                (start (Example.rlasso [("cov_type", PyStr "robust")])) in
  snd r = Ok tt
  /\ trace (fst r) = [EvPilotOLS; EvSolve; EvPostOLS; EvSolve; EvPostOLS]
  /\ lambd_ (self (fst r)) = Some (2 * 1.1 * 2 * 2.0961670359997577)%float
  /\ gamma (self (fst r)) = Some (0.1 / 1.3862943611198906)%float.
Proof. vm_compute. repeat split; reflexivity. Qed.

(* ================================================================= *)
(** * The shapes of the pilot and of the refit *)

(** ** Arrays with rows of one length *)

Lemma rows_of_length_forallb k A :
  rows_of_length k A -> forallb (fun row => Nat.eqb (length row) k) A = true.
Proof.
  intros H. apply forallb_forall. intros row Hin.
  apply Nat.eqb_eq. unfold rows_of_length in H. rewrite Forall_forall in H. auto.
Qed.

Lemma check_array_rows X Xv :
  check_array X = Ok Xv ->
  X <> [] /\ (0 < length (hd [] X))%nat /\ rows_of_length (length (hd [] X)) X.
Proof.
  unfold check_array. destruct X as [| row X']; [discriminate |].
  destruct (negb (Nat.eqb (length row) 0)) eqn:H0; [| discriminate].
  destruct (forallb (fun r => Nat.eqb (length r) (length row)) (row :: X')) eqn:Hr;
    [| discriminate].
  intros _. split; [discriminate |]. split.
  - simpl. apply negb_true_iff, Nat.eqb_neq in H0. lia.
  - apply Forall_forall. intros r Hin.
    rewrite forallb_forall in Hr. now apply Nat.eqb_eq, Hr.
Qed.

Lemma matvec_rows A v :
  rows_of_length (length v) A ->
  np.matvec A v = Ok (map (fun row => np.dot row v) A).
Proof. intros H. unfold np.matvec. now rewrite rows_of_length_forallb. Qed.

Lemma matvec_mismatch A v :
  A <> [] -> rows_of_length (length (hd [] A)) A ->
  length (hd [] A) <> length v ->
  np.matvec A v = Raise ValueError.
Proof.
  intros HA Hrows Hne. unfold np.matvec.
  destruct A as [| row A']; [contradiction |]. simpl in *.
  destruct (Nat.eqb_spec (length row) (length v)); [contradiction | reflexivity].
Qed.

Lemma transpose_rows A : rows_of_length (length A) (np.transpose A).
Proof.
  unfold np.transpose. apply Forall_forall. intros c Hin.
  apply in_map_iff in Hin as (k & <- & _). unfold np.col. apply length_map.
Qed.

(** The first row of a transpose with at least one row is a column. *)
Lemma transpose_row_length A B row :
  np.transpose A = row :: B -> length row = length A.
Proof.
  intros H. pose proof (transpose_rows A) as Hr. rewrite H in Hr.
  now inversion Hr.
Qed.

Lemma matmul_rows A B :
  rows_of_length (length B) A ->
  exists C, np.matmul A B = Ok C /\ length C = length A
            /\ rows_of_length (length (hd [] B)) C.
Proof.
  intros H. unfold np.matmul. rewrite rows_of_length_forallb by exact H.
  eexists. split; [reflexivity |]. split; [apply length_map |].
  apply Forall_forall. intros r Hin. apply in_map_iff in Hin as (row & <- & _).
  now rewrite length_map, transpose_length.
Qed.

Lemma take_cols_rows p X idx :
  rows_of_length p X -> (forall k, In k idx -> (k < p)%nat) ->
  exists X_top, np.take_cols X idx = Ok X_top /\ length X_top = length X
                /\ rows_of_length (length idx) X_top.
Proof.
  intros Hrows Hidx. unfold np.take_cols.
  assert (Hall : forallb (fun row => forallb (fun k => Nat.ltb k (length row)) idx) X
                 = true).
  { apply forallb_forall. intros row Hin. apply forallb_forall. intros k Hk.
    unfold rows_of_length in Hrows. rewrite Forall_forall in Hrows.
    rewrite (Hrows row Hin). apply Nat.ltb_lt. auto. }
  rewrite Hall. eexists. split; [reflexivity |]. split; [apply length_map |].
  apply Forall_forall. intros r Hin. apply in_map_iff in Hin as (row & <- & _).
  apply length_map.
Qed.

Lemma rows_of_length_hd k A : rows_of_length k A -> A <> [] -> length (hd [] A) = k.
Proof. intros H HA. destruct A; [contradiction |]. now inversion H. Qed.

Lemma rows_of_length_center_columns X :
  rows_of_length (length (hd [] X)) X ->
  rows_of_length (length (hd [] (center_columns X))) (center_columns X).
Proof.
  intros H.
  assert (Hc : Z.of_nat (length (hd [] (center_columns X)))
               = Z.of_nat (length (hd [] X))) by apply ncols_center_columns.
  apply Nat2Z.inj in Hc. rewrite Hc.
  unfold center_columns. apply Forall_forall. intros r Hin.
  apply in_map_iff in Hin as (row & <- & Hrow).
  unfold rows_of_length in H. rewrite Forall_forall in H.
  rewrite length_map, length_combine. unfold np.mean_axis0.
  rewrite length_map, transpose_length, (H row Hrow). apply Nat.min_id.
Qed.

Lemma rows_of_length_own k A :
  rows_of_length k A -> rows_of_length (length (hd [] A)) A.
Proof.
  unfold rows_of_length. intros H.
  destruct A as [| row A']; [apply Forall_nil |].
  cbn [hd]. inversion H; subst. exact H.
Qed.

(** ** The columns the pilot takes *)

Lemma insert_index_In r i l x :
  In x (np.insert_index r i l) <-> x = i \/ In x l.
Proof.
  induction l as [| j l IH]; simpl.
  - intuition.
  - destruct (np.before _ _); simpl; [rewrite IH |]; intuition.
Qed.

Lemma insert_index_NoDup r i l :
  ~ In i l -> NoDup l -> NoDup (np.insert_index r i l).
Proof.
  induction l as [| j l IH]; simpl; intros Hni Hnd.
  - constructor; [intros [] | constructor].
  - inversion Hnd as [| ? ? Hj Hl]; subst.
    destruct (np.before _ _).
    + constructor.
      * rewrite insert_index_In. intros [-> | Hin]; [apply Hni; now left | contradiction].
      * apply IH; [intros Hin; apply Hni; now right | exact Hl].
    + constructor; [exact Hni | exact Hnd].
Qed.

(** [np.argsort] lists every index once. *)
Lemma argsort_from r a k :
  (forall x, In x (fold_right (np.insert_index r) [] (seq a k))
             <-> (a <= x < a + k)%nat)
  /\ NoDup (fold_right (np.insert_index r) [] (seq a k)).
Proof.
  revert a. induction k as [| k IH]; intros a; simpl.
  - split; [intros x; split; [contradiction | lia] | constructor].
  - destruct (IH (S a)) as [Hin Hnd]. split.
    + intros x. rewrite insert_index_In, Hin. lia.
    + apply insert_index_NoDup; [rewrite Hin; lia | exact Hnd].
Qed.

Lemma skipn_incl {A} n (l : list A) x : In x (skipn n l) -> In x l.
Proof. intros H. rewrite <- (firstn_skipn n l). apply in_or_app. now right. Qed.

Lemma skipn_keeps_NoDup {A} n (l : list A) : NoDup l -> NoDup (skipn n l).
Proof.
  intros H. rewrite <- (firstn_skipn n l) in H. now apply NoDup_app_remove_l in H.
Qed.

Lemma top_columns_in_range n_corr r k :
  In k (top_columns n_corr r) -> (k < length r)%nat.
Proof.
  unfold top_columns, np.slice_from, np.argsort. intros H.
  apply skipn_incl in H. apply (argsort_from r 0 (length r)) in H. lia.
Qed.

(** The slice [np.argsort(r)[-n_corr:]] holds distinct column indices of
    [r]: the last [n_corr] of them for a positive [n_corr], but all of
    them for [n_corr = 0], and all but the first [k] for [n_corr = -k]. *)
Theorem pilot_columns_are_distinct_and_in_range (n_corr : Z) (r : vec) :
  NoDup (top_columns n_corr r)
  /\ (forall k, In k (top_columns n_corr r) -> (k < length r)%nat)
  /\ Z.of_nat (length (top_columns n_corr r))
     = (if 1 <=? n_corr then Z.min n_corr (Z.of_nat (length r))
        else Z.max (Z.of_nat (length r) + n_corr) 0).
Proof.
  split; [| split].
  - unfold top_columns, np.slice_from, np.argsort.
    apply skipn_keeps_NoDup, (argsort_from r 0 (length r)).
  - intros k. apply top_columns_in_range.
  - unfold top_columns, np.slice_from.
    rewrite length_skipn, argsort_length.
    destruct (Z.leb_spec 1 n_corr), (Z.ltb_spec (- n_corr) 0); lia.
Qed.

(** ** Least squares returns wherever the inverse does *)

Section Shapes.
Context {oracles : Oracles}.
Hypothesis inv_shape : inv_keeps_shape oracles.

Lemma ols_returns A y :
  rows_of_length (length (hd [] A)) A ->
  length y = length A ->
  (exists beta, ols A y = Ok beta /\ length beta = length (hd [] A))
  \/ (exists G e, linalg_inv G = Raise e /\ ols A y = Raise e).
Proof.
  intros Hrows Hy. unfold ols.
  destruct (@matmul_rows _ _ (transpose_rows A)) as (G & HG & HlenG & _).
  rewrite HG. cbn [rbind]. rewrite transpose_length in HlenG.
  destruct (linalg_inv G) as [Ginv | e] eqn:Hinv; cbn [rbind];
    [| right; now exists G, e].
  apply inv_shape in Hinv as [HlenGinv HrowsGinv].
  assert (HrowsGinv' : rows_of_length (length (np.transpose A)) Ginv).
  { now rewrite transpose_length, <- HlenG. }
  destruct (@matmul_rows _ _ HrowsGinv') as (H & HH & HlenH & HrowsH).
  rewrite HH. cbn [rbind]. left.
  assert (HrowsH' : rows_of_length (length y) H).
  { destruct (np.transpose A) as [| row B] eqn:Ht.
    - rewrite <- transpose_length, Ht in HlenG. simpl in HlenG.
      assert (H = []) as -> by (apply length_zero_iff_nil; lia).
      constructor.
    - cbn [hd] in HrowsH.
      assert (E : length row = length A) by exact (@transpose_row_length _ _ _ Ht).
      now rewrite Hy, <- E. }
  rewrite (@matvec_rows _ _ HrowsH'). eexists. split; [reflexivity |].
  rewrite length_map. lia.
Qed.

(** *** The pilot *)

Lemma pilot_fit_returns n_corr X y :
  rows_of_length (length (hd [] X)) X ->
  length y = length X ->
  (exists beta0 resid0, pilot_fit n_corr X y = Ok (beta0, resid0))
  \/ (exists e, correlations X y (seq 0 (length (hd [] X))) = Raise e
                /\ pilot_fit n_corr X y = Raise e)
  \/ (exists G e, linalg_inv G = Raise e /\ pilot_fit n_corr X y = Raise e).
Proof.
  intros Hrows Hy. unfold pilot_fit, np.ncols. rewrite Nat2Z.id.
  destruct (correlations X y (seq 0 (length (hd [] X)))) as [r | e] eqn:Hr;
    cbn [rbind]; [| right; left; now exists e].
  apply correlations_length in Hr. rewrite length_seq in Hr.
  destruct (@take_cols_rows (length (hd [] X)) X (top_columns n_corr r) Hrows)
    as (X_top & Htop & Hlen & Hrows_top).
  { intros k Hk. apply top_columns_in_range in Hk. lia. }
  rewrite Htop. cbn [rbind].
  apply rows_of_length_own in Hrows_top.
  assert (Hy_top : length y = length X_top) by (rewrite Hlen; exact Hy).
  destruct (@ols_returns X_top y Hrows_top Hy_top)
    as [(beta0 & Hols & Hbeta) | (G & e & HG & Hols)];
    [| right; right; exists G, e; now rewrite Hols].
  rewrite Hols. cbn [rbind]. rewrite <- Hbeta in Hrows_top.
  rewrite (@matvec_rows _ _ Hrows_top). cbn [rbind].
  unfold np.vsub, np.broadcast. rewrite length_map.
  assert (E : Nat.eqb (length y) (length X_top) = true)
    by (apply Nat.eqb_eq; congruence).
  rewrite E. cbn [rbind]. left. eauto.
Qed.

(** *** The refit *)

Lemma post_ols_returns beta X y :
  X <> [] ->
  rows_of_length (length beta) X ->
  length y = length X ->
  (exists post_beta,
      RlassoPenalty._post_ols beta X y
      = Ok (np.assign (np.nonzero beta) post_beta beta)
      /\ length post_beta = length (np.nonzero beta))
  \/ (exists G e, linalg_inv G = Raise e
                  /\ RlassoPenalty._post_ols beta X y = Raise e).
Proof.
  intros HX Hrows Hy. unfold RlassoPenalty._post_ols.
  destruct (@take_cols_rows (length beta) X (np.nonzero beta) Hrows)
    as (X_sub & Hsub & Hlen & Hrows_sub).
  { intros k Hk. now apply nonzero_spec in Hk. }
  rewrite Hsub. cbn [rbind].
  assert (Hcols : length (hd [] X_sub) = length (np.nonzero beta)).
  { apply rows_of_length_hd; [exact Hrows_sub |].
    intros ->. destruct X; [contradiction | discriminate]. }
  apply rows_of_length_own in Hrows_sub.
  assert (Hy_sub : length y = length X_sub) by (rewrite Hlen; exact Hy).
  destruct (@ols_returns X_sub y Hrows_sub Hy_sub)
    as [(post_beta & Hols & Hpost) | (G & e & HG & Hols)];
    [| right; exists G, e; now rewrite Hols].
  rewrite Hols. cbn [rbind]. left. exists post_beta.
  split; [| congruence].
  unfold np.set_at.
  assert (Hin : forallb (fun i => Nat.ltb i (length beta)) (np.nonzero beta) = true).
  { apply forallb_forall. intros i Hi. apply Nat.ltb_lt. now apply nonzero_spec in Hi. }
  rewrite Hin. cbn [negb].
  assert (E : Nat.eqb (length post_beta) (length (np.nonzero beta)) = true)
    by (apply Nat.eqb_eq; congruence).
  now rewrite E.
Qed.
End Shapes.

(** The inverse of the examples has the shape of its argument. *)
Lemma inv_small_keeps_shape : inv_keeps_shape Example.oracles.
Proof.
  intros G Ginv H. change (Example.inv_small G = Ok Ginv) in H.
  unfold Example.inv_small in H.
  repeat match type of H with
         | match ?x with _ => _ end = Ok _ => destruct x; try discriminate
         | (if ?b then _ else _) = Ok _ => destruct b; try discriminate
         end;
    inversion H; subst; split; try reflexivity; repeat constructor.
Qed.

Lemma inv_small_keeps_shape' : inv_keeps_shape PenaltyExample.oracles.
Proof. exact inv_small_keeps_shape. Qed.

(** On a design with rows of one length and a response with one entry per
    row, the pilot regression ends in one of three ways: it returns, or it
    raises what [pearsonr] raised on a column, or what [np.linalg.inv]
    raised.  Nothing of its own (the column selection, the products, the
    residual) can fail. *)
Theorem pilot_fails_only_in_the_libraries
        {oracles : Oracles} (n_corr : Z) (X : matrix) (y : vec) :
  inv_keeps_shape oracles ->
  rows_of_length (length (hd [] X)) X ->
  length y = length X ->
  (exists beta0 resid0, pilot_fit n_corr X y = Ok (beta0, resid0))
  \/ (exists e, correlations X y (seq 0 (length (hd [] X))) = Raise e
                /\ pilot_fit n_corr X y = Raise e)
  \/ (exists G e, linalg_inv G = Raise e /\ pilot_fit n_corr X y = Raise e).
Proof. intros Hinv. now apply pilot_fit_returns. Qed.

Lemma pilot_fails_only_in_the_libraries_witness :
  (exists beta0 resid0,
      @pilot_fit Example.oracles 5 PenaltyExample.X0 Example.y = Ok (beta0, resid0))
  \/ (exists e,
         @correlations Example.oracles PenaltyExample.X0 Example.y
                       (seq 0 (length (hd [] PenaltyExample.X0))) = Raise e
         /\ @pilot_fit Example.oracles 5 PenaltyExample.X0 Example.y = Raise e)
  \/ (exists G e,
         @linalg_inv Example.oracles G = Raise e
         /\ @pilot_fit Example.oracles 5 PenaltyExample.X0 Example.y = Raise e).
Proof.
  apply (@pilot_fails_only_in_the_libraries Example.oracles 5 PenaltyExample.X0 Example.y).
  - exact inv_small_keeps_shape.
  - repeat constructor.
  - reflexivity.
Defined.

(** The pilot on the design with a column of zeros: the inverse raises. *)
Example pilot_on_a_singular_design :
  @pilot_fit Example.oracles 5 PenaltyExample.X0 Example.y = Raise LinAlgError
  /\ is_ok (@pilot_fit Example.oracles 5 Example.X2 Example.y2) = true.
Proof. vm_compute. split; reflexivity. Qed.

(** [RlassoPenalty._post_ols] and the refit inside
    [RlassoBase._cvxpy_solve] are the same computation.  On a design with
    one column per coefficient and a response with one entry per row it
    can fail in the inverse only; where it returns, the vector has the
    length of [beta] and every zero of [beta] is still in place. *)
Theorem post_ols_keeps_the_zeros
        {oracles : Oracles} (beta : vec) (X : matrix) (y : vec) (s : state) :
  inv_keeps_shape oracles ->
  X <> [] ->
  rows_of_length (length beta) X ->
  length y = length X ->
  snd (post_ols_refit X y beta s) = RlassoPenalty._post_ols beta X y
  /\ ((exists b, RlassoPenalty._post_ols beta X y = Ok b
                 /\ length b = length beta
                 /\ forall j, (nth j beta 0 =? 0)%float = true ->
                              nth j b 0%float = nth j beta 0%float)
      \/ (exists G e, linalg_inv G = Raise e
                      /\ RlassoPenalty._post_ols beta X y = Raise e)).
Proof.
  intros Hinv HX Hrows Hy. split.
  - unfold post_ols_refit, RlassoPenalty._post_ols, bind, log, lift. simpl.
    destruct (np.take_cols X (np.nonzero beta)) as [X_sub | e]; [| reflexivity].
    simpl. destruct (ols X_sub y) as [post_beta | e]; reflexivity.
  - destruct (@post_ols_returns oracles Hinv beta X y HX Hrows Hy)
      as [(post_beta & Hb & Hlen) | Hraise]; [left | now right].
    eexists. split; [exact Hb |]. split; [apply assign_length |].
    intros j Hj. apply assign_other. rewrite nonzero_spec.
    intros [_ Hnz]. congruence.
Qed.

Lemma post_ols_keeps_the_zeros_witness :
  snd (@post_ols_refit Example.oracles Example.X2 Example.y2 [0.5; 0]%float
                       (start (Example.rlasso [])))
  = @RlassoPenalty._post_ols Example.oracles [0.5; 0]%float Example.X2 Example.y2
  /\ ((exists b,
          @RlassoPenalty._post_ols Example.oracles [0.5; 0]%float Example.X2 Example.y2
          = Ok b
          /\ length b = length [0.5; 0]%float
          /\ forall j, (nth j [0.5; 0] 0 =? 0)%float = true ->
                       nth j b 0%float = nth j [0.5; 0]%float 0%float)
      \/ (exists G e,
             @linalg_inv Example.oracles G = Raise e
             /\ @RlassoPenalty._post_ols Example.oracles [0.5; 0]%float
                                         Example.X2 Example.y2 = Raise e)).
Proof.
  apply (@post_ols_keeps_the_zeros Example.oracles [0.5; 0]%float Example.X2 Example.y2).
  - exact inv_small_keeps_shape.
  - discriminate.
  - repeat constructor.
  - reflexivity.
Defined.

(* ================================================================= *)
(** * More on [fit] and [predict] *)

(** ** A fit that raises *)

Lemma same_fit_refl s : same_fit s s.
Proof. unfold same_fit. auto. Qed.

Lemma same_fit_trans s1 s2 s3 : same_fit s1 s2 -> same_fit s2 s3 -> same_fit s1 s3.
Proof. unfold same_fit. intuition congruence. Qed.

(** Nothing before the last assignment of [fit] touches the fitted
    attributes. *)
Lemma algorithm_keeps_the_last_fit {oracles : Oracles} cls X y :
  keeps same_fit (rlasso_algorithm cls X y).
Proof.
  apply keeps_unless_never, ku_rlasso_algorithm with (n0 := np.nrows X);
    first [ exact same_fit_refl
          | exact same_fit_trans
          | reflexivity
          | intros; intros s; left; unfold same_fit; simpl; now auto
          | idtac ].
  - intros X0 y0 lambd psi n s. left.
    rewrite cvxpy_solve_rounded_run. unfold same_fit. simpl. auto.
  - intros s. left. unfold default_gamma, bind, get_self, update_self, ret, same_fit.
    destruct (gamma (self s)); simpl; auto.
Qed.

(** What [predict] answers depends on [coef_], [fit_intercept] and
    [intercept_] only. *)
Lemma predict_reads (X : matrix) (s1 s2 : state) :
  coef_ (self s1) = coef_ (self s2) ->
  fit_intercept (self s1) = fit_intercept (self s2) ->
  intercept_ (self s1) = intercept_ (self s2) ->
  snd (predict X s1) = snd (predict X s2).
Proof.
  intros Hc Hf Hi. unfold predict, bind, get_self, lift, raise, ret.
  rewrite Hc, Hf, Hi.
  destruct (coef_ (self s2)); [| reflexivity].
  destruct (check_array X); [| reflexivity]. simpl.
  destruct (np.matvec _ _); [| reflexivity]. simpl.
  destruct (fit_intercept (self s2)); [| reflexivity].
  now destruct (intercept_ (self s2)).
Qed.

(** A [fit] that raises leaves [coef_], [lambd_] and [psi_] of an earlier
    fit as they were, whatever it got to do before the exception, so
    [predict] goes on answering from the earlier fit. *)
Theorem failed_fit_keeps_the_last_fit
        {oracles : Oracles} (X : matrix) (y : vec) (s s' : state) (e : exn) :
  fit X y s = (s', Raise e) ->
  coef_ (self s') = coef_ (self s)
  /\ lambd_ (self s') = lambd_ (self s)
  /\ psi_ (self s') = psi_ (self s)
  /\ forall X', snd (predict X' s') = snd (predict X' s).
Proof.
  intros Hfit.
  assert (Hsame : same_fit s s').
  { unfold fit, bind, lift, get_self in Hfit.
    destruct (check_X_y X y) as [[Xv yv] | e0]; [| inversion Hfit; apply same_fit_refl].
    pose proof (algorithm_keeps_the_last_fit (class_of (self s))
                  (if fit_intercept (self s) then center_columns Xv else Xv)
                  (if fit_intercept (self s) then center yv else yv) s) as Halg.
    destruct (rlasso_algorithm _ _ _ s) as [s1 [[[beta lambd] psi] | e1]].
    - unfold update_self in Hfit. discriminate.
    - inversion Hfit; subst. exact Halg. }
  pose proof (fit_evolves X y s) as Hev. rewrite Hfit in Hev.
  unfold evolves in Hev. cbn [fst] in Hev.
  destruct Hsame as (Hc & Hl & Hp).
  repeat split; try assumption.
  intros X'. apply predict_reads; tauto.
Qed.

Lemma failed_fit_keeps_the_last_fit_witness :
  let s := start (set_fitted [0.5]%float 0%float [[1]]%float
                             (Example.rlasso [("cov_type", PyStr "cluster")])) in
  let s' := fst (@fit Example.oracles Example.X Example.y s) in
  coef_ (self s') = coef_ (self s)
  /\ lambd_ (self s') = lambd_ (self s)
  /\ psi_ (self s') = psi_ (self s)
  /\ forall X', snd (predict X' s') = snd (predict X' s).
Proof.
  apply (@failed_fit_keeps_the_last_fit Example.oracles Example.X Example.y _ _
           NotImplementedError).
  vm_compute. reflexivity.
Defined.

(** ** [predict] on a fitted estimator *)

(** On a validated input [predict] checks the number of columns against
    the coefficients before it reads the intercept: with another number of
    columns it raises [ValueError]; with the same number and
    [fit_intercept] off it returns the product of every row with the
    coefficients, one prediction per row. *)
Theorem predict_is_the_product_with_the_coefficients
        (X : matrix) (s : state) (coef : vec) :
  coef_ (self s) = Some coef ->
  check_array X = Ok X ->
  (length (hd [] X) <> length coef -> predict X s = (s, Raise ValueError))
  /\ (length (hd [] X) = length coef ->
      fit_intercept (self s) = false ->
      predict X s = (s, Ok (map (fun row => np.dot row coef) X))).
Proof.
  intros Hc HX.
  pose proof (check_array_rows _ HX) as (Hne & _ & Hrows).
  unfold predict, bind, get_self, lift, raise, ret. rewrite Hc, HX. split.
  - intros Hlen. now rewrite matvec_mismatch.
  - intros Hlen Hfi. rewrite Hlen in Hrows.
    now rewrite (@matvec_rows _ _ Hrows), Hfi.
Qed.

Lemma predict_is_the_product_with_the_coefficients_witness :
  let s := start (set_fitted [0.5]%float 0%float [[1]]%float
                             (Example.rlasso [("fit_intercept", PyBool false)])) in
  (length (hd [] Example.X) <> length [0.5]%float ->
   predict Example.X s = (s, Raise ValueError))
  /\ (length (hd [] Example.X) = length [0.5]%float ->
      fit_intercept (self s) = false ->
      predict Example.X s
      = (s, Ok (map (fun row => np.dot row [0.5]%float) Example.X))).
Proof.
  apply (@predict_is_the_product_with_the_coefficients Example.X
           (start (set_fitted [0.5]%float 0%float [[1]]%float
                              (Example.rlasso [("fit_intercept", PyBool false)])))
           [0.5]%float); reflexivity.
Defined.

(** ** The penalty level a fit stores *)

Ltac split_pairs :=
  repeat match goal with
         | x : (_ * _)%type |- _ => destruct x
         end.

Lemma SqrtRlasso_penalty_level_value {oracles : Oracles} n p s :
  snd (SqrtRlasso_penalty_level n p s)
  = if x_dependent (self s) then Raise NotImplementedError
    else Ok (c (self s) * PrimFloat.sqrt (Z2f n)
             * norm_ppf (1 - gamma_used (self s) n / Z2f (2 * p)))%float.
Proof.
  unfold SqrtRlasso_penalty_level, default_gamma, gamma_used, bind, get_self,
    update_self, ret, raise.
  destruct (gamma (self s)); simpl; now destruct (x_dependent (self s)).
Qed.

(** The level of [Rlasso] when no [sigma_hat] is passed, as in the robust
    branch of the algorithm: with [x_dependent] set the call cannot
    return. *)
Lemma Rlasso_penalty_level_value {oracles : Oracles} n p s :
  snd (Rlasso_penalty_level n p None None None s)
  = if x_dependent (self s)
    then Raise (if n_sim (self s) <? 0 then ValueError else TypeError)
    else Ok (2 * c (self s) * PrimFloat.sqrt (Z2f n)
             * norm_ppf (1 - gamma_used (self s) n / Z2f (2 * p)))%float.
Proof.
  unfold Rlasso_penalty_level, default_gamma, gamma_used, bind, get_self,
    update_self, ret, raise, lift.
  destruct (gamma (self s)); simpl;
    destruct (x_dependent (self s)); simpl;
    try (destruct (n_sim (self s) <? 0); simpl);
    try reflexivity;
    now destruct (cov_type (self s) =? "nonrobust")%string.
Qed.

(** Wherever the algorithm computes the penalty level once, before its
    loop ([SqrtRlasso], and [Rlasso] with a covariance type other than
    nonrobust), a [fit] that returns was made with [x_dependent] off and
    stored in [lambd_] the x-independent level for the [n] rows and [p]
    columns of the design, [2 c sqrt(n) ppf(1 - gamma / (2 p))] for
    [Rlasso] and half of it for [SqrtRlasso], whatever the loop did. *)
Theorem fit_stores_the_x_independent_level
        {oracles : Oracles} (X : matrix) (y : vec) (s s' : state) :
  fit X y s = (s', Ok tt) ->
  class_of (self s) = SqrtRlasso \/ (cov_type (self s) =? "nonrobust")%string = false ->
  x_dependent (self s) = false
  /\ lambd_ (self s')
     = Some (match class_of (self s) with
             | Rlasso =>
                 2 * c (self s) * PrimFloat.sqrt (Z2f (np.nrows X))
                 * norm_ppf (1 - gamma_used (self s) (np.nrows X)
                                 / Z2f (2 * np.ncols X))
             | SqrtRlasso =>
                 c (self s) * PrimFloat.sqrt (Z2f (np.nrows X))
                 * norm_ppf (1 - gamma_used (self s) (np.nrows X)
                                 / Z2f (2 * np.ncols X))
             end)%float.
Proof.
  intros Hfit Hcase.
  apply fit_ok_inv in Hfit as (beta & lambd & psi & s1 & _ & H & ->).
  cbn [self lambd_ set_fitted].
  set (X' := if fit_intercept (self s) then center_columns X else X) in *.
  set (y' := if fit_intercept (self s) then center y else y) in *.
  assert (Hn : np.nrows X' = np.nrows X).
  { unfold X'. destruct (fit_intercept (self s)); [apply nrows_center_columns | reflexivity]. }
  assert (Hp : np.ncols X' = np.ncols X).
  { unfold X'. destruct (fit_intercept (self s)); [apply ncols_center_columns | reflexivity]. }
  destruct (class_of (self s)) eqn:Hcls; cbn [rlasso_algorithm] in H.
  - destruct Hcase as [Hcase | Hcov]; [discriminate |].
    unfold Rlasso_rlasso_algorithm in H.
    inv_bind H. split_pairs.
    apply pilot_ok_inv in Hstep. subst s0.
    inv_self H. cbn [self] in H. rewrite Hcov in H.
    inv_bind H.
    pose proof (Rlasso_penalty_level_value (np.nrows X') (np.ncols X')
                  {| self := self s; trace := trace s ++ [EvPilotOLS]; rng := rng s |})
      as Hval.
    rewrite Hstep in Hval. cbn [snd self] in Hval.
    destruct (x_dependent (self s)); [discriminate |].
    inversion Hval as [Ha]. clear Hval.
    inv_self H. inv_bind H. split_pairs.
    inversion H; subst. rewrite Hn, Hp. split; reflexivity.
  - unfold SqrtRlasso_rlasso_algorithm in H.
    inv_self H.
    destruct (cov_type (self s) =? "nonrobust")%string.
    + inv_bind H. unfold update_self in Hstep. inversion Hstep; subst. clear Hstep.
      inv_bind H.
      pose proof (SqrtRlasso_penalty_level_value (np.nrows X') (np.ncols X')
                    {| self := set_n_iter_ None (self s); trace := trace s;
                       rng := rng s |}) as Hval.
      rewrite Hstep in Hval. cbn [snd self] in Hval.
      change (x_dependent (set_n_iter_ None (self s))) with (x_dependent (self s)) in Hval.
      destruct (x_dependent (self s)); [discriminate |].
      inversion Hval as [Ha]. clear Hval.
      inv_self H. inv_lift H. inv_bind H.
      inversion H; subst. rewrite Hn, Hp. split; reflexivity.
    + inv_bind H. split_pairs.
      apply pilot_ok_inv in Hstep. subst s0.
      inv_bind H. unfold update_self in Hstep. inversion Hstep; subst. clear Hstep.
      inv_bind H.
      pose proof (SqrtRlasso_penalty_level_value (np.nrows X') (np.ncols X')
                    {| self := set_n_iter_ (Some 0) (self s);
                       trace := trace s ++ [EvPilotOLS]; rng := rng s |}) as Hval.
      rewrite Hstep in Hval. cbn [snd self] in Hval.
      change (x_dependent (set_n_iter_ (Some 0) (self s)))
        with (x_dependent (self s)) in Hval.
      destruct (x_dependent (self s)); [discriminate |].
      inversion Hval as [Ha]. clear Hval.
      inv_self H. inv_bind H. split_pairs.
      inversion H; subst. rewrite Hn, Hp. split; reflexivity.
Qed.

Lemma fit_stores_the_x_independent_level_witness :
  let s := start (Example.rlasso [("cov_type", PyStr "robust")]) in
  let s' := fst (@fit Example.oracles Example.X2 Example.y2 s) in
  x_dependent (self s) = false
  /\ lambd_ (self s')
     = Some (match class_of (self s) with
             | Rlasso =>
                 2 * c (self s) * PrimFloat.sqrt (Z2f (np.nrows Example.X2))
                 * @norm_ppf Example.oracles
                     (1 - @gamma_used Example.oracles (self s) (np.nrows Example.X2)
                          / Z2f (2 * np.ncols Example.X2))
             | SqrtRlasso =>
                 c (self s) * PrimFloat.sqrt (Z2f (np.nrows Example.X2))
                 * @norm_ppf Example.oracles
                     (1 - @gamma_used Example.oracles (self s) (np.nrows Example.X2)
                          / Z2f (2 * np.ncols Example.X2))
             end)%float.
Proof.
  apply (@fit_stores_the_x_independent_level Example.oracles Example.X2 Example.y2).
  - vm_compute. reflexivity.
  - right. reflexivity.
Defined.

(** ** The cluster covariance type *)

Lemma cluster_loadings (e : estimator) X n resid :
  cov_type e = "cluster" ->
  Rlasso_penalty_loadings e X n resid = Raise NotImplementedError
  /\ SqrtRlasso_penalty_loadings e X n resid = Raise NotImplementedError.
Proof.
  intros H. unfold Rlasso_penalty_loadings, SqrtRlasso_penalty_loadings.
  rewrite H. simpl. now destruct resid.
Qed.

Lemma Rlasso_robust_loop_cluster {oracles : Oracles}
      iters X y n lambd beta0 resid0 psi0 n_iter s :
  cov_type (self s) = "cluster" ->
  Rlasso_robust_loop (S iters) X y n lambd beta0 resid0 psi0 n_iter s
  = (s, Raise NotImplementedError).
Proof.
  intros H. cbn [Rlasso_robust_loop]. unfold bind, get_self, lift.
  now rewrite (proj1 (@cluster_loadings _ _ _ _ H)).
Qed.

Lemma SqrtRlasso_robust_loop_cluster {oracles : Oracles}
      iters X y n lambd beta0 resid0 psi0 s :
  cov_type (self s) = "cluster" ->
  SqrtRlasso_robust_loop (S iters) X y n lambd beta0 resid0 psi0 s
  = (s, Raise NotImplementedError).
Proof.
  intros H. cbn [SqrtRlasso_robust_loop]. unfold bind, get_self, lift.
  now rewrite (proj2 (@cluster_loadings _ _ _ _ H)).
Qed.

Lemma cluster_algorithm {oracles : Oracles} cls X y s :
  cov_type (self s) = "cluster" ->
  1 <= max_iter (self s) ->
  exists e sf,
    rlasso_algorithm cls X y s = (sf, Raise e)
    /\ solves (trace sf) = solves (trace s)
    /\ (x_dependent (self s) = false ->
        is_ok (pilot_fit (n_corr (self s)) X y) = true ->
        e = NotImplementedError).
Proof.
  intros Hcov Hmax.
  assert (Hpilot : pilot X y s
                   = ({| self := self s; trace := trace s ++ [EvPilotOLS];
                         rng := rng s |},
                      pilot_fit (n_corr (self s)) X y)) by reflexivity.
  set (s1 := {| self := self s; trace := trace s ++ [EvPilotOLS]; rng := rng s |})
    in *.
  assert (Htr1 : solves (trace s1) = solves (trace s)).
  { unfold s1. simpl. rewrite solves_app. simpl. lia. }
  destruct cls; cbn [rlasso_algorithm].
  - unfold Rlasso_rlasso_algorithm.
    destruct (pilot_fit (n_corr (self s)) X y) as [[beta0 resid0] | e0] eqn:Hp.
    + rewrite (@bind_ok _ _ _ _ _ _ _ Hpilot). unfold bind at 1, get_self at 1.
      cbn [self s1]. rewrite Hcov. cbn [String.eqb Ascii.eqb Bool.eqb].
      destruct (Rlasso_penalty_level (np.nrows X) (np.ncols X) None None None s1)
        as [s2 [lambd | e1]] eqn:Hlev.
      * pose proof (@Rlasso_penalty_level_quiet _ _ _ _ _ _ _ _ _ Hlev) as (Ht & _ & Hm).
        pose proof (Rlasso_penalty_level_evolves (np.nrows X) (np.ncols X)
                      None None None s1) as Hev.
        rewrite Hlev in Hev. unfold evolves in Hev. cbn [fst] in Hev.
        destruct Hev as (_ & _ & _ & Hcov2 & _).
        rewrite (@bind_ok _ _ _ _ _ _ _ Hlev). unfold bind at 1, get_self at 1.
        destruct (Z.to_nat (max_iter (self s2))) as [| iters] eqn:Hit;
          [cbn [self s1] in Hm; lia |].
        unfold bind at 1.
        rewrite (@Rlasso_robust_loop_cluster _ _ _ _ _ _ _ _ _ _ _ (eq_trans Hcov2 Hcov)).
        exists NotImplementedError, s2.
        split; [reflexivity |]. split; [congruence | reflexivity].
      * rewrite (@bind_raise _ _ _ _ _ _ _ Hlev). exists e1, s2.
        pose proof (@Rlasso_penalty_level_quiet _ _ _ _ _ _ _ _ _ Hlev) as (Ht & _ & _).
        split; [reflexivity |]. split; [congruence |].
        intros Hx _.
        pose proof (Rlasso_penalty_level_value (np.nrows X) (np.ncols X) s1) as Hval.
        rewrite Hlev in Hval. cbn [snd self s1] in Hval. rewrite Hx in Hval.
        discriminate.
    + rewrite (@bind_raise _ _ _ _ _ _ _ Hpilot). exists e0, s1.
      split; [reflexivity |]. split; [exact Htr1 | discriminate].
  - unfold SqrtRlasso_rlasso_algorithm. unfold bind at 1, get_self at 1.
    rewrite Hcov. cbn [String.eqb Ascii.eqb Bool.eqb].
    destruct (pilot_fit (n_corr (self s)) X y) as [[beta0 resid0] | e0] eqn:Hp.
    + rewrite (@bind_ok _ _ _ _ _ _ _ Hpilot). unfold bind at 1, update_self at 1.
      set (s2 := {| self := set_n_iter_ (Some 0) (self s1); trace := trace s1;
                    rng := rng s1 |}).
      destruct (SqrtRlasso_penalty_level (np.nrows X) (np.ncols X) s2)
        as [s3 [lambd | e1]] eqn:Hlev.
      * pose proof (@SqrtRlasso_penalty_level_quiet _ _ _ _ _ _ Hlev) as (Ht & _ & Hm).
        pose proof (SqrtRlasso_penalty_level_evolves (np.nrows X) (np.ncols X) s2)
          as Hev.
        rewrite Hlev in Hev. unfold evolves in Hev. cbn [fst] in Hev.
        destruct Hev as (_ & _ & _ & Hcov3 & _).
        rewrite (@bind_ok _ _ _ _ _ _ _ Hlev). unfold bind at 1, get_self at 1.
        destruct (Z.to_nat (max_iter (self s3))) as [| iters] eqn:Hit;
          [cbn [self s1 s2 set_n_iter_ max_iter] in Hm; lia |].
        unfold bind at 1.
        rewrite (@SqrtRlasso_robust_loop_cluster _ _ _ _ _ _ _ _ _ _ (eq_trans Hcov3 Hcov)).
        exists NotImplementedError, s3.
        split; [reflexivity |]. split; [| reflexivity].
        rewrite Ht. exact Htr1.
      * rewrite (@bind_raise _ _ _ _ _ _ _ Hlev). exists e1, s3.
        pose proof (@SqrtRlasso_penalty_level_quiet _ _ _ _ _ _ Hlev) as (Ht & _ & _).
        split; [reflexivity |]. split; [rewrite Ht; exact Htr1 |].
        intros Hx _.
        pose proof (SqrtRlasso_penalty_level_value (np.nrows X) (np.ncols X) s2) as Hval.
        rewrite Hlev in Hval. cbn [snd self s1 s2 set_n_iter_ x_dependent] in Hval.
        rewrite Hx in Hval. now inversion Hval.
    + rewrite (@bind_raise _ _ _ _ _ _ _ Hpilot). exists e0, s1.
      split; [reflexivity |]. split; [exact Htr1 | discriminate].
Qed.

(** With the covariance type [cluster] and at least one iteration allowed,
    [fit] never returns, for neither class, and it raises before any
    convex solve: the loadings of the first iteration are not implemented.
    That is the exception it raises where the input is valid, the pilot
    regression succeeds and [x_dependent] is off. *)
Theorem cluster_fit_never_returns
        {oracles : Oracles} (X : matrix) (y : vec) (s : state) :
  cov_type (self s) = "cluster" ->
  1 <= max_iter (self s) ->
  exists e,
    snd (fit X y s) = Raise e
    /\ solves (trace (fst (fit X y s))) = solves (trace s)
    /\ (x_dependent (self s) = false ->
        is_ok (check_X_y X y) = true ->
        is_ok (pilot_fit (n_corr (self s))
                 (if fit_intercept (self s) then center_columns X else X)
                 (if fit_intercept (self s) then center y else y)) = true ->
        e = NotImplementedError).
Proof.
  intros Hcov Hmax. unfold fit, bind, lift.
  destruct (check_X_y X y) as [[Xv yv] | e0] eqn:Hc.
  - apply check_X_y_ok in Hc as [-> ->]. unfold get_self.
    destruct (cluster_algorithm (class_of (self s))
                (if fit_intercept (self s) then center_columns X else X)
                (if fit_intercept (self s) then center y else y) s Hcov Hmax)
      as (e & sf & He & Htr & Hnie).
    rewrite He. exists e. cbn [fst snd]. split; [reflexivity |].
    split; [exact Htr | auto].
  - exists e0. cbn [fst snd]. split; [reflexivity |]. split; [reflexivity |].
    discriminate.
Qed.

Lemma cluster_fit_never_returns_witness :
  let s := start (Example.rlasso [("cov_type", PyStr "cluster")]) in
  exists e,
    snd (@fit Example.oracles Example.X2 Example.y2 s) = Raise e
    /\ solves (trace (fst (@fit Example.oracles Example.X2 Example.y2 s)))
       = solves (trace s)
    /\ (x_dependent (self s) = false ->
        is_ok (check_X_y Example.X2 Example.y2) = true ->
        is_ok (@pilot_fit Example.oracles (n_corr (self s))
                 (if fit_intercept (self s) then center_columns Example.X2
                  else Example.X2)
                 (if fit_intercept (self s) then center Example.y2
                  else Example.y2)) = true ->
        e = NotImplementedError).
Proof.
  apply (@cluster_fit_never_returns Example.oracles Example.X2 Example.y2).
  - reflexivity.
  - vm_compute. discriminate.
Defined.

(** The default estimators with [cov_type="cluster"] on the example. *)
Example cluster_fit_example :
  snd (@fit Example.oracles Example.X2 Example.y2
            (start (Example.rlasso [("cov_type", PyStr "cluster")])))
  = Raise NotImplementedError
  /\ snd (@fit Example.oracles Example.X2 Example.y2
              (start (Example.sqrt_rlasso [("cov_type", PyStr "cluster")])))
     = Raise NotImplementedError
  /\ snd (@fit Example.oracles Example.X2 Example.y2
              (start (Example.rlasso [("cov_type", PyStr "cluster");
                                      ("max_iter", PyInt 0)])))
     = Ok tt.
Proof. vm_compute. repeat split; reflexivity. Qed.

(* ================================================================= *)
(** * The class [RlassoPenalty] *)

Lemma finished_inv {A} (m : py A) s s' (r : result A) :
  finished m s = (s', Finished r) -> m s = (s', r).
Proof. unfold finished. intros H. inversion H. now destruct (m s). Qed.

(** ** Where the penalty level is defined *)

(** [RlassoPenalty._penalty] returns a level in three configurations
    only, all of the squared loss and all with [gamma] set: the
    nonrobust covariance type with a [sigma_hat], and the robust or the
    cluster type with [x_dependent] off.  For the square-root loss, for
    the robust x-dependent case and for anything else it never returns:
    the local [lambd] is not assigned. *)
Theorem penalty_returns_in_three_cases
        {oracles : Oracles} (o : RlassoPenalty.object) (n p : Z)
        (sigma_hat : option float) (X psi : option matrix)
        (s s' : state) (lambd : float) :
  RlassoPenalty._penalty o n p sigma_hat X psi s = (s', Finished (Ok lambd)) ->
  RlassoPenalty.sqrt o = false
  /\ (exists g, RlassoPenalty.gamma o = Some g)
  /\ ((RlassoPenalty.cov_type o = "nonrobust" /\ exists sg, sigma_hat = Some sg)
      \/ ((RlassoPenalty.cov_type o = "robust" \/ RlassoPenalty.cov_type o = "cluster")
          /\ RlassoPenalty.x_dependent o = false)).
Proof.
  intros H. unfold RlassoPenalty._penalty in H.
  destruct (RlassoPenalty.sqrt o); [apply finished_inv in H; discriminate |].
  split; [reflexivity |].
  destruct (RlassoPenalty.cov_type o =? "nonrobust")%string eqn:Hnr; cbn [andb] in H.
  - apply String.eqb_eq in Hnr.
    destruct (RlassoPenalty.x_dependent o); cbn [negb] in H.
    + apply finished_inv in H. inv_bind H.
      destruct sigma_hat as [sg |], (RlassoPenalty.gamma o) as [g |];
        try discriminate.
      split; [now exists g | left; split; [exact Hnr | now exists sg]].
    + destruct sigma_hat as [sg |]; [| discriminate].
      apply finished_inv in H. inv_bind H. unfold RlassoPenalty.proba in Hstep.
      destruct (RlassoPenalty.gamma o) as [g |]; [| discriminate].
      split; [now exists g | left; split; [exact Hnr | now exists sg]].
  - destruct ((RlassoPenalty.cov_type o =? "robust")%string
              || (RlassoPenalty.cov_type o =? "cluster")%string) eqn:Hrc;
      cbn [andb] in H.
    + destruct (RlassoPenalty.x_dependent o); cbn [negb] in H.
      * destruct (_ && true); apply finished_inv in H; [inv_bind H |]; discriminate.
      * apply finished_inv in H. inv_bind H. unfold RlassoPenalty.proba in Hstep.
        destruct (RlassoPenalty.gamma o) as [g |]; [| discriminate].
        split; [now exists g | right; split; [| reflexivity]].
        apply orb_true_iff in Hrc as [Hr | Hc]; [left | right];
          now apply String.eqb_eq.
    + destruct (_ && _); apply finished_inv in H; [inv_bind H |]; discriminate.
Qed.

Lemma penalty_returns_in_three_cases_witness :
  let o := PenaltyExample.penalty [("gamma", PyFloat 0.05)] in
  RlassoPenalty.sqrt o = false
  /\ (exists g, RlassoPenalty.gamma o = Some g)
  /\ ((RlassoPenalty.cov_type o = "nonrobust" /\ exists sg, Some 1%float = Some sg)
      \/ ((RlassoPenalty.cov_type o = "robust" \/ RlassoPenalty.cov_type o = "cluster")
          /\ RlassoPenalty.x_dependent o = false)).
Proof.
  eapply (@penalty_returns_in_three_cases PenaltyExample.oracles
            (PenaltyExample.penalty [("gamma", PyFloat 0.05)]) 4 1 (Some 1%float)
            None None (start (Example.rlasso []))).
  vm_compute. reflexivity.
Defined.

(** ** Agreement with the estimators *)

(** Where [RlassoPenalty._penalty] can return, it is
    [Rlasso._penalty_level] on an estimator with the same settings and a
    [gamma]: the same draws, the same outcome. *)
Theorem penalty_agrees_with_Rlasso
        {oracles : Oracles} (o : RlassoPenalty.object) (n p : Z)
        (sigma_hat : option float) (X psi : option matrix) (s : state) (g : float) :
  same_settings (self s) o ->
  RlassoPenalty.sqrt o = false ->
  gamma (self s) = Some g ->
  (cov_type (self s) = "nonrobust"
   /\ (x_dependent (self s) = true \/ exists sg, sigma_hat = Some sg))
  \/ ((cov_type (self s) = "robust" \/ cov_type (self s) = "cluster")
      /\ x_dependent (self s) = false) ->
  RlassoPenalty._penalty o n p sigma_hat X psi s
  = finished (Rlasso_penalty_level n p sigma_hat X psi) s.
Proof.
  intros (Hc & Hx & Hn & Hcc & Hg) Hsqrt Hgamma Hcase.
  unfold RlassoPenalty._penalty, RlassoPenalty.proba, RlassoPenalty.simulated.
  rewrite Hsqrt, <- Hc, <- Hx, <- Hn, <- Hcc, <- Hg, Hgamma.
  unfold finished, Rlasso_penalty_level.
  rewrite (@bind_ok _ _ _ _ _ _ _ (default_gamma_from_some n s Hgamma)).
  unfold bind, get_self, ret, raise, lift.
  destruct Hcase as [[Hcov [Hxd | [sg ->]]] | [[Hcov | Hcov] Hxd]];
    rewrite Hcov; cbn [String.eqb Ascii.eqb Bool.eqb andb orb negb].
  - rewrite Hxd. cbn [andb negb].
    destruct (n_sim (self s) <? 0); [reflexivity |].
    destruct (matmul_opt X psi) as [Xpsi | e]; [| reflexivity].
    destruct (simulate _ n p Xpsi s) as [s1 [sims | e]]; [| reflexivity].
    destruct sigma_hat as [sg |]; [| reflexivity].
    cbn [fst snd]. now destruct (np_quantile sims _).
  - destruct (x_dependent (self s)); cbn [andb negb]; [| reflexivity].
    destruct (n_sim (self s) <? 0); [reflexivity |].
    destruct (matmul_opt X psi) as [Xpsi | e]; [| reflexivity].
    destruct (simulate _ n p Xpsi s) as [s1 [sims | e]]; [| reflexivity].
    cbn [fst snd]. now destruct (np_quantile sims _).
  - rewrite Hxd. cbn [andb negb]. now destruct sigma_hat.
  - rewrite Hxd. cbn [andb negb]. now destruct sigma_hat.
Qed.

Lemma penalty_agrees_with_Rlasso_witness :
  let o := PenaltyExample.penalty [("gamma", PyFloat 0.05)] in
  let s := start (Example.rlasso [("gamma", PyFloat 0.05)]) in
  @RlassoPenalty._penalty PenaltyExample.oracles o 4 1 (Some 1%float) None None s
  = finished (@Rlasso_penalty_level PenaltyExample.oracles 4 1 (Some 1%float)
                                    None None) s.
Proof.
  apply (@penalty_agrees_with_Rlasso PenaltyExample.oracles) with (g := 0.05%float).
  - repeat split; reflexivity.
  - reflexivity.
  - reflexivity.
  - left. split; [reflexivity | right; now exists 1%float].
Defined.

(** [RlassoPenalty._loadings] of an object is the [_penalty_loadings] of
    the estimator of its loss with the same covariance type: of
    [SqrtRlasso] for the square-root loss on every input; of [Rlasso] for
    the squared loss on the three documented types, except that with the
    robust type and no residuals it raises [NotImplementedError] where
    [Rlasso] returns loadings. *)
Theorem loadings_agree_with_the_estimators
        (o : RlassoPenalty.object) (e : estimator)
        (X : matrix) (resid : option vec) (n : Z) :
  cov_type e = RlassoPenalty.cov_type o ->
  (RlassoPenalty.sqrt o = true ->
   RlassoPenalty._loadings o X resid n = SqrtRlasso_penalty_loadings e X n resid)
  /\ (RlassoPenalty.sqrt o = false ->
      cov_type e = "nonrobust" \/ cov_type e = "cluster"
      \/ (cov_type e = "robust" /\ exists r, resid = Some r) ->
      RlassoPenalty._loadings o X resid n = Rlasso_penalty_loadings e X n resid)
  /\ (RlassoPenalty.sqrt o = false ->
      cov_type e = "robust" ->
      RlassoPenalty._loadings o X None n = Raise NotImplementedError
      /\ is_ok (Rlasso_penalty_loadings e X n None) = true).
Proof.
  intros Hc.
  unfold RlassoPenalty._loadings, SqrtRlasso_penalty_loadings, Rlasso_penalty_loadings.
  rewrite <- Hc. split; [| split].
  - intros ->. reflexivity.
  - intros -> [Hcov | [Hcov | [Hcov [r ->]]]]; rewrite Hcov;
      cbn [String.eqb Ascii.eqb Bool.eqb]; reflexivity.
  - intros -> Hcov. rewrite Hcov. cbn [String.eqb Ascii.eqb Bool.eqb is_ok].
    split; reflexivity.
Qed.

Lemma loadings_agree_with_the_estimators_witness :
  let o := PenaltyExample.penalty [("cov_type", PyStr "robust")] in
  let e := Example.rlasso [("cov_type", PyStr "robust")] in
  (RlassoPenalty.sqrt o = true ->
   RlassoPenalty._loadings o Example.X2 (Some Example.y2) 4
   = SqrtRlasso_penalty_loadings e Example.X2 4 (Some Example.y2))
  /\ (RlassoPenalty.sqrt o = false ->
      cov_type e = "nonrobust" \/ cov_type e = "cluster"
      \/ (cov_type e = "robust" /\ exists r, Some Example.y2 = Some r) ->
      RlassoPenalty._loadings o Example.X2 (Some Example.y2) 4
      = Rlasso_penalty_loadings e Example.X2 4 (Some Example.y2))
  /\ (RlassoPenalty.sqrt o = false ->
      cov_type e = "robust" ->
      RlassoPenalty._loadings o Example.X2 None 4 = Raise NotImplementedError
      /\ is_ok (Rlasso_penalty_loadings e Example.X2 4 None) = true).
Proof.
  apply (@loadings_agree_with_the_estimators
           (PenaltyExample.penalty [("cov_type", PyStr "robust")])
           (Example.rlasso [("cov_type", PyStr "robust")])
           Example.X2 (Some Example.y2) 4).
  reflexivity.
Defined.

(** ** [fit] and the default of [gamma] *)

(** [RlassoPenalty.fit] is what makes the penalty level computable on an
    object constructed without [gamma]: before it, the x-independent
    level is a [TypeError]; a [fit] that returns has set [gamma] to
    [0.1 / sqrt(n)] if it was [None] and changed nothing else, a later
    [fit] on any data changes nothing, and the nonrobust level is then
    [2 c sigma_hat sqrt(n) ppf(1 - gamma / (2 p))] with that [gamma], for
    at least one regressor ([p = 0] is a [ZeroDivisionError] for a [gamma]
    the caller passed). *)
Theorem penalty_fit_supplies_gamma
        {oracles : Oracles} (o o' : RlassoPenalty.object) (X : matrix) (y : vec) :
  RlassoPenalty.fit o X y = (o', Ok tt) ->
  (exists g,
      RlassoPenalty.gamma o' = Some g
      /\ g = match RlassoPenalty.gamma o with
             | Some g0 => g0
             | None => (0.1 / PrimFloat.sqrt (Z2f (np.nrows X)))%float
             end
      /\ (RlassoPenalty.sqrt o = false ->
          RlassoPenalty.cov_type o = "nonrobust" ->
          RlassoPenalty.x_dependent o = false ->
          forall n p sigma_hat s,
            0 < p ->
            RlassoPenalty._penalty o' n p (Some sigma_hat) None None s
            = (s, Finished (Ok (2 * RlassoPenalty.c o * sigma_hat
                                * PrimFloat.sqrt (Z2f n)
                                * norm_ppf (1 - g / Z2f (2 * p)))%float))))
  /\ RlassoPenalty.set_gamma (RlassoPenalty.gamma o) o' = o
  /\ (forall X2 y2, fst (RlassoPenalty.fit o' X2 y2) = o')
  /\ (RlassoPenalty.gamma o = None ->
      RlassoPenalty.sqrt o = false ->
      RlassoPenalty.x_dependent o = false ->
      RlassoPenalty.cov_type o = "nonrobust" \/ RlassoPenalty.cov_type o = "robust"
      \/ RlassoPenalty.cov_type o = "cluster" ->
      forall n p sigma_hat s,
        RlassoPenalty._penalty o n p (Some sigma_hat) None None s
        = (s, Finished (Raise TypeError))).
Proof.
  intros Hfit. unfold RlassoPenalty.fit in Hfit.
  destruct (check_X_y X y) as [[Xv yv] | e] eqn:Hc; [| discriminate].
  apply check_X_y_ok in Hc as [-> ->].
  assert (Hsticky : forall o1 g, RlassoPenalty.gamma o1 = Some g ->
                                 forall X2 y2, fst (RlassoPenalty.fit o1 X2 y2) = o1).
  { intros o1 g Hg X2 y2. unfold RlassoPenalty.fit. rewrite Hg.
    now destruct (check_X_y X2 y2) as [[? ?] |]. }
  assert (Hlevel : forall o1 g, RlassoPenalty.gamma o1 = Some g ->
            RlassoPenalty.sqrt o1 = false ->
            RlassoPenalty.cov_type o1 = "nonrobust" ->
            RlassoPenalty.x_dependent o1 = false ->
            forall n p sigma_hat s,
              RlassoPenalty._penalty o1 n p (Some sigma_hat) None None s
              = (s, Finished (Ok (2 * RlassoPenalty.c o1 * sigma_hat
                                  * PrimFloat.sqrt (Z2f n)
                                  * norm_ppf (1 - g / Z2f (2 * p)))%float))).
  { intros o1 g Hg Hs Hcov Hx n p sigma_hat s.
    unfold RlassoPenalty._penalty, RlassoPenalty.proba, finished.
    rewrite Hs, Hcov, Hx, Hg. reflexivity. }
  split; [| split; [| split]].
  - destruct (RlassoPenalty.gamma o) as [g0 |] eqn:Hg; inversion Hfit; subst o'.
    + exists g0. split; [exact Hg |]. split; [reflexivity |].
      intros Hs Hcov Hx n p sigma_hat s _. now apply Hlevel.
    + eexists. split; [reflexivity |]. split; [reflexivity |].
      intros Hs Hcov Hx n p sigma_hat s _.
      erewrite Hlevel; [reflexivity | reflexivity | exact Hs | exact Hcov | exact Hx].
  - destruct (RlassoPenalty.gamma o) as [g0 |] eqn:Hg; inversion Hfit; subst o';
      destruct o; simpl in *; now rewrite ?Hg.
  - destruct (RlassoPenalty.gamma o) as [g0 |] eqn:Hg; inversion Hfit; subst o'.
    + now apply Hsticky with (g := g0).
    + now eapply Hsticky.
  - intros Hg Hs Hx Hcov n p sigma_hat s.
    unfold RlassoPenalty._penalty, RlassoPenalty.proba, finished.
    rewrite Hs, Hx, Hg.
    destruct Hcov as [-> | [-> | ->]]; reflexivity.
Qed.

Lemma penalty_fit_supplies_gamma_witness :
  let o := PenaltyExample.penalty [] in
  let o' := fst (RlassoPenalty.fit o Example.X Example.y) in
  (exists g,
      RlassoPenalty.gamma o' = Some g
      /\ g = match RlassoPenalty.gamma o with
             | Some g0 => g0
             | None => (0.1 / PrimFloat.sqrt (Z2f (np.nrows Example.X)))%float
             end
      /\ (RlassoPenalty.sqrt o = false ->
          RlassoPenalty.cov_type o = "nonrobust" ->
          RlassoPenalty.x_dependent o = false ->
          forall n p sigma_hat s,
            0 < p ->
            @RlassoPenalty._penalty PenaltyExample.oracles o' n p (Some sigma_hat)
                                    None None s
            = (s, Finished (Ok (2 * RlassoPenalty.c o * sigma_hat
                                * PrimFloat.sqrt (Z2f n)
                                * PenaltyExample.ppf_table (1 - g / Z2f (2 * p)))%float))))
  /\ RlassoPenalty.set_gamma (RlassoPenalty.gamma o) o' = o
  /\ (forall X2 y2, fst (RlassoPenalty.fit o' X2 y2) = o')
  /\ (RlassoPenalty.gamma o = None ->
      RlassoPenalty.sqrt o = false ->
      RlassoPenalty.x_dependent o = false ->
      RlassoPenalty.cov_type o = "nonrobust" \/ RlassoPenalty.cov_type o = "robust"
      \/ RlassoPenalty.cov_type o = "cluster" ->
      forall n p sigma_hat s,
        @RlassoPenalty._penalty PenaltyExample.oracles o n p (Some sigma_hat)
                                None None s
        = (s, Finished (Raise TypeError))).
Proof.
  apply (@penalty_fit_supplies_gamma PenaltyExample.oracles
           (PenaltyExample.penalty []) _ Example.X Example.y).
  vm_compute. reflexivity.
Defined.

(** The object of the example before and after [fit], with the residual
    scale [1] and without one; the square-root variant. *)
Example penalty_example :
  let o := PenaltyExample.penalty [] in
  let o' := fst (RlassoPenalty.fit o Example.X Example.y) in
  let s := start (Example.rlasso []) in
  snd (@RlassoPenalty._penalty PenaltyExample.oracles o 4 1 (Some 1%float) None None s)
  = Finished (Raise TypeError)
  /\ RlassoPenalty.gamma o' = Some 0.05%float
  /\ snd (@RlassoPenalty._penalty PenaltyExample.oracles o' 4 1 (Some 1%float)
            None None s)
     = Finished (Ok (2 * 1.1 * 1 * 2 * 1.959963984540054)%float)
  /\ snd (@RlassoPenalty._penalty PenaltyExample.oracles o' 4 1 None None None s)
     = AssertionError
  /\ snd (@RlassoPenalty._penalty PenaltyExample.oracles
            (PenaltyExample.penalty [("sqrt", PyBool true); ("gamma", PyFloat 0.05)])
            4 1 (Some 1%float) None None s)
     = Finished (Raise UnboundLocalError).
Proof. vm_compute. repeat split; reflexivity. Qed.

(* ================================================================= *)
(** * From [fit] to [predict] *)

Section SolverShape.
Context {oracles : Oracles}.
Hypothesis solver_shape : solver_keeps_shape oracles.

(** A solve returns one coefficient per column, refitted or not. *)
Lemma cvxpy_solve_length X y lambd psi n s s' beta :
  RlassoBase_cvxpy_solve X y lambd psi n s = (s', Ok beta) ->
  length beta = length (hd [] X).
Proof.
  intros H.
  assert (Hr : forall rounded,
             snd (cvxpy_solve_rounded X y lambd psi n s) = Ok rounded ->
             length rounded = length (hd [] X)).
  { intros rounded Hr. rewrite cvxpy_solve_rounded_run in Hr. cbn [snd] in Hr.
    destruct (cvx_solve _ _ _) as [[st [raw |]] | e] eqn:Hs; try discriminate.
    inversion Hr; subst. unfold np.zero_below. rewrite length_map.
    apply solver_shape in Hs. rewrite Hs. unfold np.ncols. apply Nat2Z.id. }
  destruct (post (self s)) eqn:Hpost.
  - apply cvxpy_solve_post_inv in H
      as (_ & rounded & X_sub & post_beta & Hrd & _ & _ & Hset); [| exact Hpost].
    apply set_at_nonzero in Hset as (Hlen & _). rewrite Hlen. now apply Hr.
  - unfold RlassoBase_cvxpy_solve, bind in H.
    rewrite cvxpy_solve_rounded_run in H.
    destruct (cvx_solve _ _ _) as [[st [raw |]] | e] eqn:Hs; try discriminate.
    unfold get_self in H. cbn [self] in H. rewrite Hpost in H.
    unfold ret in H. inversion H; subst beta.
    unfold np.zero_below. rewrite length_map.
    apply solver_shape in Hs. rewrite Hs. unfold np.ncols. apply Nat2Z.id.
Qed.

(** The coefficients a loop returns are those it started from, and then
    no solve ran, or they are one per column. *)
Lemma Rlasso_nonrobust_loop_coef iters X y n p psi :
  forall beta0 resid0 lambd0 n_iter s s' r,
    Rlasso_nonrobust_loop iters X y n p psi beta0 resid0 lambd0 n_iter s = (s', Ok r) ->
    (fst (fst r) = beta0 /\ solves (trace s') = solves (trace s))
    \/ length (fst (fst r)) = length (hd [] X).
Proof.
  induction iters as [| iters IH]; intros beta0 resid0 lambd0 n_iter s s' r H.
  - simpl in H. inversion H; subst. now left.
  - simpl in H. inv_self H. inv_bind H.
    assert (Hq : trace s0 = trace s).
    { destruct (x_dependent (self s));
        eapply Rlasso_penalty_level_quiet; exact Hstep. }
    clear Hstep. inv_self H.
    destruct (np.isclose a lambd0 (convergence_tol (self s0))).
    + inversion H; subst. left. now rewrite Hq.
    + inv_bind H. apply cvxpy_solve_length in Hstep.
      inv_lift H. inv_lift H.
      apply IH in H as [[Hb _] | Hlen]; right; congruence.
Qed.

Lemma Rlasso_robust_loop_coef iters X y n lambd :
  forall beta0 resid0 psi0 n_iter s s' r,
    Rlasso_robust_loop iters X y n lambd beta0 resid0 psi0 n_iter s = (s', Ok r) ->
    (fst (fst r) = beta0 /\ solves (trace s') = solves (trace s))
    \/ length (fst (fst r)) = length (hd [] X).
Proof.
  induction iters as [| iters IH]; intros beta0 resid0 psi0 n_iter s s' r H.
  - simpl in H. inversion H; subst. now left.
  - simpl in H. inv_self H. inv_lift H.
    destruct (np.allclose a psi0 (convergence_tol (self s))).
    + inversion H; subst. now left.
    + inv_bind H. apply cvxpy_solve_length in Hstep0.
      inv_lift H. inv_lift H.
      apply IH in H as [[Hb _] | Hlen]; right; congruence.
Qed.

Lemma SqrtRlasso_robust_loop_coef iters X y n lambd :
  forall beta0 resid0 psi0 s s' r,
    SqrtRlasso_robust_loop iters X y n lambd beta0 resid0 psi0 s = (s', Ok r) ->
    (fst r = beta0 /\ solves (trace s') = solves (trace s))
    \/ length (fst r) = length (hd [] X).
Proof.
  induction iters as [| iters IH]; intros beta0 resid0 psi0 s s' r H.
  - simpl in H. inversion H; subst. now left.
  - simpl in H. inv_self H. inv_lift H.
    destruct (np.allclose a psi0 (convergence_tol (self s))).
    + inversion H; subst. now left.
    + inv_bind H. apply cvxpy_solve_length in Hstep0.
      inv_lift H. inv_lift H. inv_bind H.
      apply IH in H as [[Hb _] | Hlen]; right; congruence.
Qed.

Lemma rlasso_algorithm_coef X y s s' beta lambd psi :
  rlasso_algorithm (class_of (self s)) X y s = (s', Ok (beta, lambd, psi)) ->
  solves (trace s') = solves (trace s) \/ length beta = length (hd [] X).
Proof.
  intros H.
  destruct (class_of (self s)); cbn [rlasso_algorithm] in H.
  - unfold Rlasso_rlasso_algorithm in H.
    inv_bind H. split_pairs.
    apply pilot_ok_inv in Hstep. subst s0.
    inv_self H. cbn [self] in H.
    destruct (cov_type (self s) =? "nonrobust")%string.
    + inv_lift H. inv_bind H.
      apply Rlasso_nonrobust_loop_coef in Hstep0 as [[_ Ht] | Hlen];
        split_pairs; inversion H; subst; [left | now right].
      rewrite Ht. simpl. rewrite solves_app. simpl. lia.
    + inv_bind H.
      apply Rlasso_penalty_level_quiet in Hstep as (Ht0 & _ & _).
      inv_self H. inv_bind H.
      apply Rlasso_robust_loop_coef in Hstep as [[_ Ht] | Hlen];
        split_pairs; inversion H; subst; [left | now right].
      rewrite Ht, Ht0. simpl. rewrite solves_app. simpl. lia.
  - unfold SqrtRlasso_rlasso_algorithm in H.
    inv_self H.
    destruct (cov_type (self s) =? "nonrobust")%string.
    + inv_bind H. inv_bind H. inv_self H. inv_lift H. inv_bind H.
      apply cvxpy_solve_length in Hstep2.
      inversion H; subst. now right.
    + inv_bind H. split_pairs.
      apply pilot_ok_inv in Hstep. subst s0.
      inv_bind H. unfold update_self in Hstep. inversion Hstep; subst. clear Hstep.
      inv_bind H.
      apply SqrtRlasso_penalty_level_quiet in Hstep as (Ht0 & _ & _).
      inv_self H. inv_bind H.
      apply SqrtRlasso_robust_loop_coef in Hstep as [[_ Ht] | Hlen];
        split_pairs; inversion H; subst; [left | now right].
      rewrite Ht, Ht0. simpl. rewrite solves_app. simpl. lia.
Qed.
End SolverShape.

(** The solver of the examples returns one coefficient per column. *)
Lemma cd_update_length X y t b j :
  length (Example.cd_update X y t b j) = length b.
Proof. unfold Example.cd_update. apply set_nth_length. Qed.

Lemma cd_sweeps_length k X y t b :
  length (Example.cd_sweeps k X y t b) = length b.
Proof.
  revert b. induction k as [| k IH]; intros b; simpl; [reflexivity |].
  rewrite IH. generalize (seq 0 (length b)). intros l. revert b.
  induction l as [| j l IHl]; intros b; simpl; [reflexivity |].
  now rewrite IHl, cd_update_length.
Qed.

Lemma lasso_cd_keeps_shape : solver_keeps_shape Example.oracles.
Proof.
  intros o p opts st beta H. change (Example.lasso_cd o p opts = Ok (st, Some beta)) in H.
  unfold Example.lasso_cd in H. destruct (obj_loss o); [| discriminate].
  match type of H with
  | Ok (_, Some ?b) = _ => assert (Hb : beta = b) by congruence
  end.
  rewrite Hb. now rewrite cd_sweeps_length, repeat_length.
Qed.

(** A [fit] that returned after at least one convex solve left one
    coefficient per column of the design, for a solver that returns one
    value per variable; with [fit_intercept] off, [predict] on the
    training design then returns its product with [coef_].  (With no solve
    the coefficients are those of the pilot regression, and with
    [fit_intercept] on [predict] raises.) *)
Theorem fit_then_predict
        {oracles : Oracles} (X : matrix) (y : vec) (s s' : state) :
  solver_keeps_shape oracles ->
  fit X y s = (s', Ok tt) ->
  (solves (trace s) < solves (trace s'))%nat ->
  exists coef,
    coef_ (self s') = Some coef
    /\ length coef = length (hd [] X)
    /\ (fit_intercept (self s) = false ->
        predict X s' = (s', Ok (map (fun row => np.dot row coef) X))).
Proof.
  intros Hshape Hfit Hsolved.
  pose proof (fit_evolves X y s) as Hev. rewrite Hfit in Hev.
  unfold evolves in Hev. cbn [fst] in Hev.
  destruct Hev as (_ & Hfi & _).
  apply fit_ok_inv in Hfit as (beta & lambd & psi & s1 & Hcheck & Halg & ->).
  cbn [self trace] in *.
  apply (rlasso_algorithm_coef Hshape) in Halg as [Hno | Hlen]; [lia |].
  assert (Hcols : length beta = length (hd [] X)).
  { rewrite Hlen. apply Nat2Z.inj.
    destruct (fit_intercept (self s)); [apply ncols_center_columns | reflexivity]. }
  exists beta. split; [reflexivity |]. split; [exact Hcols |].
  intros Hoff. unfold check_X_y in Hcheck.
  apply rbind_inv_ok in Hcheck as (Xv & HX & _).
  pose proof (check_array_ok _ HX) as ->.
  pose proof (check_array_rows _ HX) as (_ & _ & Hrows).
  rewrite <- Hcols in Hrows.
  unfold predict, bind, get_self, lift, ret. cbn [self coef_ set_fitted].
  rewrite HX, (@matvec_rows _ _ Hrows).
  change (fit_intercept (set_fitted beta lambd psi (self s1)))
    with (fit_intercept (self s1)) in *.
  now rewrite Hfi, Hoff.
Qed.

Lemma fit_then_predict_witness :
  let s := start (Example.rlasso [("fit_intercept", PyBool false)]) in
  let s' := fst (@fit Example.oracles Example.X2 Example.y2 s) in
  exists coef,
    coef_ (self s') = Some coef
    /\ length coef = length (hd [] Example.X2)
    /\ (fit_intercept (self s) = false ->
        predict Example.X2 s' = (s', Ok (map (fun row => np.dot row coef) Example.X2))).
Proof.
  apply (@fit_then_predict Example.oracles Example.X2 Example.y2).
  - exact lasso_cd_keeps_shape.
  - vm_compute. reflexivity.
  - vm_compute. lia.
Defined.

(** The estimator of the example fitted without an intercept, and its
    predictions on the training design. *)
Example fit_then_predict_run :
  let s := start (Example.rlasso [("fit_intercept", PyBool false)]) in
  let s' := fst (@fit Example.oracles Example.X2 Example.y2 s) in
  snd (@fit Example.oracles Example.X2 Example.y2 s) = Ok tt
  /\ is_ok (snd (predict Example.X2 s')) = true
  /\ option_map (@length float) (coef_ (self s')) = Some 2%nat.
Proof. vm_compute. repeat split; reflexivity. Qed.

(* ================================================================= *)
(** * What [fit] leaves alone *)

(** Whatever its outcome, [fit] changes none of the parameters of the
    constructor except [gamma], and a [gamma] that was set stays as it
    was: of what [__init__] assigned, only a [gamma] left at [None] may be
    overwritten. *)
Theorem fit_keeps_the_parameters
        {oracles : Oracles} (X : matrix) (y : vec) (s : state) :
  class_of (self (fst (fit X y s))) = class_of (self s)
  /\ fit_intercept (self (fst (fit X y s))) = fit_intercept (self s)
  /\ post (self (fst (fit X y s))) = post (self s)
  /\ cov_type (self (fst (fit X y s))) = cov_type (self s)
  /\ x_dependent (self (fst (fit X y s))) = x_dependent (self s)
  /\ n_corr (self (fst (fit X y s))) = n_corr (self s)
  /\ max_iter (self (fst (fit X y s))) = max_iter (self s)
  /\ n_sim (self (fst (fit X y s))) = n_sim (self s)
  /\ c (self (fst (fit X y s))) = c (self s)
  /\ zero_tol (self (fst (fit X y s))) = zero_tol (self s)
  /\ convergence_tol (self (fst (fit X y s))) = convergence_tol (self s)
  /\ solver_opts (self (fst (fit X y s))) = solver_opts (self s)
  /\ (forall g, gamma (self s) = Some g -> gamma (self (fst (fit X y s))) = Some g).
Proof.
  pose proof (fit_evolves X y s) as H. unfold evolves in H.
  destruct H as (H1 & H2 & H3 & H4 & H5 & H6 & H7 & H8 & H9 & H10 & H11 & H12 & _ & Hg).
  repeat (split; [assumption |]).
  intros g Hgs. now rewrite Hgs in Hg.
Qed.

(** ** The random generator *)

(** Methods built from steps that keep a relation, the penalty levels
    taken as steps. *)
Section KeepsLevels.
Context {oracles : Oracles}.
Variable R : state -> state -> Prop.
Hypothesis R_refl : forall s, R s s.
Hypothesis R_trans : forall s1 s2 s3, R s1 s2 -> R s2 s3 -> R s1 s3.
Hypothesis R_log : forall e, keeps_unless never R (log e).
Hypothesis R_n_iter : forall k, keeps_unless never R (update_self (set_n_iter_ k)).
Hypothesis R_fitted :
  forall b l p, keeps_unless never R (update_self (set_fitted b l p)).
Hypothesis R_solve :
  forall X y lambd psi n, keeps_unless never R (cvxpy_solve_rounded X y lambd psi n).
Hypothesis R_level :
  forall n p sigma_hat X psi,
    keeps_unless never R (Rlasso_penalty_level n p sigma_hat X psi).
Hypothesis R_sqrt_level :
  forall n p, keeps_unless never R (SqrtRlasso_penalty_level n p).

Hint Resolve R_log R_n_iter R_fitted R_solve R_level R_sqrt_level : keeps.

Lemma kl_cvxpy_solve X y lambd psi n :
  keeps_unless never R (RlassoBase_cvxpy_solve X y lambd psi n).
Proof. unfold RlassoBase_cvxpy_solve, post_ols_refit. keeps_go. Qed.

Lemma kl_pilot X y : keeps_unless never R (pilot X y).
Proof. unfold pilot. keeps_go. Qed.

Lemma kl_incr_n_iter_ : keeps_unless never R incr_n_iter_.
Proof. unfold incr_n_iter_. keeps_go. Qed.

Hint Resolve kl_cvxpy_solve kl_pilot kl_incr_n_iter_ : keeps.

Lemma kl_Rlasso_nonrobust_loop iters X y n p psi :
  forall beta0 resid0 lambd0 n_iter,
    keeps_unless never R
      (Rlasso_nonrobust_loop iters X y n p psi beta0 resid0 lambd0 n_iter).
Proof. induction iters as [| iters IH]; intros; simpl; keeps_go. Qed.

Lemma kl_Rlasso_robust_loop iters X y n lambd :
  forall beta0 resid0 psi0 n_iter,
    keeps_unless never R
      (Rlasso_robust_loop iters X y n lambd beta0 resid0 psi0 n_iter).
Proof. induction iters as [| iters IH]; intros; simpl; keeps_go. Qed.

Lemma kl_SqrtRlasso_robust_loop iters X y n lambd :
  forall beta0 resid0 psi0,
    keeps_unless never R
      (SqrtRlasso_robust_loop iters X y n lambd beta0 resid0 psi0).
Proof. induction iters as [| iters IH]; intros; simpl; keeps_go. Qed.

Hint Resolve kl_Rlasso_nonrobust_loop kl_Rlasso_robust_loop
     kl_SqrtRlasso_robust_loop : keeps.

Lemma kl_rlasso_algorithm cls X y : keeps_unless never R (rlasso_algorithm cls X y).
Proof.
  destruct cls; simpl;
    unfold Rlasso_rlasso_algorithm, SqrtRlasso_rlasso_algorithm; keeps_go.
Qed.

Lemma kl_fit X y : keeps R (fit X y).
Proof.
  apply keeps_unless_never. unfold fit.
  apply ku_bind_lift; [assumption |].
  intros [Xv yv] _.
  apply ku_bind; [assumption | keeps_go | intros e].
  apply ku_bind; [assumption | apply kl_rlasso_algorithm |].
  intros [[beta lambd] psi]. keeps_go.
Qed.
End KeepsLevels.

Lemma draws_nothing_step {A} (m : py A) :
  (forall s, x_dependent (self (fst (m s))) = x_dependent (self s)
             /\ rng (fst (m s)) = rng s) ->
  keeps_unless never draws_nothing m.
Proof.
  intros H s. left. intros Hx. destruct (H s) as [H1 H2]. split; congruence.
Qed.

(** With [x_dependent] off, [fit] takes nothing from numpy's global random
    generator, whatever its outcome: what it computes is a function of the
    data and of the estimator, and a fit can be repeated without a seed.
    (Each x-dependent penalty level takes [n_sim] draws.) *)
Theorem fit_draws_only_when_x_dependent
        {oracles : Oracles} (X : matrix) (y : vec) (s : state) :
  x_dependent (self s) = false ->
  rng (fst (fit X y s)) = rng s.
Proof.
  intros Hx.
  assert (H : keeps draws_nothing (fit X y)).
  { apply kl_fit.
    - intros s0 H0. now split.
    - intros s1 s2 s3 H12 H23 H1. destruct (H12 H1) as [H2 E2].
      destruct (H23 H2) as [H3 E3]. split; congruence.
    - intros e. apply draws_nothing_step. intros s0. now split.
    - intros k. apply draws_nothing_step. intros s0. now split.
    - intros b l p. apply draws_nothing_step. intros s0. now split.
    - intros X0 y0 lambd psi n. apply draws_nothing_step. intros s0.
      rewrite cvxpy_solve_rounded_run. now split.
    - intros n p sigma_hat X0 psi s0. left. intros H0.
      unfold Rlasso_penalty_level, default_gamma, bind, get_self, update_self,
        ret, raise.
      destruct (gamma (self s0)); simpl; rewrite H0; simpl;
        destruct (cov_type (self s0) =? "nonrobust")%string, sigma_hat; simpl;
        now split.
    - intros n p s0. left. intros H0.
      unfold SqrtRlasso_penalty_level, default_gamma, bind, get_self, update_self,
        ret, raise.
      destruct (gamma (self s0)); simpl; rewrite H0; simpl; now split. }
  now apply (H s).
Qed.

Lemma fit_draws_only_when_x_dependent_witness :
  rng (fst (@fit Example.oracles Example.X2 Example.y2 (start (Example.rlasso []))))
  = rng (start (Example.rlasso [])).
Proof.
  apply (@fit_draws_only_when_x_dependent Example.oracles Example.X2 Example.y2).
  reflexivity.
Defined.

(** The x-dependent example: the level of the nonrobust estimator takes
    [n_sim] draws. *)
Example x_dependent_level_draws :
  let s := start (Example.rlasso [("x_dependent", PyBool true); ("n_sim", PyInt 3)]) in
  rng (fst (@Rlasso_penalty_level Example.oracles 4 1 (Some 1%float)
              (Some Example.X) (Some [[1]]%float) s)) = 3%nat.
Proof. vm_compute. reflexivity. Qed.
